(** * insta_automate: the scheduled-publish pipeline

    A shallow embedding of the publish worker
    (server/src/workers/publish.worker.ts), the Instagram adapter
    (platforms/instagram/instagram.adapter.ts), the Graph API client
    (platforms/instagram/instagram-graph-api.service.ts), the platform
    factory and the post preparation step of the posts service, together
    with the properties the specification states about them.

    Conventions of the embedding:
    - JavaScript strings are [string]s of 8-bit characters; numbers that the
      code uses as integers (sizes, pixel counts, milliseconds, counters) are
      [Z]; an optional property [x?: T] is an [option T].
    - JavaScript truthiness is written out: a string is truthy when it is
      not empty, a number when it is not zero, an optional value when it is
      present and truthy.
    - [async] code is sequential inside one job; it becomes a state and
      exception monad over a [World] that holds the database tables, the
      clock and the requests sent to the remote platform. *)

From Stdlib Require Import ZArith String Ascii List Bool Lia DecimalString DecimalNat.
From Stdlib Require Import Sorted Permutation.
From stdpp Require Import base option list gmap strings.

Local Open Scope string_scope.
Local Open Scope Z_scope.

(** ** JavaScript helpers *)

Module Js.

(** [s] is truthy: [!!s] for a string. *)
Definition truthy_str (s : string) : bool :=
  match s with EmptyString => false | String _ _ => true end.

(** [!!n] for an integer-valued number. *)
Definition truthy_num (n : Z) : bool := negb (n =? 0).

(** [a || b] on strings. *)
Definition or_str (a b : string) : string :=
  if truthy_str a then a else b.

(** [a || b] where [a] may be undefined. *)
Definition or_opt_str (a : option string) (b : string) : string :=
  match a with
  | Some s => or_str s b
  | None => b
  end.

(** [a || b] on an optional number. *)
Definition or_opt_num (a : option Z) (b : Z) : Z :=
  match a with
  | Some n => if truthy_num n then n else b
  | None => b
  end.

(** [s.startsWith(p)]. *)
Definition startsWith (s p : string) : bool := String.prefix p s.

(** [s.includes(p)]. *)
Definition includes (s p : string) : bool :=
  match String.index 0 p s with Some _ => true | None => false end.

Definition lower_ascii (c : ascii) : ascii :=
  let n := nat_of_ascii c in
  if (Nat.leb 65 n && Nat.leb n 90)%bool then ascii_of_nat (n + 32) else c.

(** [s.toLowerCase()] on ASCII text. *)
Fixpoint toLowerCase (s : string) : string :=
  match s with
  | EmptyString => EmptyString
  | String c r => String (lower_ascii c) (toLowerCase r)
  end.

(** [l.join(sep)]. *)
Fixpoint join (sep : string) (l : list string) : string :=
  match l with
  | [] => ""
  | [x] => x
  | x :: r => x ++ sep ++ join sep r
  end.

(** A natural number inside a template literal. *)
Definition show_nat (n : nat) : string :=
  NilEmpty.string_of_uint (Nat.to_uint n).

(** An integer inside a template literal. *)
Definition show_Z (n : Z) : string :=
  if n <? 0 then "-" ++ show_nat (Z.to_nat (- n)) else show_nat (Z.to_nat n).

(** An optional string inside a template literal. *)
Definition show_opt (o : option string) : string :=
  match o with Some s => s | None => "undefined" end.

End Js.

(** ** platforms/base/platform-adapter.interface.ts *)

Module Platform.

Inductive PostType := IMAGE | CAROUSEL | REEL | VIDEO | TEXT.

Definition PostType_eqb (a b : PostType) : bool :=
  match a, b with
  | IMAGE, IMAGE | CAROUSEL, CAROUSEL | REEL, REEL
  | VIDEO, VIDEO | TEXT, TEXT => true
  | _, _ => false
  end.

Definition show_PostType (t : PostType) : string :=
  match t with
  | IMAGE => "IMAGE" | CAROUSEL => "CAROUSEL" | REEL => "REEL"
  | VIDEO => "VIDEO" | TEXT => "TEXT"
  end.

Record MediaAsset := {
  id : string;
  fileUrl : string;
  fileType : string;
  fileSize : option Z;
  width : option Z;
  height : option Z;
  position : option Z
}.

Record ValidationResult := {
  valid : bool;
  errors : option (list string);
  warnings : option (list string)
}.

Record PublishResult := {
  success : bool;
  platformPostId : option string;
  platformPostUrl : option string;
  error : option string;
  errorCode : option string
}.

Record ConnectedAccount := {
  platformUserId : string;
  platformUsername : string;
  accessToken : string;
  refreshToken : option string;
  tokenExpiresAt : option Z
}.

End Platform.

(** ** InstagramAdapter.validateMedia *)

Module Validate.

Import Platform.

(** [if (c) list.push(msg)]: what one guarded push adds. *)
Definition push_if (c : bool) (msg : string) : list string :=
  if c then [msg] else [].

(** [media[0]?.f && test(media[0].f)] for a string field. *)
Definition first_str (media : list MediaAsset) (f : MediaAsset -> string)
    (test : string -> bool) : bool :=
  match media with
  | m :: _ => Js.truthy_str (f m) && test (f m)
  | [] => false
  end.

(** [media[0]?.f && test(media[0].f)] for an optional number field. *)
Definition first_num (media : list MediaAsset) (f : MediaAsset -> option Z)
    (test : Z -> bool) : bool :=
  match media with
  | m :: _ =>
      match f m with
      | Some n => Js.truthy_num n && test n
      | None => false
      end
  | [] => false
  end.

(** [m.f && test(m.f)] for an optional number field. *)
Definition has_num (m : MediaAsset) (f : MediaAsset -> option Z)
    (test : Z -> bool) : bool :=
  match f m with
  | Some n => Js.truthy_num n && test n
  | None => false
  end.

Definition MB8 : Z := 8 * 1024 * 1024.
Definition MB100 : Z := 100 * 1024 * 1024.

Definition imageErrors (media : list MediaAsset) : list string :=
  push_if (negb (length media =? 1)%nat)
    "Image post must have exactly 1 image"
  ++ push_if (first_str media fileType (fun t => negb (Js.startsWith t "image/")))
    "Invalid file type for image post. Must be an image."
  ++ push_if (first_num media fileSize (fun s => s >? MB8))
    "Image file size must be less than 8MB".

Definition imageWarnings (media : list MediaAsset) : list string :=
  push_if (first_num media width (fun w => (w <? 320) || (w >? 1440)))
    "Image width should be between 320 and 1440 pixels for best quality"
  ++ push_if (first_num media height (fun h => (h <? 320) || (h >? 1440)))
    "Image height should be between 320 and 1440 pixels for best quality".

(** The body of the [forEach] callback of the carousel branch. *)
Definition carouselItemErrors (m : MediaAsset) (index : nat) : list string :=
  push_if (Js.truthy_str (fileType m) && negb (Js.startsWith (fileType m) "image/"))
    ("Item " ++ Js.show_nat (index + 1) ++ " in carousel must be an image")
  ++ push_if (has_num m fileSize (fun s => s >? MB8))
    ("Item " ++ Js.show_nat (index + 1) ++ " in carousel exceeds 8MB limit").

(** [media.forEach((m, index) => ...)], from [index] on. *)
Fixpoint forEachItem (media : list MediaAsset) (index : nat) : list string :=
  match media with
  | [] => []
  | m :: rest => carouselItemErrors m index ++ forEachItem rest (S index)
  end.

Definition carouselErrors (media : list MediaAsset) : list string :=
  push_if ((length media <? 2)%nat || (10 <? length media)%nat)
    "Carousel post must have between 2 and 10 images"
  ++ forEachItem media 0.

Definition reelErrors (media : list MediaAsset) : list string :=
  push_if (negb (length media =? 1)%nat)
    "Reel must have exactly 1 video"
  ++ push_if (first_str media fileType (fun t => negb (Js.startsWith t "video/")))
    "Invalid file type for reel. Must be a video."
  ++ push_if (first_num media fileSize (fun s => s >? MB100))
    "Video file size must be less than 100MB".

Definition reelWarnings (media : list MediaAsset) : list string :=
  push_if (first_num media width (fun w => negb (w =? 1080)))
    "Reel width should be 1080 pixels for best quality"
  ++ push_if (first_num media height (fun h => negb (h =? 1920)))
    "Reel height should be 1920 pixels (9:16 aspect ratio)".

(** The [errors] array at the [return]. *)
Definition collectErrors (media : list MediaAsset) (postType : PostType)
    : list string :=
  match postType with
  | IMAGE => imageErrors media
  | CAROUSEL => carouselErrors media
  | REEL => reelErrors media
  | VIDEO | TEXT => []
  end.

(** The [warnings] array at the [return]. *)
Definition collectWarnings (media : list MediaAsset) (postType : PostType)
    : list string :=
  match postType with
  | IMAGE => imageWarnings media
  | REEL => reelWarnings media
  | CAROUSEL | VIDEO | TEXT => []
  end.

(** [list.length > 0 ? list : undefined]. *)
Definition nonemptyOrUndefined (l : list string) : option (list string) :=
  match l with [] => None | _ :: _ => Some l end.

Definition validateMedia (media : list MediaAsset) (postType : PostType)
    : ValidationResult :=
  let errs := collectErrors media postType in
  let warns := collectWarnings media postType in
  {| valid := (length errs =? 0)%nat;
     errors := nonemptyOrUndefined errs;
     warnings := nonemptyOrUndefined warns |}.

End Validate.

(** ** The persistence layer (Prisma client)

    The Prisma schema is not part of the sources; the rows below carry the
    columns the pipeline reads and writes, with the nullability the code
    handles ([m.fileType || ''], [post.caption || undefined], ...). *)

Module Prisma.

Inductive PostStatus := PENDING | PUBLISHED | FAILED | CANCELLED.

Definition PostStatus_eqb (a b : PostStatus) : bool :=
  match a, b with
  | PENDING, PENDING | PUBLISHED, PUBLISHED
  | FAILED, FAILED | CANCELLED, CANCELLED => true
  | _, _ => false
  end.

Definition show_PostStatus (s : PostStatus) : string :=
  match s with
  | PENDING => "PENDING" | PUBLISHED => "PUBLISHED"
  | FAILED => "FAILED" | CANCELLED => "CANCELLED"
  end.

Record MediaAsset := {
  id : string;
  fileUrl : string;
  fileType : option string;
  fileSize : option Z;
  width : option Z;
  height : option Z;
  position : option Z
}.

Record SocialAccount := {
  platformUserId : string;
  accessToken : string;
  refreshToken : option string;
  tokenExpiresAt : option Z
}.

(** A row of [scheduledPost], with its [mediaAssets] relation. *)
Record ScheduledPost := {
  userId : string;
  socialAccountId : string;
  platform : string;
  postType : Platform.PostType;
  caption : option string;
  scheduledAt : Z;
  status : PostStatus;
  platformPostId : option string;
  retryCount : Z;
  errorMessage : option string;
  publishedAt : option Z;
  mediaAssets : list MediaAsset
}.

(** The [errorDetails] JSON of a job log, by the three shapes the worker
    writes.  The [stack] property of the third shape is the engine's
    stack trace text and is left out. *)
Inductive ErrorDetails :=
| DetailsPublished (platformPostUrl : option string)
| DetailsFailed (error errorCode : option string) (retryCount : Z) (willRetry : bool)
| DetailsError (error : string) (retryCount : Z) (willRetry : bool).

Record JobLog := {
  scheduledPostId : string;
  logStatus : string;
  message : string;
  executionTimeMs : Z;
  errorDetails : ErrorDetails
}.

(** The [data] object of [scheduledPost.update]: a property that is
    absent ([None]) leaves the column as it is. *)
Record PostData := {
  setStatus : option PostStatus;
  setPlatformPostId : option string;
  setPublishedAt : option Z;
  setErrorMessage : option (option string);
  setRetryCount : option Z
}.

Definition applyData (d : PostData) (p : ScheduledPost) : ScheduledPost :=
  {| userId := userId p;
     socialAccountId := socialAccountId p;
     platform := platform p;
     postType := postType p;
     caption := caption p;
     scheduledAt := scheduledAt p;
     status := default (status p) (setStatus d);
     platformPostId :=
       match setPlatformPostId d with Some v => Some v | None => platformPostId p end;
     retryCount := default (retryCount p) (setRetryCount d);
     errorMessage := default (errorMessage p) (setErrorMessage d);
     publishedAt :=
       match setPublishedAt d with Some v => Some v | None => publishedAt p end;
     mediaAssets := mediaAssets p |}.

(** The publish-related columns of a post. *)
Definition publishFields (p : ScheduledPost)
    : PostStatus * Z * option string * option string * option Z :=
  (status p, retryCount p, errorMessage p, platformPostId p, publishedAt p).

End Prisma.

(** ** The remote platform and the world a job runs in *)

(** A JavaScript [Error]; [response] is the [response.data.error] object an
    axios failure may carry, [None] for an error made by [new Error(...)]. *)
Record ApiError := { apiMessage : option string; apiCode : option Z }.
Record JsError := { message : string; response : option ApiError }.

Definition newError (msg : string) : JsError :=
  {| message := msg; response := None |}.

(** The HTTP requests of the Graph API client, by endpoint and parameters. *)
Inductive Request :=
| ExchangeToken (client_id client_secret fb_exchange_token : string)
| AccountInfo (igAccountId access_token : string)
| CreateImage (igAccountId image_url caption access_token : string)
| CreateCarouselItem (igAccountId image_url access_token : string)
| CreateCarousel (igAccountId children caption access_token : string)
| CreateReel (igAccountId video_url caption access_token : string)
| MediaPublish (igAccountId creation_id access_token : string)
| ContainerStatus (containerId access_token : string)
| PostInfo (postId access_token : string).

(** [response.data], with the properties the client reads. *)
Record Payload := {
  data_id : string;
  data_status_code : string;
  data_status : string;
  data_permalink : string;
  data_username : string;
  data_access_token : string;
  data_expires_in : option Z
}.

Inductive Outcome := Resolved (data : Payload) | Rejected (e : JsError).

(** What the platform answers, and the milliseconds the exchange took. *)
Record Reply := { latency : N; outcome : Outcome }.

Record World := {
  now : Z;
  remote : list Request -> Request -> Reply;
  sent : list Request;
  appId : option string;
  appSecret : option string;
  scheduledPost : gmap string Prisma.ScheduledPost;
  socialAccount : gmap string Prisma.SocialAccount;
  jobLog : list Prisma.JobLog;
  postUpdates : list (string * Prisma.PostData)
}.

Definition setClock (t : Z) (w : World) : World :=
  {| now := t; remote := remote w; sent := sent w;
     appId := appId w; appSecret := appSecret w;
     scheduledPost := scheduledPost w; socialAccount := socialAccount w;
     jobLog := jobLog w; postUpdates := postUpdates w |}.

Definition setSent (l : list Request) (w : World) : World :=
  {| now := now w; remote := remote w; sent := l;
     appId := appId w; appSecret := appSecret w;
     scheduledPost := scheduledPost w; socialAccount := socialAccount w;
     jobLog := jobLog w; postUpdates := postUpdates w |}.

Definition setPosts (m : gmap string Prisma.ScheduledPost)
    (u : list (string * Prisma.PostData)) (w : World) : World :=
  {| now := now w; remote := remote w; sent := sent w;
     appId := appId w; appSecret := appSecret w;
     scheduledPost := m; socialAccount := socialAccount w;
     jobLog := jobLog w; postUpdates := u |}.

Definition setAccounts (m : gmap string Prisma.SocialAccount) (w : World) : World :=
  {| now := now w; remote := remote w; sent := sent w;
     appId := appId w; appSecret := appSecret w;
     scheduledPost := scheduledPost w; socialAccount := m;
     jobLog := jobLog w; postUpdates := postUpdates w |}.

Definition setJobLog (l : list Prisma.JobLog) (w : World) : World :=
  {| now := now w; remote := remote w; sent := sent w;
     appId := appId w; appSecret := appSecret w;
     scheduledPost := scheduledPost w; socialAccount := socialAccount w;
     jobLog := l; postUpdates := postUpdates w |}.

(** ** The monad of a job: state and exceptions *)

Inductive Completion (A : Type) :=
| Normal (a : A)
| Throw (e : JsError).
Arguments Normal {A} a.
Arguments Throw {A} e.

Definition M (A : Type) : Type := World -> Completion A * World.

Definition ret {A} (a : A) : M A := fun w => (Normal a, w).

Definition throw {A} (e : JsError) : M A := fun w => (Throw e, w).

Definition bind {A B} (c : M A) (k : A -> M B) : M B :=
  fun w =>
    match c w with
    | (Normal a, w1) => k a w1
    | (Throw e, w1) => (Throw e, w1)
    end.

(** [try { c } catch (error) { h error }]. *)
Definition tryCatch {A} (c : M A) (h : JsError -> M A) : M A :=
  fun w =>
    match c w with
    | (Normal a, w1) => (Normal a, w1)
    | (Throw e, w1) => h e w1
    end.

Notation "'let!' x ':=' c 'in' k" := (bind c (fun x => k))
  (at level 10, x name, c at level 100, k at level 200).
Notation "'run!' c 'in' k" := (bind c (fun _ => k))
  (at level 10, c at level 100, k at level 200).

(** [Date.now()]. *)
Definition dateNow : M Z := fun w => (Normal (now w), w).

(** [await new Promise((resolve) => setTimeout(resolve, ms))]: the timer
    fires after [ms]; any further delay of the event loop is accounted to
    the latency of the next request. *)
Definition sleep (ms : Z) : M unit :=
  fun w => (Normal tt, setClock (now w + ms) w).

(** One axios call: the request is recorded, the clock advances by the
    latency, and the promise resolves or rejects as the platform decides. *)
Definition axios (r : Request) : M Payload :=
  fun w =>
    let reply := remote w (sent w) r in
    let w1 := setSent (sent w ++ [r]) (setClock (now w + Z.of_N (latency reply)) w) in
    match outcome reply with
    | Resolved d => (Normal d, w1)
    | Rejected e => (Throw e, w1)
    end.

(** The post handed to an adapter: the interface's [ScheduledPost] and the
    two properties the posts service adds and the adapter reads through
    [(post as any)]. *)
Module PlatformPost.

Record ScheduledPost := {
  id : string;
  userId : string;
  socialAccountId : string;
  platform : string;
  postType : Platform.PostType;
  caption : option string;
  scheduledAt : Z;
  mediaAssets : list Platform.MediaAsset;
  accessToken : option string;
  igAccountId : option string
}.

End PlatformPost.

(** ** InstagramGraphApiService *)

Module GraphApi.

(** [error.response?.data?.error?.message || error.message]. *)
Definition remoteMessage (error : JsError) : string :=
  Js.or_opt_str
    (match response error with Some a => apiMessage a | None => None end)
    (message error).

(** [try { c } catch (error) { throw new Error(`${what}: ...`) }]. *)
Definition rethrowAs {A} (what : string) (c : M A) : M A :=
  tryCatch c (fun error => throw (newError (what ++ ": " ++ remoteMessage error))).

Definition exchangeToken (shortLivedToken appId appSecret : string) : M Payload :=
  rethrowAs "Failed to exchange token"
    (axios (ExchangeToken appId appSecret shortLivedToken)).

Definition getAccountInfo (igAccountId accessToken : string) : M Payload :=
  rethrowAs "Failed to get account info"
    (axios (AccountInfo igAccountId accessToken)).

Definition createImageContainer (igAccountId imageUrl caption accessToken : string)
    : M string :=
  rethrowAs "Failed to create image container"
    (let! response := axios (CreateImage igAccountId imageUrl (Js.or_str caption "") accessToken) in
     ret (data_id response)).

(** The [for] loop over [imageUrls], from the current index on, with the
    [containerIds] pushed so far. *)
Fixpoint createItemContainers (igAccountId : string) (imageUrls : list string)
    (accessToken : string) (containerIds : list string) : M (list string) :=
  match imageUrls with
  | [] => ret containerIds
  | imageUrl :: rest =>
      let! response := axios (CreateCarouselItem igAccountId imageUrl accessToken) in
      createItemContainers igAccountId rest accessToken
        (containerIds ++ [data_id response])
  end.

Definition createCarouselContainers (igAccountId : string) (imageUrls : list string)
    (caption accessToken : string) : M (list string) :=
  rethrowAs "Failed to create carousel"
    (let! containerIds := createItemContainers igAccountId imageUrls accessToken [] in
     let! carouselResponse :=
       axios (CreateCarousel igAccountId (Js.join "," containerIds)
                (Js.or_str caption "") accessToken) in
     ret [data_id carouselResponse]).

Definition createReelContainer (igAccountId videoUrl caption coverUrl accessToken : string)
    : M string :=
  rethrowAs "Failed to create reel container"
    (let! response := axios (CreateReel igAccountId videoUrl (Js.or_str caption "") accessToken) in
     ret (data_id response)).

Definition publishContainer (igAccountId containerId accessToken : string) : M Payload :=
  rethrowAs "Failed to publish post"
    (axios (MediaPublish igAccountId containerId accessToken)).

Definition getContainerStatus (containerId accessToken : string) : M Payload :=
  rethrowAs "Failed to get container status"
    (axios (ContainerStatus containerId accessToken)).

Definition getPostInfo (postId accessToken : string) : M Payload :=
  rethrowAs "Failed to get post info"
    (axios (PostInfo postId accessToken)).

End GraphApi.

(** ** InstagramAdapter *)

Module InstagramAdapter.

Import Platform.

Definition pollInterval : Z := 2000.

(** The [while] loop of [waitForContainerReady].  Every turn of the loop
    that does not leave it sleeps [pollInterval], so the loop takes at most
    [pollBound timeout] turns; [fuel] counts them down, and [None] stands
    for a loop that would need more. *)
Fixpoint pollLoop (fuel : nat) (containerId accessToken : string)
    (startTime timeout : Z) (w : World) : option (Completion unit * World) :=
  if now w - startTime <? timeout then
    match fuel with
    | O => None
    | S fuel' =>
        match GraphApi.getContainerStatus containerId accessToken w with
        | (Throw e, w1) => Some (Throw e, w1)
        | (Normal status, w1) =>
            if String.eqb (data_status_code status) "FINISHED" then
              Some (Normal tt, w1)
            else if String.eqb (data_status_code status) "ERROR" then
              Some (Throw (newError ("Container processing failed: "
                       ++ Js.or_str (data_status status) "Unknown error")), w1)
            else
              pollLoop fuel' containerId accessToken startTime timeout
                (snd (sleep pollInterval w1))
        end
    end
  else Some (Throw (newError "Container processing timeout"), w).

Definition pollBound (timeout : Z) : nat := S (Z.to_nat (timeout / pollInterval)).

(** [waitForContainerReady(containerId, accessToken, timeout)].  The
    second branch is never taken ([pollLoop_total] below). *)
Definition waitForContainerReady (containerId accessToken : string) (timeout : Z)
    : M unit :=
  fun w =>
    match pollLoop (pollBound timeout) containerId accessToken (now w) timeout w with
    | Some r => r
    | None => (Throw (newError "Container processing timeout"), w)
    end.

Definition defaultTimeout : Z := 10000.

(** [(a.position || 0)]. *)
Definition positionKey (m : MediaAsset) : Z := Js.or_opt_num (position m) 0.

(** [Array.prototype.sort] with the comparator
    [(a, b) => (a.position || 0) - (b.position || 0)]: the sort is stable,
    so its result is the one of a stable insertion sort. *)
Fixpoint insertByPosition (m : MediaAsset) (l : list MediaAsset) : list MediaAsset :=
  match l with
  | [] => [m]
  | x :: rest =>
      if positionKey m <=? positionKey x then m :: x :: rest
      else x :: insertByPosition m rest
  end.

Fixpoint sortByPosition (l : list MediaAsset) : list MediaAsset :=
  match l with
  | [] => []
  | m :: rest => insertByPosition m (sortByPosition rest)
  end.

(** [!x] for a string property that may be missing. *)
Definition falsy (o : option string) : bool :=
  match o with Some s => negb (Js.truthy_str s) | None => true end.

(** The [catch] block of [publishPost] and [publishReel]. *)
Definition failureResult (error : JsError) : PublishResult :=
  {| success := false;
     platformPostId := None;
     platformPostUrl := None;
     Platform.error := Some (message error);
     errorCode :=
       Some (Js.or_opt_str
               (match response error with
                | Some a => option_map Js.show_Z (apiCode a)
                | None => None
                end) "UNKNOWN") |}.

(** Steps 2 to 4 of the protocol, shared by both operations. *)
Definition finishPublish (igAccountId containerId accessToken : string) (timeout : Z)
    : M PublishResult :=
  run! waitForContainerReady containerId accessToken timeout in
  let! publishResult := GraphApi.publishContainer igAccountId containerId accessToken in
  let! postInfo := GraphApi.getPostInfo (data_id publishResult) accessToken in
  ret {| success := true;
         platformPostId := Some (data_id publishResult);
         platformPostUrl := Some (data_permalink postInfo);
         Platform.error := None;
         errorCode := None |}.

(** The container creation of [publishPost], by post type. *)
Definition createContainer (post : PlatformPost.ScheduledPost)
    (igAccountId accessToken : string) : M string :=
  match PlatformPost.postType post with
  | IMAGE =>
      match PlatformPost.mediaAssets post with
      | [m] =>
          GraphApi.createImageContainer igAccountId (fileUrl m)
            (Js.or_opt_str (PlatformPost.caption post) "") accessToken
      | _ => throw (newError "Image post must have exactly 1 image")
      end
  | CAROUSEL =>
      let imageUrls := map fileUrl (sortByPosition (PlatformPost.mediaAssets post)) in
      let! containerIds :=
        GraphApi.createCarouselContainers igAccountId imageUrls
          (Js.or_opt_str (PlatformPost.caption post) "") accessToken in
      ret (match containerIds with c :: _ => c | [] => "undefined" end)
  | t => throw (newError ("Unsupported post type: " ++ show_PostType t))
  end.

Definition publishPost (post : PlatformPost.ScheduledPost) : M PublishResult :=
  tryCatch
    (let accessToken := PlatformPost.accessToken post in
     let igAccountId := PlatformPost.igAccountId post in
     if falsy accessToken || falsy igAccountId then
       throw (newError "Missing access token or Instagram account ID")
     else
       let! containerId :=
         createContainer post (default "" igAccountId) (default "" accessToken) in
       finishPublish (default "" igAccountId) containerId (default "" accessToken)
         defaultTimeout)
    (fun error => ret (failureResult error)).

Definition publishReel (reel : PlatformPost.ScheduledPost) : M PublishResult :=
  tryCatch
    (let accessToken := PlatformPost.accessToken reel in
     let igAccountId := PlatformPost.igAccountId reel in
     if falsy accessToken || falsy igAccountId then
       throw (newError "Missing access token or Instagram account ID")
     else
       match PlatformPost.mediaAssets reel with
       | [m] =>
           let! containerId :=
             GraphApi.createReelContainer (default "" igAccountId) (fileUrl m)
               (Js.or_opt_str (PlatformPost.caption reel) "") (fileUrl m)
               (default "" accessToken) in
           finishPublish (default "" igAccountId) containerId (default "" accessToken)
             30000
       | _ => throw (newError "Reel must have exactly 1 video")
       end)
    (fun error => ret (failureResult error)).

(** [process.env.INSTAGRAM_APP_ID] and [..._SECRET], when both are set. *)
Definition appCredentials : M (string * string) :=
  fun w =>
    match appId w, appSecret w with
    | Some i, Some s =>
        if Js.truthy_str i && Js.truthy_str s then (Normal (i, s), w)
        else (Throw (newError "Instagram app credentials not configured"), w)
    | _, _ => (Throw (newError "Instagram app credentials not configured"), w)
    end.

Definition refreshToken (accountId refreshToken : string) : M ConnectedAccount :=
  tryCatch
    (let! app := appCredentials in
     let! tokenResponse := GraphApi.exchangeToken refreshToken (fst app) (snd app) in
     let! accountInfo :=
       GraphApi.getAccountInfo accountId (data_access_token tokenResponse) in
     let expiresIn := Js.or_opt_num (data_expires_in tokenResponse) 5184000 in
     let! t := dateNow in
     ret {| platformUserId := accountId;
            platformUsername := data_username accountInfo;
            accessToken := data_access_token tokenResponse;
            Platform.refreshToken := None;
            tokenExpiresAt := Some (t + expiresIn * 1000) |})
    (fun error => throw (newError ("Failed to refresh token: " ++ message error))).

End InstagramAdapter.

(** ** PlatformFactory *)

Module PlatformFactory.

(** The operations of the [PlatformAdapter] interface that the publish
    pipeline calls. *)
Record PlatformAdapter := {
  getPlatformName : string;
  validateMedia : list Platform.MediaAsset -> Platform.PostType -> Platform.ValidationResult;
  publishPost : PlatformPost.ScheduledPost -> M Platform.PublishResult;
  publishReel : PlatformPost.ScheduledPost -> M Platform.PublishResult;
  refreshToken : string -> string -> M Platform.ConnectedAccount
}.

Definition instagramAdapter : PlatformAdapter :=
  {| getPlatformName := "instagram";
     validateMedia := Validate.validateMedia;
     publishPost := InstagramAdapter.publishPost;
     publishReel := InstagramAdapter.publishReel;
     refreshToken := InstagramAdapter.refreshToken |}.

Definition register (platformName : string) (adapter : PlatformAdapter)
    (adapters : gmap string PlatformAdapter) : gmap string PlatformAdapter :=
  <[Js.toLowerCase platformName := adapter]> adapters.

(** The map the constructor leaves behind. *)
Definition adapters : gmap string PlatformAdapter :=
  register "instagram" instagramAdapter ∅.

Definition getAdapter (platformName : string) : M PlatformAdapter :=
  match adapters !! Js.toLowerCase platformName with
  | Some adapter => ret adapter
  | None => throw (newError ("Platform adapter not found: " ++ platformName))
  end.

Definition isSupported (platformName : string) : bool :=
  bool_decide (is_Some (adapters !! Js.toLowerCase platformName)).

End PlatformFactory.

(** ** SchedulerService: the options every publish job is added with *)

Module Scheduler.

Inductive Backoff := Exponential (delay : Z) | Fixed (delay : Z).

Record JobOptions := { delay : option Z; attempts : Z; backoff : Backoff }.

(** [schedulePost(postId, scheduledAt)] at time [now]: the options of the
    job that is added. *)
Definition schedulePost (scheduledAt now : Z) : JobOptions :=
  let d := scheduledAt - now in
  if d <? 0 then
    {| delay := None; attempts := 3; backoff := Exponential 5000 |}
  else
    {| delay := Some d; attempts := 3; backoff := Exponential 5000 |}.

End Scheduler.

(** ** PostsService.preparePostForPublishing *)

Module PostsService.

Definition toPlatformMedia (m : Prisma.MediaAsset) : Platform.MediaAsset :=
  {| Platform.id := Prisma.id m;
     Platform.fileUrl := Prisma.fileUrl m;
     Platform.fileType := Js.or_opt_str (Prisma.fileType m) "";
     Platform.fileSize :=
       match Prisma.fileSize m with
       | Some n => if Js.truthy_num n then Some n else None
       | None => None
       end;
     Platform.width :=
       match Prisma.width m with
       | Some n => if Js.truthy_num n then Some n else None
       | None => None
       end;
     Platform.height :=
       match Prisma.height m with
       | Some n => if Js.truthy_num n then Some n else None
       | None => None
       end;
     Platform.position := Prisma.position m |}.

(** [prisma.scheduledPost.findUnique({ where: { id } })]. *)
Definition findUnique (postId : string) : M (option Prisma.ScheduledPost) :=
  fun w => (Normal (scheduledPost w !! postId), w).

(** [findUnique] with [include: { socialAccount: true }]: the post and
    the account its [socialAccountId] names. *)
Definition findAccount (post : Prisma.ScheduledPost) : M Prisma.SocialAccount :=
  fun w =>
    match socialAccount w !! Prisma.socialAccountId post with
    | Some a => (Normal a, w)
    | None =>
        (Throw (newError "Cannot read properties of null (reading 'accessToken')"), w)
    end.

(** [prisma.socialAccount.update] of the token columns. *)
Definition updateAccount (accountId accessToken : string) (tokenExpiresAt : option Z)
    : M unit :=
  fun w =>
    match socialAccount w !! accountId with
    | Some a =>
        (Normal tt,
         setAccounts
           (<[accountId :=
                {| Prisma.platformUserId := Prisma.platformUserId a;
                   Prisma.accessToken := accessToken;
                   Prisma.refreshToken := Prisma.refreshToken a;
                   Prisma.tokenExpiresAt :=
                     match tokenExpiresAt with
                     | Some t => Some t
                     | None => Prisma.tokenExpiresAt a
                     end |}]> (socialAccount w)) w)
    | None => (Throw (newError "Record to update not found."), w)
    end.

(** [tokenExpiresAt && tokenExpiresAt <= new Date()]. *)
Definition expired (tokenExpiresAt : option Z) (t : Z) : bool :=
  match tokenExpiresAt with
  | Some e => e <=? t
  | None => false
  end.

Definition preparePostForPublishing (postId : string) : M PlatformPost.ScheduledPost :=
  let! found := findUnique postId in
  match found with
  | None => throw (newError "Post not found")
  | Some post =>
      let! account := findAccount post in
      let! t := dateNow in
      let! accessToken :=
        (if expired (Prisma.tokenExpiresAt account) t then
           let! adapter := PlatformFactory.getAdapter (Prisma.platform post) in
           let! refreshed :=
             PlatformFactory.refreshToken adapter (Prisma.platformUserId account)
               (Js.or_opt_str (Prisma.refreshToken account) (Prisma.accessToken account)) in
           run! updateAccount (Prisma.socialAccountId post)
                  (Platform.accessToken refreshed) (Platform.tokenExpiresAt refreshed) in
           ret (Platform.accessToken refreshed)
         else ret (Prisma.accessToken account)) in
      ret {| PlatformPost.id := postId;
             PlatformPost.userId := Prisma.userId post;
             PlatformPost.socialAccountId := Prisma.socialAccountId post;
             PlatformPost.platform := Prisma.platform post;
             PlatformPost.postType := Prisma.postType post;
             PlatformPost.caption :=
               match Prisma.caption post with
               | Some c => if Js.truthy_str c then Some c else None
               | None => None
               end;
             PlatformPost.scheduledAt := Prisma.scheduledAt post;
             PlatformPost.mediaAssets := map toPlatformMedia (Prisma.mediaAssets post);
             PlatformPost.accessToken := Some accessToken;
             PlatformPost.igAccountId := Some (Prisma.platformUserId account) |}
  end.

End PostsService.

(** ** workers/publish.worker.ts *)

Module Worker.

(** What the processor returns to the queue when it does not throw. *)
Inductive JobReturn :=
| Skipped (reason : string)
| Published (platformPostId : option string) (executionTime : Z)
| Failure (error : option string) (retryCount : option Z) (executionTime : Z).

(** [prisma.scheduledPost.update({ where: { id }, data })]. *)
Definition update (postId : string) (data : Prisma.PostData) : M unit :=
  fun w =>
    match scheduledPost w !! postId with
    | Some p =>
        (Normal tt,
         setPosts (<[postId := Prisma.applyData data p]> (scheduledPost w))
           (postUpdates w ++ [(postId, data)]) w)
    | None => (Throw (newError "Record to update not found."), w)
    end.

(** [prisma.jobLog.create({ data })]. *)
Definition create (row : Prisma.JobLog) : M unit :=
  fun w => (Normal tt, setJobLog (jobLog w ++ [row]) w).

Definition maxRetries : Z := 3.

(** The body of the [try] block. *)
Definition attempt (postId : string) (startTime : Z) : M JobReturn :=
  let! post := PostsService.preparePostForPublishing postId in
  let! dbPost := PostsService.findUnique postId in
  match dbPost with
  | None => throw (newError ("Post " ++ postId ++ " not found"))
  | Some dbPost =>
      if negb (Prisma.PostStatus_eqb (Prisma.status dbPost) Prisma.PENDING) then
        ret (Skipped ("Status is " ++ Prisma.show_PostStatus (Prisma.status dbPost)))
      else
        let! adapter := PlatformFactory.getAdapter (PlatformPost.platform post) in
        let! result :=
          (if Platform.PostType_eqb (PlatformPost.postType post) Platform.REEL
           then PlatformFactory.publishReel adapter post
           else PlatformFactory.publishPost adapter post) in
        let! t := dateNow in
        let executionTime := t - startTime in
        if Platform.success result then
          run! update postId
                 {| Prisma.setStatus := Some Prisma.PUBLISHED;
                    Prisma.setPlatformPostId := Platform.platformPostId result;
                    Prisma.setPublishedAt := Some t;
                    Prisma.setErrorMessage := Some None;
                    Prisma.setRetryCount := None |} in
          run! create
                 {| Prisma.scheduledPostId := postId;
                    Prisma.logStatus := "published";
                    Prisma.message := "Post published successfully. Platform Post ID: "
                                 ++ Js.show_opt (Platform.platformPostId result);
                    Prisma.executionTimeMs := executionTime;
                    Prisma.errorDetails :=
                      Prisma.DetailsPublished (Platform.platformPostUrl result) |} in
          ret (Published (Platform.platformPostId result) executionTime)
        else
          let retryCount' := Prisma.retryCount dbPost + 1 in
          let shouldRetry := retryCount' <? maxRetries in
          run! update postId
                 {| Prisma.setStatus :=
                      Some (if shouldRetry then Prisma.PENDING else Prisma.FAILED);
                    Prisma.setPlatformPostId := None;
                    Prisma.setPublishedAt := None;
                    Prisma.setErrorMessage :=
                      Some (Some (Js.or_opt_str (Platform.error result) "Unknown error"));
                    Prisma.setRetryCount := Some retryCount' |} in
          run! create
                 {| Prisma.scheduledPostId := postId;
                    Prisma.logStatus := "failed";
                    Prisma.message := Js.or_opt_str (Platform.error result) "Publish failed";
                    Prisma.executionTimeMs := executionTime;
                    Prisma.errorDetails :=
                      Prisma.DetailsFailed (Platform.error result) (Platform.errorCode result)
                        retryCount' shouldRetry |} in
          if shouldRetry then
            throw (newError (Js.or_opt_str (Platform.error result) "Publish failed"))
          else
            ret (Failure (Platform.error result) (Some retryCount') executionTime)
  end.

(** The [catch] block. *)
Definition recover (postId : string) (startTime : Z) (error : JsError) : M JobReturn :=
  let! t := dateNow in
  let executionTime := t - startTime in
  let! dbPost := PostsService.findUnique postId in
  run! (match dbPost with
        | Some dbPost =>
            let retryCount' := Prisma.retryCount dbPost + 1 in
            let shouldRetry := retryCount' <? maxRetries in
            run! update postId
                   {| Prisma.setStatus :=
                      Some (if shouldRetry then Prisma.PENDING else Prisma.FAILED);
                      Prisma.setPlatformPostId := None;
                      Prisma.setPublishedAt := None;
                      Prisma.setErrorMessage := Some (Some (message error));
                      Prisma.setRetryCount := Some retryCount' |} in
            create
              {| Prisma.scheduledPostId := postId;
                 Prisma.logStatus := "error";
                 Prisma.message := message error;
                 Prisma.executionTimeMs := executionTime;
                 Prisma.errorDetails :=
                   Prisma.DetailsError (message error) retryCount' shouldRetry |}
        | None => ret tt
        end) in
  match dbPost with
  | Some dbPost =>
      if Prisma.retryCount dbPost <? 2 then throw error
      else ret (Failure (Some (message error)) None executionTime)
  | None => ret (Failure (Some (message error)) None executionTime)
  end.

(** The processor registered for ['publish-post'] jobs. *)
Definition processJob (postId : string) : M JobReturn :=
  let! startTime := dateNow in
  tryCatch (attempt postId startTime) (recover postId startTime).

End Worker.

(** ** The media rules in the words of the specification *)

Module MediaRules.

Import Platform.

(** The declared mime type is accepted: it starts with [family], or no
    type is declared. *)
Definition typeAccepted (family : string) (m : MediaAsset) : bool :=
  negb (Js.truthy_str (fileType m)) || Js.startsWith (fileType m) family.

(** The declared size is accepted: at most [limit], or no size is declared. *)
Definition sizeAccepted (limit : Z) (m : MediaAsset) : bool :=
  match fileSize m with
  | Some s => s <=? limit
  | None => true
  end.

(** The rules by kind, on the metadata that is present. *)
Definition accepted (media : list MediaAsset) (postType : PostType) : bool :=
  match postType with
  | IMAGE =>
      match media with
      | [m] => typeAccepted "image/" m && sizeAccepted Validate.MB8 m
      | _ => false
      end
  | CAROUSEL =>
      (2 <=? length media)%nat && (length media <=? 10)%nat
      && forallb (fun m => typeAccepted "image/" m && sizeAccepted Validate.MB8 m) media
  | REEL =>
      match media with
      | [m] => typeAccepted "video/" m && sizeAccepted Validate.MB100 m
      | _ => false
      end
  | VIDEO | TEXT => true
  end.

(** A dimension that is declared, not zero, and fails [inRange]. *)
Definition dimensionOff (inRange : Z -> bool) (d : option Z) : bool :=
  match d with
  | Some v => negb (v =? 0) && negb (inRange v)
  | None => false
  end.

Definition imageRange (v : Z) : bool := (320 <=? v) && (v <=? 1440).

(** The asset without its pixel dimensions. *)
Definition withoutDimensions (m : MediaAsset) : MediaAsset :=
  {| id := id m; fileUrl := fileUrl m; fileType := fileType m;
     fileSize := fileSize m; width := None; height := None;
     position := position m |}.

(** The [warnings] of a result as a list. *)
Definition warningList (r : ValidationResult) : list string :=
  default [] (warnings r).

(** The [errors] of a result as a list. *)
Definition errorList (r : ValidationResult) : list string :=
  default [] (errors r).

End MediaRules.

(** ** Concrete inputs used by the examples *)

Module Samples.

Import Platform.

Definition asset (url type : string) (size w h pos : option Z) : MediaAsset :=
  {| id := url; fileUrl := url; fileType := type; fileSize := size;
     width := w; height := h; position := pos |}.

Definition photo : MediaAsset :=
  asset "https://cdn/a.jpg" "image/jpeg" (Some 1000) (Some 1080) (Some 1080) (Some 0).

Definition clip : MediaAsset :=
  asset "https://cdn/c.mp4" "video/mp4" (Some 5000) (Some 1080) (Some 1920) (Some 0).

(** An asset whose row had no mime type and no size. *)
Definition bare : MediaAsset :=
  asset "https://cdn/x" "" None None None None.

(** An asset with a size but no declared mime type. *)
Definition untyped : MediaAsset :=
  asset "https://cdn/u" "" (Some 1000) None None None.

Definition tiny : MediaAsset :=
  asset "https://cdn/t.png" "image/png" (Some 1000) (Some 100) (Some 2000) None.

(** Three carousel images, stored in the order of positions 2, 0, 1. *)
Definition slides : list MediaAsset :=
  [ asset "pos2.jpg" "image/jpeg" (Some 1000) None None (Some 2);
    asset "pos0.jpg" "image/jpeg" (Some 1000) None None (Some 0);
    asset "pos1.jpg" "image/jpeg" (Some 1000) None None (Some 1) ].

Definition payload (ident code : string) : Payload :=
  {| data_id := ident; data_status_code := code; data_status := "";
     data_permalink := "https://www.instagram.com/p/" ++ ident;
     data_username := "studio"; data_access_token := "fresh-token";
     data_expires_in := Some 3600 |}.

(** The identifier the sample platform gives to what a request creates. *)
Definition created (r : Request) : string :=
  match r with
  | CreateCarouselItem _ url _ => "item-" ++ url
  | CreateCarousel _ _ _ _ => "carousel"
  | CreateImage _ _ _ _ | CreateReel _ _ _ _ => "container"
  | MediaPublish _ _ _ => "media-1"
  | _ => "object"
  end.

(** A platform on which every container is ready at the first poll. *)
Definition remoteReady (history : list Request) (r : Request) : Reply :=
  {| latency := 100; outcome := Resolved (payload (created r) "FINISHED") |}.

(** A platform on which containers never leave processing. *)
Definition remoteProcessing (history : list Request) (r : Request) : Reply :=
  {| latency := 100; outcome := Resolved (payload (created r) "IN_PROGRESS") |}.

(** The status of a container whose processing failed. *)
Definition errored (ident : string) : Payload :=
  {| data_id := ident; data_status_code := "ERROR";
     data_status := "Error: unsupported media";
     data_permalink := ""; data_username := "";
     data_access_token := ""; data_expires_in := None |}.

(** A platform that reports every container as failed. *)
Definition remoteErrored (history : list Request) (r : Request) : Reply :=
  {| latency := 100; outcome := Resolved (errored (created r)) |}.

(** A platform that rejects every request. *)
Definition remoteRejecting (history : list Request) (r : Request) : Reply :=
  {| latency := 100;
     outcome :=
       Rejected {| message := "Request failed with status code 400";
                   response := Some {| apiMessage := Some "Invalid parameter";
                                       apiCode := Some 100 |} |} |}.

Definition account (expiresAt : option Z) : Prisma.SocialAccount :=
  {| Prisma.platformUserId := "17841400000000000";
     Prisma.accessToken := "stored-token";
     Prisma.refreshToken := None;
     Prisma.tokenExpiresAt := expiresAt |}.

Definition row (m : MediaAsset) : Prisma.MediaAsset :=
  {| Prisma.id := id m; Prisma.fileUrl := fileUrl m;
     Prisma.fileType := Some (fileType m); Prisma.fileSize := fileSize m;
     Prisma.width := width m; Prisma.height := height m;
     Prisma.position := position m |}.

Definition post (platform : string) (postType : PostType) (status : Prisma.PostStatus)
    (retryCount : Z) (media : list MediaAsset) : Prisma.ScheduledPost :=
  {| Prisma.userId := "user-1";
     Prisma.socialAccountId := "account-1";
     Prisma.platform := platform;
     Prisma.postType := postType;
     Prisma.caption := Some "Hello";
     Prisma.scheduledAt := 1700000000000;
     Prisma.status := status;
     Prisma.platformPostId := None;
     Prisma.retryCount := retryCount;
     Prisma.errorMessage := None;
     Prisma.publishedAt := None;
     Prisma.mediaAssets := map row media |}.

Definition startOfJob : Z := 1700000000000.

(** A world with one post ["post-1"] and its account. *)
Definition world (platformReplies : list Request -> Request -> Reply)
    (p : Prisma.ScheduledPost) (a : Prisma.SocialAccount) : World :=
  {| now := startOfJob;
     remote := platformReplies;
     sent := [];
     appId := Some "app-id";
     appSecret := Some "app-secret";
     scheduledPost := {[ "post-1" := p ]};
     socialAccount := {[ "account-1" := a ]};
     jobLog := [];
     postUpdates := [] |}.

(** A prepared post as the adapter receives it. *)
Definition prepared (postType : PostType) (media : list MediaAsset)
    (accessToken igAccountId : option string) : PlatformPost.ScheduledPost :=
  {| PlatformPost.id := "post-1";
     PlatformPost.userId := "user-1";
     PlatformPost.socialAccountId := "account-1";
     PlatformPost.platform := "instagram";
     PlatformPost.postType := postType;
     PlatformPost.caption := Some "Hello";
     PlatformPost.scheduledAt := 1700000000000;
     PlatformPost.mediaAssets := media;
     PlatformPost.accessToken := accessToken;
     PlatformPost.igAccountId := igAccountId |}.

(** A world with one pending image post and a platform that answers. *)
Definition quiet : World :=
  world remoteReady (post "instagram" IMAGE Prisma.PENDING 0 [photo]) (account None).

(** A post on a platform without adapter, pending, never tried. *)
Definition unknownPlatform : World :=
  world remoteReady (post "youtube" IMAGE Prisma.PENDING 0 [photo]) (account None).

(** A cancelled post whose account token expired long ago, on a platform
    that rejects the refresh. *)
Definition cancelledExpired : World :=
  world remoteRejecting (post "instagram" IMAGE Prisma.CANCELLED 0 [photo])
    (account (Some 5)).

(** A pending post whose account token expired long ago, on a platform
    that rejects the refresh. *)
Definition pendingExpired : World :=
  world remoteRejecting (post "instagram" IMAGE Prisma.PENDING 0 [photo])
    (account (Some 5)).


(** A pending post, never tried, on a platform that rejects the upload. *)
Definition rejectedUpload : World :=
  world remoteRejecting (post "instagram" IMAGE Prisma.PENDING 0 [photo]) (account None).

(** A pending reel on its last try whose container never gets ready. *)
Definition stuckReel : World :=
  world remoteProcessing (post "instagram" REEL Prisma.PENDING 2 [clip]) (account None).

(** A pending post on a platform that fails every container. *)
Definition erroredWorld : World :=
  world remoteErrored (post "instagram" IMAGE Prisma.PENDING 0 [photo]) (account None).

(** A pending carousel stored in the order of positions 2, 0, 1. *)
Definition carouselWorld : World :=
  world remoteReady (post "instagram" CAROUSEL Prisma.PENDING 0 slides) (account None).

(** A prepared post that lost its access token. *)
Definition unauthorised : PlatformPost.ScheduledPost :=
  prepared IMAGE [photo] None (Some "17841400000000000").

End Samples.

(** ** Vocabulary of the statements *)

Module Obs.

(** From [w] to [w'] only requests were sent, all of them in [P], and
    time passed: the database, the environment and the platform are as
    before. *)
Definition sentOnly (P : Request -> Prop) (w w' : World) : Prop :=
  remote w' = remote w
  /\ appId w' = appId w /\ appSecret w' = appSecret w
  /\ scheduledPost w' = scheduledPost w
  /\ socialAccount w' = socialAccount w
  /\ jobLog w' = jobLog w
  /\ postUpdates w' = postUpdates w
  /\ now w <= now w'
  /\ exists more, sent w' = (sent w ++ more)%list /\ Forall P more.

(** The same, whatever the requests. *)
Definition remoteOnly : World -> World -> Prop := sentOnly (fun _ => True).

(** A request that is not the submission of a carousel item. *)
Definition notItem (r : Request) : Prop :=
  match r with CreateCarouselItem _ _ _ => False | _ => True end.

(** From [w] to [w'] the posts, the job logs and the platform are as
    before; accounts may have been refreshed. *)
Definition postsKept (w w' : World) : Prop :=
  remote w' = remote w
  /\ scheduledPost w' = scheduledPost w
  /\ jobLog w' = jobLog w
  /\ postUpdates w' = postUpdates w.

(** Every run of [c] relates the world before to the world after by [R]. *)
Definition Keeps {A} (R : World -> World -> Prop) (c : M A) : Prop :=
  forall w, R w (snd (c w)).

(** The requests [c] sends when run in [w]. *)
Definition requestsOf {A} (c : M A) (w : World) : list Request :=
  drop (length (sent w)) (sent (snd (c w))).

(** The status code a reply to a status request shows, if it shows one. *)
Definition observedCode (reply : Reply) : option string :=
  match outcome reply with
  | Resolved d => Some (data_status_code d)
  | Rejected _ => None
  end.

(** No status request for the container is ever answered [FINISHED]. *)
Definition neverFinished (platform : list Request -> Request -> Reply)
    (containerId accessToken : string) : Prop :=
  forall history,
    observedCode (platform history (ContainerStatus containerId accessToken))
    <> Some "FINISHED".

(** Every status request for the container is answered, with a state that
    is neither [FINISHED] nor [ERROR]. *)
Definition stillProcessing (platform : list Request -> Request -> Reply)
    (containerId accessToken : string) : Prop :=
  forall history,
    exists code,
      observedCode (platform history (ContainerStatus containerId accessToken))
      = Some code
      /\ code <> "FINISHED" /\ code <> "ERROR".

(** The world after request [r] was sent and answered. *)
Definition afterRequest (r : Request) (w : World) : World :=
  setSent (sent w ++ [r])
    (setClock (now w + Z.of_N (latency (remote w (sent w) r))) w).

(** The world after one status request for a container. *)
Definition afterStatus (containerId accessToken : string) (w : World) : World :=
  afterRequest (ContainerStatus containerId accessToken) w.

(** The submission of one carousel item. *)
Definition itemRequest (igAccountId accessToken url : string) : Request :=
  CreateCarouselItem igAccountId url accessToken.

(** The image URLs of a carousel post, in the order they are submitted. *)
Definition carouselUrls (post : PlatformPost.ScheduledPost) : list string :=
  map Platform.fileUrl (InstagramAdapter.sortByPosition (PlatformPost.mediaAssets post)).

(** [post.caption || '']. *)
Definition captionOf (post : PlatformPost.ScheduledPost) : string :=
  Js.or_opt_str (PlatformPost.caption post) "".

Definition isItemRequest (r : Request) : bool :=
  match r with CreateCarouselItem _ _ _ => true | _ => false end.

(** The identifiers the platform returns to [requests] sent one after the
    other from [history] on. *)
Fixpoint repliedIds (platform : list Request -> Request -> Reply)
    (history : list Request) (requests : list Request) : list string :=
  match requests with
  | [] => []
  | r :: rest =>
      match outcome (platform history r) with
      | Resolved d => data_id d
      | Rejected _ => ""
      end :: repliedIds platform (history ++ [r]) rest
  end.

(** Every request of [requests], sent in this order from [history] on, is
    answered. *)
Fixpoint allResolve (platform : list Request -> Request -> Reply)
    (history : list Request) (requests : list Request) : bool :=
  match requests with
  | [] => true
  | r :: rest =>
      match outcome (platform history r) with
      | Resolved _ => allResolve platform (history ++ [r]) rest
      | Rejected _ => false
      end
  end.

(** The job logs and post updates written between [w] and [w']. *)
Definition written (w w' : World) (logs : list Prisma.JobLog)
    (updates : list (string * Prisma.PostData)) : Prop :=
  jobLog w' = (jobLog w ++ logs)%list
  /\ postUpdates w' = (postUpdates w ++ updates)%list.

(** The adapter operation the worker calls for a prepared post. *)
Definition dispatch (post : PlatformPost.ScheduledPost) : M Platform.PublishResult :=
  if Platform.PostType_eqb (PlatformPost.postType post) Platform.REEL
  then InstagramAdapter.publishReel post
  else InstagramAdapter.publishPost post.

(** The update after a failure of a post that had the row [p]: one more
    retry counted, [PENDING] below three and [FAILED] from three on. *)
Definition retryData (p : Prisma.ScheduledPost) (msg : string) : Prisma.PostData :=
  {| Prisma.setStatus :=
       Some (if Prisma.retryCount p + 1 <? 3 then Prisma.PENDING else Prisma.FAILED);
     Prisma.setPlatformPostId := None;
     Prisma.setPublishedAt := None;
     Prisma.setErrorMessage := Some (Some msg);
     Prisma.setRetryCount := Some (Prisma.retryCount p + 1) |}.

(** The job log of a thrown fault. *)
Definition errorLog (postId : string) (p : Prisma.ScheduledPost) (e : JsError)
    (elapsed : Z) : Prisma.JobLog :=
  {| Prisma.scheduledPostId := postId;
     Prisma.logStatus := "error";
     Prisma.message := message e;
     Prisma.executionTimeMs := elapsed;
     Prisma.errorDetails :=
       Prisma.DetailsError (message e) (Prisma.retryCount p + 1)
         (Prisma.retryCount p + 1 <? 3) |}.

(** The job log of a failure the adapter reported. *)
Definition failedLog (postId : string) (p : Prisma.ScheduledPost)
    (r : Platform.PublishResult) (elapsed : Z) : Prisma.JobLog :=
  {| Prisma.scheduledPostId := postId;
     Prisma.logStatus := "failed";
     Prisma.message := Js.or_opt_str (Platform.error r) "Publish failed";
     Prisma.executionTimeMs := elapsed;
     Prisma.errorDetails :=
       Prisma.DetailsFailed (Platform.error r) (Platform.errorCode r)
         (Prisma.retryCount p + 1) (Prisma.retryCount p + 1 <? 3) |}.

(** The update and the job log of a success. *)
Definition publishedData (r : Platform.PublishResult) (t : Z) : Prisma.PostData :=
  {| Prisma.setStatus := Some Prisma.PUBLISHED;
     Prisma.setPlatformPostId := Platform.platformPostId r;
     Prisma.setPublishedAt := Some t;
     Prisma.setErrorMessage := Some None;
     Prisma.setRetryCount := None |}.

Definition publishedLog (postId : string) (r : Platform.PublishResult) (elapsed : Z)
    : Prisma.JobLog :=
  {| Prisma.scheduledPostId := postId;
     Prisma.logStatus := "published";
     Prisma.message := "Post published successfully. Platform Post ID: "
                         ++ Js.show_opt (Platform.platformPostId r);
     Prisma.executionTimeMs := elapsed;
     Prisma.errorDetails := Prisma.DetailsPublished (Platform.platformPostUrl r) |}.

(** The world after one update of the post with row [p] and one job log. *)
Definition write (postId : string) (d : Prisma.PostData) (l : Prisma.JobLog)
    (p : Prisma.ScheduledPost) (w : World) : World :=
  setJobLog (jobLog w ++ [l])
    (setPosts (<[postId := Prisma.applyData d p]> (scheduledPost w))
       (postUpdates w ++ [(postId, d)]) w).

(** The order of assets by position, as the comparator sees it. *)
Definition byPosition (a b : Platform.MediaAsset) : Prop :=
  InstagramAdapter.positionKey a <= InstagramAdapter.positionKey b.

(** Between [w] and [w'] exactly one job log, of status [status], and
    exactly one update of the post were written. *)
Definition oneRecord (postId : string) (w w' : World) (status : string) : Prop :=
  exists l d, written w w' [l] [(postId, d)] /\ Prisma.logStatus l = status.

(** The publish-related columns of the post, if it exists. *)
Definition publishState (w : World) (postId : string) :=
  Prisma.publishFields <$> (scheduledPost w !! postId).

End Obs.

(** ** Further operations of the adapter and the factory *)

Module AdapterInfo.

(** [getPlatformName()]. *)
Definition getPlatformName : string := "instagram".

(** [getSupportedPostTypes()]. *)
Definition getSupportedPostTypes : list Platform.PostType :=
  [Platform.IMAGE; Platform.CAROUSEL; Platform.REEL].

(** [PlatformFactory.getSupportedPlatforms()]: the keys of the map. *)
Definition getSupportedPlatforms : list string :=
  fst <$> map_to_list PlatformFactory.adapters.

(** The interface's [PostStatus], without [publishedAt]: the date parsed
    from the [timestamp] of the answer, a property the payload of the
    model does not carry. *)
Record PostStatus := {
  status : string;
  platformPostId : option string;
  platformPostUrl : option string;
  error : option string
}.

(** [getPostStatus(postId, platformPostId, accessToken)]. *)
Definition getPostStatus (postId platformPostId accessToken : string) : M PostStatus :=
  tryCatch
    (let! postInfo := GraphApi.getPostInfo platformPostId accessToken in
     ret {| status := "published";
            platformPostId := Some (data_id postInfo);
            platformPostUrl := Some (data_permalink postInfo);
            error := None |})
    (fun e =>
       ret {| status := "failed";
              platformPostId := None;
              platformPostUrl := None;
              error := Some (message e) |}).

End AdapterInfo.

(** ** Vocabulary of the further statements *)

Module Trace.

(** A request that creates a container. *)
Definition isCreate (r : Request) : Prop :=
  match r with
  | CreateImage _ _ _ _ | CreateCarouselItem _ _ _
  | CreateCarousel _ _ _ _ | CreateReel _ _ _ _ => True
  | _ => False
  end.

(** A request of the token refresh. *)
Definition isRefresh (r : Request) : Prop :=
  match r with
  | ExchangeToken _ _ _ | AccountInfo _ _ => True
  | _ => False
  end.

(** [l] is an initial part of [k]. *)
Definition initial {A} (l k : list A) : Prop := exists rest, k = (l ++ rest)%list.

(** The most polls a wait of [timeout] milliseconds can make: one every
    [pollInterval] from the start on, while the timeout has not elapsed. *)
Definition maxPolls (timeout : Z) : Z :=
  (timeout + InstagramAdapter.pollInterval - 1) / InstagramAdapter.pollInterval.

(** The result of a successful publish. *)
Definition succeeded (r : Platform.PublishResult) (postId url : string) : Prop :=
  r = {| Platform.success := true;
         Platform.platformPostId := Some postId;
         Platform.platformPostUrl := Some url;
         Platform.error := None;
         Platform.errorCode := None |}.

(** The result of a failed publish, as far as the worker reads it. *)
Definition failedWith (r : Platform.PublishResult) (msg : string) : Prop :=
  r = {| Platform.success := false;
         Platform.platformPostId := None;
         Platform.platformPostUrl := None;
         Platform.error := Some msg;
         Platform.errorCode := Some "UNKNOWN" |}.

(** The requests a publish may end with, once its container is ready. *)
Definition publishTail (ig cid tok : string) (tail : list Request) : Prop :=
  tail = [MediaPublish ig cid tok]
  \/ exists pid, tail = [MediaPublish ig cid tok; PostInfo pid tok].

Definition isStatusRequest (r : Request) : bool :=
  match r with ContainerStatus _ _ => true | _ => false end.

(** The credentials the adapter reads from a prepared post. *)
Definition tokenOf (post : PlatformPost.ScheduledPost) : string :=
  default "" (PlatformPost.accessToken post).

Definition accountOf (post : PlatformPost.ScheduledPost) : string :=
  default "" (PlatformPost.igAccountId post).

(** What a run of the protocol did, read off its requests and result. *)
Definition protocolRun (w w' : World) (r : Platform.PublishResult) (ig tok : string)
    (timeout : Z) : Prop :=
  exists (creates : list Request) (cid : string) (n : nat) (tail : list Request),
    sent w' = (sent w ++ creates ++ replicate n (ContainerStatus cid tok) ++ tail)%list
    /\ Forall isCreate creates
    /\ Z.of_nat n <= maxPolls timeout
    /\ (tail = [] \/ publishTail ig cid tok tail)
    /\ (tail <> [] ->
        exists k, n = S k
          /\ Obs.observedCode
               (remote w (sent w ++ creates ++ replicate k (ContainerStatus cid tok))%list
                  (ContainerStatus cid tok))
             = Some "FINISHED")
    /\ ((exists pid url,
            succeeded r pid url /\ tail = [MediaPublish ig cid tok; PostInfo pid tok])
        \/ (exists msg, failedWith r msg)).

(** Every fault [c] throws is a plain [Error], without [response]. *)
Definition Plain {A} (c : M A) : Prop :=
  forall w e w', c w = (Throw e, w') -> response e = None.

(** The columns of a post that no job writes. *)
Definition content (p : Prisma.ScheduledPost) :=
  (Prisma.userId p, Prisma.socialAccountId p, Prisma.platform p, Prisma.postType p,
   Prisma.caption p, Prisma.scheduledAt p, Prisma.mediaAssets p).

(** The account a post publishes with, if the post exists. *)
Definition accountKeyOf (w : World) (postId : string) : option string :=
  Prisma.socialAccountId <$> (scheduledPost w !! postId).

(** From [w] to [w'] only requests of the token refresh were sent, time
    passed, and at most the account [account] was written. *)
Definition refreshOnly (account : option string) (w w' : World) : Prop :=
  remote w' = remote w
  /\ appId w' = appId w /\ appSecret w' = appSecret w
  /\ scheduledPost w' = scheduledPost w
  /\ jobLog w' = jobLog w
  /\ postUpdates w' = postUpdates w
  /\ now w <= now w'
  /\ (exists more, sent w' = (sent w ++ more)%list /\ Forall isRefresh more)
  /\ (forall k, Some k <> account -> socialAccount w' !! k = socialAccount w !! k).

(** What a job for [postId] leaves as it was. *)
Definition jobFrame (postId : string) (w w' : World) : Prop :=
  remote w' = remote w
  /\ appId w' = appId w /\ appSecret w' = appSecret w
  /\ now w <= now w'
  /\ (forall other, other <> postId ->
      scheduledPost w' !! other = scheduledPost w !! other)
  /\ content <$> (scheduledPost w' !! postId) = content <$> (scheduledPost w !! postId)
  /\ (forall k, Some k <> accountKeyOf w postId ->
      socialAccount w' !! k = socialAccount w !! k).

(** The row of an account after a refresh that obtained [token], valid
    until [expiresAt]. *)
Definition refreshedAccount (a : Prisma.SocialAccount) (token : string) (expiresAt : Z)
    : Prisma.SocialAccount :=
  {| Prisma.platformUserId := Prisma.platformUserId a;
     Prisma.accessToken := token;
     Prisma.refreshToken := Prisma.refreshToken a;
     Prisma.tokenExpiresAt := Some expiresAt |}.

(** The lifetime of a refreshed token, in milliseconds. *)
Definition lifetime (d : Payload) : Z := Js.or_opt_num (data_expires_in d) 5184000 * 1000.

(** The application credentials of the environment, when both are set
    and not empty. *)
Definition configured (w : World) : option (string * string) :=
  match appId w, appSecret w with
  | Some i, Some s =>
      if Js.truthy_str i && Js.truthy_str s then Some (i, s) else None
  | _, _ => None
  end.

(** The two requests of a token refresh. *)
Definition exchangeRequest (app : string * string) (token : string) : Request :=
  ExchangeToken (fst app) (snd app) token.

Definition accountRequest (accountId : string) (d : Payload) : Request :=
  AccountInfo accountId (data_access_token d).

(** The token a refresh is asked with: [refreshToken || accessToken]. *)
Definition refreshWith (a : Prisma.SocialAccount) : string :=
  Js.or_opt_str (Prisma.refreshToken a) (Prisma.accessToken a).

(** The first request [c] sends in [w] is [r]. *)
Definition startsWith {A} (r : Request) (c : M A) (w : World) : Prop :=
  exists rest, sent (snd (c w)) = (sent w ++ r :: rest)%list.

(** The retry counter of a post, if the post exists. *)
Definition retryCountOf (w : World) (postId : string) : option Z :=
  Prisma.retryCount <$> (scheduledPost w !! postId).

(** The status of a post, if the post exists. *)
Definition statusOf (w : World) (postId : string) : option Prisma.PostStatus :=
  Prisma.status <$> (scheduledPost w !! postId).

(** A job that ended without counting a failure: it skipped or it
    published. *)
Definition uncounted (c : Completion Worker.JobReturn) : bool :=
  match c with
  | Normal (Worker.Skipped _) | Normal (Worker.Published _ _) => true
  | _ => false
  end.

(** A job that ended by throwing to the queue. *)
Definition thrown {A} (c : Completion A) : bool :=
  match c with Throw _ => true | Normal _ => false end.

(** The world after [n] jobs for the same post, one after the other. *)
Fixpoint afterJobs (n : nat) (postId : string) (w : World) : World :=
  match n with
  | O => w
  | S k => snd (Worker.processJob postId (afterJobs k postId w))
  end.

(** The ways one job can go, with what it returns and the world it
    leaves.  [w1] is the world after the preparation step, [w2] the world
    after the adapter has answered. *)
Inductive JobPath (postId : string) (w : World)
    : Completion Worker.JobReturn * World -> Prop :=
| PathMissing :
    scheduledPost w !! postId = None ->
    JobPath postId w
      (Normal (Worker.Failure (Some "Post not found") None 0), w)
| PathFault (p : Prisma.ScheduledPost) (e : JsError) (w1 : World) :
    scheduledPost w !! postId = Some p ->
    PostsService.preparePostForPublishing postId w = (Throw e, w1) ->
    JobPath postId w
      (if Prisma.retryCount p <? 2 then Throw e
       else Normal (Worker.Failure (Some (message e)) None (now w1 - now w)),
       Obs.write postId (Obs.retryData p (message e))
         (Obs.errorLog postId p e (now w1 - now w)) p w1)
| PathSkip (p : Prisma.ScheduledPost) (post : PlatformPost.ScheduledPost) (w1 : World) :
    scheduledPost w !! postId = Some p ->
    PostsService.preparePostForPublishing postId w = (Normal post, w1) ->
    Prisma.status p <> Prisma.PENDING ->
    JobPath postId w
      (Normal (Worker.Skipped
                 ("Status is " ++ Prisma.show_PostStatus (Prisma.status p))), w1)
| PathUnsupported (p : Prisma.ScheduledPost) (post : PlatformPost.ScheduledPost)
    (w1 : World) :
    scheduledPost w !! postId = Some p ->
    PostsService.preparePostForPublishing postId w = (Normal post, w1) ->
    Prisma.status p = Prisma.PENDING ->
    PlatformFactory.isSupported (Prisma.platform p) = false ->
    JobPath postId w
      (if Prisma.retryCount p <? 2
       then Throw (newError ("Platform adapter not found: " ++ Prisma.platform p))
       else Normal (Worker.Failure
                      (Some ("Platform adapter not found: " ++ Prisma.platform p))
                      None (now w1 - now w)),
       Obs.write postId
         (Obs.retryData p ("Platform adapter not found: " ++ Prisma.platform p))
         (Obs.errorLog postId p
            (newError ("Platform adapter not found: " ++ Prisma.platform p))
            (now w1 - now w)) p w1)
| PathPublished (p : Prisma.ScheduledPost) (post : PlatformPost.ScheduledPost)
    (w1 : World) (r : Platform.PublishResult) (w2 : World) :
    scheduledPost w !! postId = Some p ->
    PostsService.preparePostForPublishing postId w = (Normal post, w1) ->
    Prisma.status p = Prisma.PENDING ->
    PlatformFactory.isSupported (Prisma.platform p) = true ->
    Obs.dispatch post w1 = (Normal r, w2) ->
    Platform.success r = true ->
    JobPath postId w
      (Normal (Worker.Published (Platform.platformPostId r) (now w2 - now w)),
       Obs.write postId (Obs.publishedData r (now w2))
         (Obs.publishedLog postId r (now w2 - now w)) p w2)
| PathFailedLast (p : Prisma.ScheduledPost) (post : PlatformPost.ScheduledPost)
    (w1 : World) (r : Platform.PublishResult) (w2 : World) :
    scheduledPost w !! postId = Some p ->
    PostsService.preparePostForPublishing postId w = (Normal post, w1) ->
    Prisma.status p = Prisma.PENDING ->
    PlatformFactory.isSupported (Prisma.platform p) = true ->
    Obs.dispatch post w1 = (Normal r, w2) ->
    Platform.success r = false ->
    (Prisma.retryCount p + 1 <? 3) = false ->
    JobPath postId w
      (Normal (Worker.Failure (Platform.error r) (Some (Prisma.retryCount p + 1))
                 (now w2 - now w)),
       Obs.write postId
         (Obs.retryData p (Js.or_opt_str (Platform.error r) "Unknown error"))
         (Obs.failedLog postId p r (now w2 - now w)) p w2)
| PathFailedRetry (p : Prisma.ScheduledPost) (post : PlatformPost.ScheduledPost)
    (w1 : World) (r : Platform.PublishResult) (w2 : World) :
    scheduledPost w !! postId = Some p ->
    PostsService.preparePostForPublishing postId w = (Normal post, w1) ->
    Prisma.status p = Prisma.PENDING ->
    PlatformFactory.isSupported (Prisma.platform p) = true ->
    Obs.dispatch post w1 = (Normal r, w2) ->
    Platform.success r = false ->
    (Prisma.retryCount p + 1 <? 3) = true ->
    JobPath postId w
      (let p' := Prisma.applyData
                   (Obs.retryData p (Js.or_opt_str (Platform.error r) "Unknown error"))
                   p in
       let e := newError (Js.or_opt_str (Platform.error r) "Publish failed") in
       (if Prisma.retryCount p' <? 2 then Throw e
        else Normal (Worker.Failure (Some (message e)) None (now w2 - now w)),
        Obs.write postId (Obs.retryData p' (message e))
          (Obs.errorLog postId p' e (now w2 - now w)) p'
          (Obs.write postId
             (Obs.retryData p (Js.or_opt_str (Platform.error r) "Unknown error"))
             (Obs.failedLog postId p r (now w2 - now w)) p w2))).

End Trace.

(** ** The turns of the poll loop *)

Module Turns.

(** The world at the [k]-th test of the loop condition of a wait for
    container [cid] that started in [w], when each of the [k] polls before
    it was answered with a state that lets the loop go on: every such poll
    is followed by the sleep of [pollInterval]. *)
Fixpoint turn (cid tok : string) (k : nat) (w : World) : World :=
  match k with
  | O => w
  | S j =>
      snd (sleep InstagramAdapter.pollInterval
             (Obs.afterStatus cid tok (turn cid tok j w)))
  end.

(** The time the wait has taken at its [k]-th test. *)
Definition elapsed (cid tok : string) (k : nat) (w : World) : Z :=
  now (turn cid tok k w) - now w.

(** The answer to the poll made at turn [k]. *)
Definition replyAt (cid tok : string) (k : nat) (w : World) : Reply :=
  remote (turn cid tok k w) (sent (turn cid tok k w)) (ContainerStatus cid tok).

Definition codeAt (cid tok : string) (k : nat) (w : World) : option string :=
  Obs.observedCode (replyAt cid tok k w).

(** The poll at turn [k] is answered with a state that is neither
    FINISHED nor ERROR. *)
Definition processingAt (cid tok : string) (k : nat) (w : World) : Prop :=
  exists code,
    codeAt cid tok k w = Some code /\ code <> "FINISHED" /\ code <> "ERROR".

(** A wait with [timeout] that starts in [w] makes the poll of turn [k]:
    the polls before it let the loop go on, and the timeout has not
    elapsed at the [k]-th test. *)
Definition polled (cid tok : string) (timeout : Z) (k : nat) (w : World) : Prop :=
  (forall j, (j < k)%nat -> processingAt cid tok j w)
  /\ elapsed cid tok k w < timeout.

(** No poll the wait makes is answered FINISHED. *)
Definition noneFinished (cid tok : string) (timeout : Z) (w : World) : Prop :=
  forall k, polled cid tok timeout k w -> codeAt cid tok k w <> Some "FINISHED".

(** Every poll the wait makes is answered with a state that is neither
    FINISHED nor ERROR. *)
Definition allProcessing (cid tok : string) (timeout : Z) (w : World) : Prop :=
  forall k, polled cid tok timeout k w -> processingAt cid tok k w.

(** The wait gives up at its [n]-th test: the timeout has elapsed there
    and at no test before. *)
Definition givesUpAt (cid tok : string) (timeout : Z) (n : nat) (w : World) : Prop :=
  timeout <= elapsed cid tok n w
  /\ (forall k, (k < n)%nat -> elapsed cid tok k w < timeout).

Definition timeoutFault : JsError := newError "Container processing timeout".

(** The fault of a container whose processing failed with status [d]. *)
Definition failedFault (d : Payload) : JsError :=
  newError ("Container processing failed: "
              ++ Js.or_str (data_status d) "Unknown error").

(** How the answer [reply] to the poll made in [w] ends the loop, when it
    does: a rejected request and the states FINISHED and ERROR end it, with
    the result [r]. *)
Definition endsWith (cid tok : string) (reply : Reply) (w : World)
    (r : Completion unit * World) : Prop :=
  match outcome reply with
  | Rejected e =>
      r = (Throw (newError ("Failed to get container status: "
                              ++ GraphApi.remoteMessage e)),
           Obs.afterStatus cid tok w)
  | Resolved d =>
      (data_status_code d = "FINISHED" /\ r = (Normal tt, Obs.afterStatus cid tok w))
      \/ (data_status_code d = "ERROR"
          /\ r = (Throw (failedFault d), Obs.afterStatus cid tok w))
  end.

End Turns.

(** ** The errors of a carousel, item by item *)

Module CarouselReport.

Definition countMessage : string := "Carousel post must have between 2 and 10 images".

Definition typeMessage (n : nat) : string :=
  "Item " ++ Js.show_nat n ++ " in carousel must be an image".

Definition sizeMessage (n : nat) : string :=
  "Item " ++ Js.show_nat n ++ " in carousel exceeds 8MB limit".

(** What the item at index [i] adds to the errors, in the words of the
    rules: a declared type that is not an image, a declared size above
    8 MiB, each under the number [i + 1]. *)
Definition report (i : nat) (m : Platform.MediaAsset) : list string :=
  (if MediaRules.typeAccepted "image/" m then [] else [typeMessage (i + 1)])
  ++ (if MediaRules.sizeAccepted Validate.MB8 m then [] else [sizeMessage (i + 1)]).

End CarouselReport.

(** ** Further sample worlds *)

Module MoreSamples.

(** A pending post whose account token expired long ago, on a platform
    that answers the refresh. *)
Definition expiredToken : World :=
  Samples.world Samples.remoteReady
    (Samples.post "instagram" Platform.IMAGE Prisma.PENDING 0 [Samples.photo])
    (Samples.account (Some 5)).

(** A failed post on a platform without adapter. *)
Definition givenUp : World :=
  Samples.world Samples.remoteReady
    (Samples.post "youtube" Platform.IMAGE Prisma.FAILED 3 [Samples.photo])
    (Samples.account None).

(** The row of the post of [Samples.rejectedUpload] after one job. *)
Definition countedTwice : Prisma.ScheduledPost :=
  Prisma.applyData
    {| Prisma.setStatus := Some Prisma.PENDING;
       Prisma.setPlatformPostId := None;
       Prisma.setPublishedAt := None;
       Prisma.setErrorMessage :=
         Some (Some "Failed to create image container: Invalid parameter");
       Prisma.setRetryCount := Some 2 |}
    (Samples.post "instagram" Platform.IMAGE Prisma.PENDING 0 [Samples.photo]).

(** A pending carousel on a platform on which containers never leave
    processing. *)
Definition stuckCarousel : World :=
  Samples.world Samples.remoteProcessing
    (Samples.post "instagram" Platform.CAROUSEL Prisma.PENDING 0 Samples.slides)
    (Samples.account None).

(** A platform on which a container is ready from its sixth poll on. *)
Definition remoteLate (history : list Request) (r : Request) : Reply :=
  {| latency := 100;
     outcome :=
       Resolved
         (Samples.payload (Samples.created r)
            (if (5 <=? length (List.filter Trace.isStatusRequest history))%nat
             then "FINISHED" else "IN_PROGRESS")) |}.

(** A pending image post on that platform. *)
Definition lateImage : World :=
  Samples.world remoteLate
    (Samples.post "instagram" Platform.IMAGE Prisma.PENDING 0 [Samples.photo])
    (Samples.account None).

End MoreSamples.

Section ValidateFacts.

Import Platform Validate MediaRules.

Lemma push_if_nil (c : bool) (msg : string) (l : list string) :
  (length (push_if c msg ++ l) =? 0)%nat = negb c && (length l =? 0)%nat.
Proof. destruct c; reflexivity. Qed.

Lemma push_if_last (c : bool) (msg : string) :
  (length (push_if c msg) =? 0)%nat = negb c.
Proof. destruct c; reflexivity. Qed.

Lemma length_zero_nil {A} (l : list A) : (length l =? 0)%nat = true <-> l = [].
Proof. destruct l; simpl; split; intros H; try reflexivity; discriminate. Qed.

Lemma nonempty_none (l : list string) : nonemptyOrUndefined l = None <-> l = [].
Proof. destruct l; simpl; split; intros H; try reflexivity; discriminate. Qed.

Lemma gtb_leb (a b : Z) : negb (a >? b) = (a <=? b).
Proof. rewrite Z.gtb_ltb, Z.leb_antisym. reflexivity. Qed.

Lemma first_size_accepted (m : MediaAsset) (rest : list MediaAsset) (limit : Z) :
  0 <= limit ->
  negb (first_num (m :: rest) fileSize (fun s => s >? limit)) = sizeAccepted limit m.
Proof.
  intros Hl. unfold first_num, sizeAccepted, Js.truthy_num.
  destruct (fileSize m) as [s|]; [|reflexivity].
  destruct (Z.eqb_spec s 0) as [->|Hs]; simpl.
  - symmetry. apply Z.leb_le. exact Hl.
  - apply gtb_leb.
Qed.

Lemma has_size_accepted (m : MediaAsset) (limit : Z) :
  0 <= limit ->
  negb (has_num m fileSize (fun s => s >? limit)) = sizeAccepted limit m.
Proof. intros Hl. apply (first_size_accepted m [] limit Hl). Qed.

Lemma first_type_accepted (m : MediaAsset) (rest : list MediaAsset) (family : string) :
  negb (first_str (m :: rest) fileType (fun t => negb (Js.startsWith t family)))
  = typeAccepted family m.
Proof.
  unfold first_str, typeAccepted.
  destruct (Js.truthy_str (fileType m)), (Js.startsWith (fileType m) family); reflexivity.
Qed.

Lemma item_accepted (m : MediaAsset) (index : nat) :
  (length (carouselItemErrors m index) =? 0)%nat
  = typeAccepted "image/" m && sizeAccepted MB8 m.
Proof.
  unfold carouselItemErrors. rewrite push_if_nil, push_if_last.
  rewrite <- (has_size_accepted m MB8) by (unfold MB8; lia).
  unfold typeAccepted.
  destruct (Js.truthy_str (fileType m)), (Js.startsWith (fileType m) "image/"),
    (has_num m fileSize (fun s => s >? MB8)); reflexivity.
Qed.

Lemma forEach_accepted (media : list MediaAsset) (index : nat) :
  (length (forEachItem media index) =? 0)%nat
  = forallb (fun m => typeAccepted "image/" m && sizeAccepted MB8 m) media.
Proof.
  revert index. induction media as [|m rest IH]; intros index; [reflexivity|].
  cbn [forEachItem forallb]. rewrite <- IH with (index := S index).
  rewrite <- (item_accepted m index).
  rewrite length_app.
  destruct (length (carouselItemErrors m index)), (length (forEachItem rest (S index)));
    reflexivity.
Qed.

Lemma image_valid (media : list MediaAsset) :
  (length (imageErrors media) =? 0)%nat = accepted media IMAGE.
Proof.
  unfold imageErrors. rewrite !push_if_nil, push_if_last.
  destruct media as [|m [|m' rest]]; try reflexivity.
  rewrite first_type_accepted, (first_size_accepted m [] MB8) by (unfold MB8; lia).
  reflexivity.
Qed.

Lemma reel_valid (media : list MediaAsset) :
  (length (reelErrors media) =? 0)%nat = accepted media REEL.
Proof.
  unfold reelErrors. rewrite !push_if_nil, push_if_last.
  destruct media as [|m [|m' rest]]; try reflexivity.
  rewrite first_type_accepted, (first_size_accepted m [] MB100) by (unfold MB100; lia).
  reflexivity.
Qed.

Lemma carousel_valid (media : list MediaAsset) :
  (length (carouselErrors media) =? 0)%nat = accepted media CAROUSEL.
Proof.
  unfold carouselErrors. rewrite push_if_nil, forEach_accepted.
  cbn [accepted]. f_equal.
  rewrite negb_orb.
  destruct (Nat.ltb_spec (length media) 2), (Nat.ltb_spec 10 (length media)),
    (Nat.leb_spec 2 (length media)), (Nat.leb_spec (length media) 10);
    simpl; try reflexivity; lia.
Qed.

Lemma valid_accepted (media : list MediaAsset) (postType : PostType) :
  valid (validateMedia media postType) = accepted media postType.
Proof.
  unfold validateMedia; cbn [valid].
  destruct postType; cbn [collectErrors];
    [apply image_valid | apply carousel_valid | apply reel_valid
    | reflexivity | reflexivity].
Qed.

Lemma errors_without_dimensions (media : list MediaAsset) (postType : PostType) :
  collectErrors (map withoutDimensions media) postType = collectErrors media postType.
Proof.
  assert (Hlen : length (map withoutDimensions media) = length media)
    by apply length_map.
  assert (Hfor : forall index,
             forEachItem (map withoutDimensions media) index = forEachItem media index).
  { induction media as [|m rest IH]; intros index; [reflexivity|].
    cbn [map forEachItem]. rewrite IH by apply length_map. reflexivity. }
  destruct postType; cbn [collectErrors]; try reflexivity.
  - unfold imageErrors. rewrite Hlen. destruct media; reflexivity.
  - unfold carouselErrors. rewrite Hlen, Hfor. reflexivity.
  - unfold reelErrors. rewrite Hlen. destruct media; reflexivity.
Qed.

Lemma list_of_nonempty (l : list string) : default [] (nonemptyOrUndefined l) = l.
Proof. destruct l; reflexivity. Qed.

Lemma errorList_collect (media : list MediaAsset) (postType : PostType) :
  errorList (validateMedia media postType) = collectErrors media postType.
Proof. apply list_of_nonempty. Qed.

Lemma warningList_collect (media : list MediaAsset) (postType : PostType) :
  warningList (validateMedia media postType) = collectWarnings media postType.
Proof. apply list_of_nonempty. Qed.

Lemma first_dimension_off (m : MediaAsset) (rest : list MediaAsset)
    (f : MediaAsset -> option Z) (inRange : Z -> bool) :
  first_num (m :: rest) f (fun v => negb (inRange v)) = dimensionOff inRange (f m).
Proof. unfold first_num, dimensionOff, Js.truthy_num. reflexivity. Qed.

Lemma image_range (v : Z) : (v <? 320) || (v >? 1440) = negb (imageRange v).
Proof.
  unfold imageRange. rewrite negb_andb, Z.gtb_ltb, !Z.leb_antisym, !negb_involutive.
  reflexivity.
Qed.

Lemma not_in_push_if (x msg : string) (c : bool) : x <> msg -> ~ In x (push_if c msg).
Proof. intros Hne H. destruct c; cbn in H; [destruct H as [H|[]]; congruence|exact H]. Qed.

End ValidateFacts.

(** ** The errors of a carousel, item by item *)

Section CarouselFacts.

Import Platform Validate MediaRules CarouselReport.

Lemma chars_app (a b : string) :
  list_ascii_of_string (a ++ b)
  = (list_ascii_of_string a ++ list_ascii_of_string b)%list.
Proof.
  induction a as [|c a IH]; [reflexivity|].
  change (String c a ++ b) with (String c (a ++ b)).
  cbn [list_ascii_of_string app]. f_equal. exact IH.
Qed.

Lemma chars_inj (a b : string) :
  list_ascii_of_string a = list_ascii_of_string b -> a = b.
Proof.
  intros H. rewrite <- (string_of_list_ascii_of_string a),
    <- (string_of_list_ascii_of_string b), H. reflexivity.
Qed.

Lemma append_inv_tail (a b s : string) : a ++ s = b ++ s -> a = b.
Proof.
  intros H. apply chars_inj. apply (f_equal list_ascii_of_string) in H.
  rewrite !chars_app in H. exact (app_inv_tail _ _ _ H).
Qed.

Lemma show_nat_inj (a b : nat) : Js.show_nat a = Js.show_nat b -> a = b.
Proof.
  unfold Js.show_nat. intros H.
  apply (f_equal NilEmpty.uint_of_string) in H. rewrite !NilEmpty.usu in H.
  injection H as H. apply (f_equal Nat.of_uint) in H.
  rewrite !Unsigned.of_to in H. exact H.
Qed.

Lemma typeMessage_inj (a b : nat) : typeMessage a = typeMessage b -> a = b.
Proof.
  unfold typeMessage. intros H.
  apply (f_equal list_ascii_of_string) in H. rewrite !chars_app in H.
  apply app_inv_head, app_inv_tail, chars_inj in H. apply show_nat_inj. exact H.
Qed.

Lemma sizeMessage_inj (a b : nat) : sizeMessage a = sizeMessage b -> a = b.
Proof.
  unfold sizeMessage. intros H.
  apply (f_equal list_ascii_of_string) in H. rewrite !chars_app in H.
  apply app_inv_head, app_inv_tail, chars_inj in H. apply show_nat_inj. exact H.
Qed.

Lemma typeMessage_not_size (a b : nat) : typeMessage a <> sizeMessage b.
Proof.
  unfold typeMessage, sizeMessage. intros H.
  apply (f_equal list_ascii_of_string) in H. rewrite !chars_app in H.
  apply app_inv_head in H.
  change (list_ascii_of_string " in carousel must be an image")
    with (list_ascii_of_string " in carousel must be an imag" ++ ["e"%char])%list in H.
  change (list_ascii_of_string " in carousel exceeds 8MB limit")
    with (list_ascii_of_string " in carousel exceeds 8MB limi" ++ ["t"%char])%list in H.
  rewrite !app_assoc in H. apply app_inj_tail in H. destruct H as [_ H].
  discriminate H.
Qed.

Lemma countMessage_not_item (a : nat) :
  countMessage <> typeMessage a /\ countMessage <> sizeMessage a.
Proof. split; intros H; discriminate H. Qed.

Lemma carouselItemErrors_report (m : MediaAsset) (index : nat) :
  carouselItemErrors m index = report index m.
Proof.
  unfold carouselItemErrors, report, typeMessage, sizeMessage.
  rewrite <- (has_size_accepted m MB8) by (unfold MB8; lia).
  unfold typeAccepted.
  destruct (Js.truthy_str (fileType m)), (Js.startsWith (fileType m) "image/"),
    (has_num m fileSize (fun s => s >? MB8)); reflexivity.
Qed.

Lemma forEachItem_reports (media : list MediaAsset) :
  forall start,
    forEachItem media start = concat (imap (fun i => report (start + i)) media).
Proof.
  induction media as [|m rest IH]; intros start; [reflexivity|].
  cbn [forEachItem]. rewrite imap_cons. cbn [concat].
  rewrite carouselItemErrors_report, Nat.add_0_r, IH. f_equal. f_equal.
  apply imap_ext. intros i x _. cbn. f_equal. lia.
Qed.

Lemma forEachItem_in (msg : string) (media : list MediaAsset) :
  forall start,
    In msg (forEachItem media start) ->
    exists j m, media !! j = Some m /\ In msg (report (start + j) m).
Proof.
  induction media as [|x rest IH]; intros start Hin; [destruct Hin|].
  cbn [forEachItem] in Hin. apply in_app_or in Hin. destruct Hin as [Hin|Hin].
  - exists 0%nat, x. split; [reflexivity|].
    rewrite Nat.add_0_r, <- carouselItemErrors_report. exact Hin.
  - destruct (IH _ Hin) as (j & m & Hm & Hr). exists (S j), m.
    split; [exact Hm|]. replace (start + S j)%nat with (S start + j)%nat by lia.
    exact Hr.
Qed.

Lemma report_in (msg : string) (i : nat) (m : MediaAsset) :
  In msg (report i m) ->
  (typeAccepted "image/" m = false /\ msg = typeMessage (i + 1))
  \/ (sizeAccepted MB8 m = false /\ msg = sizeMessage (i + 1)).
Proof.
  unfold report. intros Hin. apply in_app_or in Hin. destruct Hin as [Hin|Hin].
  - left. destruct (typeAccepted "image/" m); [destruct Hin|].
    destruct Hin as [<-|[]]. split; reflexivity.
  - right. destruct (sizeAccepted MB8 m); [destruct Hin|].
    destruct Hin as [<-|[]]. split; reflexivity.
Qed.

(** An error of a carousel that names an item comes from that item. *)
Lemma carousel_error_origin (media : list MediaAsset) (i : nat) (m : MediaAsset) :
  media !! i = Some m ->
  (In (typeMessage (i + 1)) (errorList (validateMedia media CAROUSEL)) ->
   typeAccepted "image/" m = false)
  /\ (In (sizeMessage (i + 1)) (errorList (validateMedia media CAROUSEL)) ->
      sizeAccepted MB8 m = false).
Proof.
  intros Hm. rewrite errorList_collect. cbn [collectErrors]. unfold carouselErrors.
  split; intros Hin; apply in_app_or in Hin; destruct Hin as [Hin|Hin].
  - exfalso. destruct (_ || _) in Hin; [|destruct Hin].
    destruct Hin as [Hin|[]]. exact (proj1 (countMessage_not_item (i + 1)) Hin).
  - destruct (forEachItem_in _ _ _ Hin) as (j & m' & Hm' & Hr).
    destruct (report_in _ _ _ Hr) as [(Hbad & E)|(_ & E)].
    + apply typeMessage_inj in E. assert (j = i) by lia. subst j.
      rewrite Hm in Hm'. injection Hm' as <-. exact Hbad.
    + exfalso. exact (typeMessage_not_size _ _ E).
  - exfalso. destruct (_ || _) in Hin; [|destruct Hin].
    destruct Hin as [Hin|[]]. exact (proj2 (countMessage_not_item (i + 1)) Hin).
  - destruct (forEachItem_in _ _ _ Hin) as (j & m' & Hm' & Hr).
    destruct (report_in _ _ _ Hr) as [(_ & E)|(Hbad & E)].
    + exfalso. exact (typeMessage_not_size _ _ (eq_sym E)).
    + apply sizeMessage_inj in E. assert (j = i) by lia. subst j.
      rewrite Hm in Hm'. injection Hm' as <-. exact Hbad.
Qed.

End CarouselFacts.

Section ValidateClaims.

Import Platform Validate MediaRules.

(** C6, as stated, fails: a two-asset single-image call whose first asset
    is a video yields two errors, not one. *)
Lemma two_assets_two_errors :
  ~ (forall a b : MediaAsset,
       exists e, errors (validateMedia [a; b] IMAGE) = Some [e]
                 /\ Js.includes e "exactly 1 image" = true).
Proof.
  intros H. destruct (H Samples.clip Samples.photo) as [e [He _]].
  vm_compute in He. discriminate He.
Qed.

(** C6 (amended): validateMedia is a function of its two arguments alone,
    and on a single-image call with exactly two assets the result is
    invalid, its first error is "Image post must have exactly 1 image",
    no later error mentions "exactly 1 image", and that error is the only
    one exactly when the first asset's declared type is empty or an image
    type and its declared size is absent or at most 8 MiB. *)
Theorem validateMedia_two_assets :
  (forall (m1 m2 : list MediaAsset) (t1 t2 : PostType),
      m1 = m2 -> t1 = t2 -> validateMedia m1 t1 = validateMedia m2 t2)
  /\ (forall a b : MediaAsset,
        valid (validateMedia [a; b] IMAGE) = false
        /\ exists rest : list string,
             errors (validateMedia [a; b] IMAGE)
             = Some ("Image post must have exactly 1 image" :: rest)
             /\ Js.includes "Image post must have exactly 1 image" "exactly 1 image" = true
             /\ Forall (fun e => Js.includes e "exactly 1 image" = false) rest
             /\ (rest = [] <-> typeAccepted "image/" a && sizeAccepted MB8 a = true)).
Proof.
  split; [intros m1 m2 t1 t2 -> ->; reflexivity|].
  intros a b. split; [reflexivity|].
  eexists. split; [reflexivity|]. split; [reflexivity|].
  rewrite <- (first_type_accepted a [b]).
  rewrite <- (first_size_accepted a [b] MB8) by (unfold MB8; lia).
  destruct (first_str [a; b] fileType (fun t => negb (Js.startsWith t "image/")));
    destruct (first_num [a; b] fileSize (fun s => s >? MB8)); cbn;
    (split; [repeat constructor | split; intros H; (reflexivity || discriminate H)]).
Qed.

(** C7, as stated, fails: a single asset that declares no mime type is
    reported valid for a single-image post although its type is not an
    image type. *)
Lemma validateMedia_accepts_untyped_image :
  valid (validateMedia [Samples.untyped] IMAGE) = true
  /\ Js.startsWith (fileType Samples.untyped) "image/" = false.
Proof. split; reflexivity. Qed.

(** C7 (amended): the result is valid exactly when it has no errors, and
    valid exactly when the rules of the post kind hold on the metadata
    that is declared: single-image, exactly 1 asset whose type is empty or
    an image type and whose size is absent or at most 8 MiB; carousel, 2
    to 10 assets, each of them so; reel, exactly 1 asset whose type is
    empty or a video type and whose size is absent or at most 100 MiB.
    Pixel dimensions never change the errors; a declared, non-zero width
    or height outside 320..1440 (single-image) or other than 1080 and
    1920 (reel) adds its warning, and nothing else warns. *)
Theorem validateMedia_rules (media : list MediaAsset) (postType : PostType) :
  (valid (validateMedia media postType) = true
     <-> errors (validateMedia media postType) = None)
  /\ valid (validateMedia media postType) = accepted media postType
  /\ errors (validateMedia (map withoutDimensions media) postType)
     = errors (validateMedia media postType)
  /\ warningList (validateMedia media postType)
     = match postType, media with
       | IMAGE, m :: _ =>
           (push_if (dimensionOff imageRange (width m))
              "Image width should be between 320 and 1440 pixels for best quality"
            ++ push_if (dimensionOff imageRange (height m))
              "Image height should be between 320 and 1440 pixels for best quality")%list
       | REEL, m :: _ =>
           (push_if (dimensionOff (Z.eqb 1080) (width m))
              "Reel width should be 1080 pixels for best quality"
            ++ push_if (dimensionOff (Z.eqb 1920) (height m))
              "Reel height should be 1920 pixels (9:16 aspect ratio)")%list
       | _, _ => []
       end.
Proof.
  split; [|split; [|split]].
  - unfold validateMedia; cbn [valid errors].
    rewrite length_zero_nil, nonempty_none. reflexivity.
  - apply valid_accepted.
  - unfold validateMedia; cbn [errors].
    rewrite errors_without_dimensions. reflexivity.
  - rewrite warningList_collect.
    destruct postType, media as [|m rest]; try reflexivity; cbn [collectWarnings].
    + unfold imageWarnings.
      rewrite <- !first_dimension_off with (rest := rest).
      unfold first_num.
      destruct (width m) as [v|], (height m) as [v'|];
        rewrite ?image_range; reflexivity.
    + unfold reelWarnings.
      rewrite <- !first_dimension_off with (rest := rest).
      unfold first_num.
      destruct (width m) as [v|], (height m) as [v'|];
        rewrite 1?(Z.eqb_sym v), 1?(Z.eqb_sym v'); reflexivity.
Qed.

(** C10: the checks apply to declared metadata only.  For the first asset
    of a single-image or reel call, and for any item of a carousel: an
    empty fileType raises no mime-type error and an absent fileSize no size
    error; an absent width or height of the first asset raises no warning
    on that dimension, and a carousel never warns; a call whose assets
    declare neither type nor size gets no error besides the one on the
    number of assets, and a single-image call with one such asset is
    valid.  For a carousel this holds of the result of validateMedia on
    any list, item by item: the errors are the one on the number of items
    followed, in the order of the list, by what each item adds under its
    own number; an item with an empty fileType is not reported as "must
    be an image", an item with an absent fileSize is not reported as
    exceeding 8 MiB, whatever the other items declare. *)
Theorem validateMedia_absent_metadata :
  (forall (m : MediaAsset) (rest : list MediaAsset) (index : nat),
      fileType m = "" ->
      ~ In "Invalid file type for image post. Must be an image."
           (errorList (validateMedia (m :: rest) IMAGE))
      /\ ~ In "Invalid file type for reel. Must be a video."
              (errorList (validateMedia (m :: rest) REEL))
      /\ carouselItemErrors m index
         = push_if (has_num m fileSize (fun s => s >? MB8))
             ("Item " ++ Js.show_nat (index + 1) ++ " in carousel exceeds 8MB limit"))
  /\ (forall (m : MediaAsset) (rest : list MediaAsset) (index : nat),
        fileSize m = None ->
        ~ In "Image file size must be less than 8MB"
             (errorList (validateMedia (m :: rest) IMAGE))
        /\ ~ In "Video file size must be less than 100MB"
                (errorList (validateMedia (m :: rest) REEL))
        /\ carouselItemErrors m index
           = push_if (Js.truthy_str (fileType m)
                      && negb (Js.startsWith (fileType m) "image/"))
               ("Item " ++ Js.show_nat (index + 1) ++ " in carousel must be an image"))
  /\ (forall (m : MediaAsset) (rest : list MediaAsset),
        width m = None ->
        ~ In "Image width should be between 320 and 1440 pixels for best quality"
             (warningList (validateMedia (m :: rest) IMAGE))
        /\ ~ In "Reel width should be 1080 pixels for best quality"
                (warningList (validateMedia (m :: rest) REEL)))
  /\ (forall (m : MediaAsset) (rest : list MediaAsset),
        height m = None ->
        ~ In "Image height should be between 320 and 1440 pixels for best quality"
             (warningList (validateMedia (m :: rest) IMAGE))
        /\ ~ In "Reel height should be 1920 pixels (9:16 aspect ratio)"
                (warningList (validateMedia (m :: rest) REEL)))
  /\ (forall (m : MediaAsset) (rest : list MediaAsset) (postType : PostType),
        width m = None -> height m = None ->
        warnings (validateMedia (m :: rest) postType) = None)
  /\ (forall (media : list MediaAsset) (postType : PostType),
        Forall (fun m => fileType m = "" /\ fileSize m = None) media ->
        errorList (validateMedia media postType)
        = match postType with
          | IMAGE => push_if (negb (length media =? 1)%nat)
                       "Image post must have exactly 1 image"
          | CAROUSEL => push_if ((length media <? 2)%nat || (10 <? length media)%nat)
                          "Carousel post must have between 2 and 10 images"
          | REEL => push_if (negb (length media =? 1)%nat)
                      "Reel must have exactly 1 video"
          | VIDEO | TEXT => []
          end)
  /\ valid (validateMedia [Samples.bare] IMAGE) = true
  /\ (forall (media : list MediaAsset) (i : nat) (m : MediaAsset),
        media !! i = Some m ->
        (fileType m = "" ->
         ~ In ("Item " ++ Js.show_nat (i + 1) ++ " in carousel must be an image")
              (errorList (validateMedia media CAROUSEL)))
        /\ (fileSize m = None ->
            ~ In ("Item " ++ Js.show_nat (i + 1) ++ " in carousel exceeds 8MB limit")
                 (errorList (validateMedia media CAROUSEL))))
  /\ (forall (media : list MediaAsset),
        errorList (validateMedia media CAROUSEL)
        = (push_if ((length media <? 2)%nat || (10 <? length media)%nat)
             "Carousel post must have between 2 and 10 images"
           ++ concat (imap CarouselReport.report media))%list
        /\ warnings (validateMedia media CAROUSEL) = None)
  /\ (forall (i : nat) (m : MediaAsset),
        (fileType m = "" -> typeAccepted "image/" m = true)
        /\ (fileSize m = None -> sizeAccepted MB8 m = true)
        /\ (fileType m = "" -> fileSize m = None -> CarouselReport.report i m = [])).
Proof.
  split; [|split; [|split; [|split; [|split; [|split; [|split; [|split; [|split]]]]]]]].
  - intros m rest index Ht. rewrite !errorList_collect. cbn [collectErrors].
    unfold imageErrors, reelErrors, carouselItemErrors, first_str. rewrite Ht.
    cbn [Js.truthy_str andb push_if app].
    split; [|split; [|reflexivity]].
    + intros H. apply in_app_or in H. destruct H as [H|H].
      * destruct (negb _) in H; cbn in H; [destruct H as [H|[]]; discriminate H|destruct H].
      * destruct (first_num _ _ _) in H; cbn in H;
          [destruct H as [H|[]]; discriminate H|destruct H].
    + intros H. apply in_app_or in H. destruct H as [H|H].
      * destruct (negb _) in H; cbn in H; [destruct H as [H|[]]; discriminate H|destruct H].
      * destruct (first_num _ _ _) in H; cbn in H;
          [destruct H as [H|[]]; discriminate H|destruct H].
  - intros m rest index Hs. rewrite !errorList_collect. cbn [collectErrors].
    unfold imageErrors, reelErrors, carouselItemErrors, first_num, has_num. rewrite Hs.
    cbn [push_if]. rewrite !app_nil_r.
    split; [|split; [|reflexivity]].
    + intros H. apply in_app_or in H. destruct H as [H|H].
      * destruct (negb _) in H; cbn in H; [destruct H as [H|[]]; discriminate H|destruct H].
      * destruct (first_str _ _ _) in H; cbn in H;
          [destruct H as [H|[]]; discriminate H|destruct H].
    + intros H. apply in_app_or in H. destruct H as [H|H].
      * destruct (negb _) in H; cbn in H; [destruct H as [H|[]]; discriminate H|destruct H].
      * destruct (first_str _ _ _) in H; cbn in H;
          [destruct H as [H|[]]; discriminate H|destruct H].
  - intros m rest Hw. rewrite !warningList_collect. cbn [collectWarnings].
    unfold imageWarnings, reelWarnings, first_num. rewrite Hw. cbn [push_if app].
    split; apply not_in_push_if; discriminate.
  - intros m rest Hh. rewrite !warningList_collect. cbn [collectWarnings].
    unfold imageWarnings, reelWarnings, first_num. rewrite Hh. cbn [push_if].
    rewrite !app_nil_r.
    split; apply not_in_push_if; discriminate.
  - intros m rest postType Hw Hh. unfold validateMedia; cbn [warnings].
    destruct postType; cbn [collectWarnings]; try reflexivity;
      unfold imageWarnings, reelWarnings, first_num; rewrite Hw, Hh; reflexivity.
  - intros media postType Hall. rewrite errorList_collect.
    assert (Hfor : forall index, forEachItem media index = []).
    { induction Hall as [|m rest [Ht Hs] _ IH]; intros index; [reflexivity|].
      cbn [forEachItem]. rewrite IH. unfold carouselItemErrors, has_num.
      rewrite Ht, Hs. reflexivity. }
    destruct postType; cbn [collectErrors]; try reflexivity.
    + unfold imageErrors, first_str, first_num.
      destruct Hall as [|m rest [Ht Hs] _]; [reflexivity|].
      rewrite Ht, Hs. cbn [Js.truthy_str andb push_if]. rewrite !app_nil_r. reflexivity.
    + unfold carouselErrors. rewrite Hfor, app_nil_r. reflexivity.
    + unfold reelErrors, first_str, first_num.
      destruct Hall as [|m rest [Ht Hs] _]; [reflexivity|].
      rewrite Ht, Hs. cbn [Js.truthy_str andb push_if]. rewrite !app_nil_r. reflexivity.
  - reflexivity.
  - intros media i m Hm. destruct (carousel_error_origin media i m Hm) as (Ht & Hs).
    split.
    + intros He Hin. apply Ht in Hin. unfold typeAccepted in Hin. rewrite He in Hin.
      discriminate Hin.
    + intros He Hin. apply Hs in Hin. unfold sizeAccepted in Hin. rewrite He in Hin.
      discriminate Hin.
  - intros media. split; [|reflexivity].
    rewrite errorList_collect. cbn [collectErrors]. unfold carouselErrors.
    rewrite (forEachItem_reports media 0). reflexivity.
  - intros i m. split; [|split].
    + intros He. unfold typeAccepted. rewrite He. reflexivity.
    + intros He. unfold sizeAccepted. rewrite He. reflexivity.
    + intros Ht Hs. unfold CarouselReport.report, typeAccepted, sizeAccepted.
      rewrite Ht, Hs. reflexivity.
Qed.

Lemma validateMedia_absent_metadata_bare :
  fileType Samples.bare = "" /\ fileSize Samples.bare = None
  /\ carouselItemErrors Samples.bare 0 = []
  /\ warnings (validateMedia [Samples.bare; Samples.bare] CAROUSEL) = None
  /\ errorList (validateMedia [Samples.bare; Samples.bare] REEL)
     = ["Reel must have exactly 1 video"]
  /\ ~ In "Item 1 in carousel must be an image"
         (errorList (validateMedia [Samples.bare; Samples.clip] CAROUSEL))
  /\ errorList (validateMedia [Samples.bare; Samples.clip] CAROUSEL)
     = ["Item 2 in carousel must be an image"].
Proof.
  destruct validateMedia_absent_metadata
    as (Ht & Hs & _ & _ & Hw & Hall & _ & Hitem & Hlist & _).
  split; [reflexivity|]. split; [reflexivity|]. split; [|split; [|split; [|split]]].
  - destruct (Ht Samples.bare [] 0%nat eq_refl) as (_ & _ & E). rewrite E. reflexivity.
  - apply (Hw Samples.bare [Samples.bare] CAROUSEL); reflexivity.
  - rewrite (Hall [Samples.bare; Samples.bare] REEL); [reflexivity|].
    repeat constructor.
  - exact (proj1 (Hitem [Samples.bare; Samples.clip] 0%nat Samples.bare eq_refl) eq_refl).
  - rewrite (proj1 (Hlist [Samples.bare; Samples.clip])). reflexivity.
Defined.

End ValidateClaims.

(** ** The monad *)

Section MonadFacts.

Lemma bind_normal {A B} (c : M A) (k : A -> M B) (w w1 : World) (r : B) :
  bind c k w = (Normal r, w1) ->
  exists a w0, c w = (Normal a, w0) /\ k a w0 = (Normal r, w1).
Proof.
  unfold bind. destruct (c w) as [[a|e] w0]; [|discriminate].
  intros H. exists a, w0. split; [reflexivity | exact H].
Qed.

Lemma bind_eq_normal {A B} (c : M A) (k : A -> M B) (w w0 : World) (a : A) :
  c w = (Normal a, w0) -> bind c k w = k a w0.
Proof. intros H. unfold bind. rewrite H. reflexivity. Qed.

Lemma bind_eq_throw {A B} (c : M A) (k : A -> M B) (w w0 : World) (e : JsError) :
  c w = (Throw e, w0) -> bind c k w = (Throw e, w0).
Proof. intros H. unfold bind. rewrite H. reflexivity. Qed.

End MonadFacts.

(** ** What the operations leave unchanged *)

Section Keeping.

Import Obs.

Variable R : World -> World -> Prop.
Hypothesis R_refl : forall w, R w w.
Hypothesis R_trans : forall a b c, R a b -> R b c -> R a c.

Lemma keeps_ret {A} (a : A) : Keeps R (ret a).
Proof. intros w. apply R_refl. Qed.

Lemma keeps_throw {A} (e : JsError) : Keeps R (@throw A e).
Proof. intros w. apply R_refl. Qed.

Lemma keeps_dateNow : Keeps R dateNow.
Proof. intros w. apply R_refl. Qed.

Lemma keeps_bind {A B} (c : M A) (k : A -> M B) :
  Keeps R c -> (forall a, Keeps R (k a)) -> Keeps R (bind c k).
Proof.
  intros Hc Hk w. unfold bind. specialize (Hc w).
  destruct (c w) as [[a|e] w1]; cbn in *; [|exact Hc].
  eapply R_trans; [exact Hc | apply Hk].
Qed.

Lemma keeps_tryCatch {A} (c : M A) (h : JsError -> M A) :
  Keeps R c -> (forall e, Keeps R (h e)) -> Keeps R (tryCatch c h).
Proof.
  intros Hc Hh w. unfold tryCatch. specialize (Hc w).
  destruct (c w) as [[a|e] w1]; cbn in *; [exact Hc|].
  eapply R_trans; [exact Hc | apply Hh].
Qed.

Lemma keeps_if {A} (b : bool) (c1 c2 : M A) :
  Keeps R c1 -> Keeps R c2 -> Keeps R (if b then c1 else c2).
Proof. destruct b; auto. Qed.

End Keeping.

Section SentOnly.

Import Obs.

Variable P : Request -> Prop.

Lemma sentOnly_refl (w : World) : sentOnly P w w.
Proof.
  unfold sentOnly. repeat split; try reflexivity; try lia.
  exists []. rewrite app_nil_r. split; [reflexivity | constructor].
Qed.

Lemma sentOnly_trans (a b c : World) :
  sentOnly P a b -> sentOnly P b c -> sentOnly P a c.
Proof.
  unfold sentOnly.
  intros (H1 & H2 & H3 & H4 & H5 & H6 & H7 & H8 & m & Hm & Pm)
         (G1 & G2 & G3 & G4 & G5 & G6 & G7 & G8 & n & Hn & Pn).
  repeat split; try congruence; try lia.
  exists (m ++ n)%list. rewrite Hn, Hm, app_assoc.
  split; [reflexivity | apply Forall_app; split; assumption].
Qed.

Lemma sentOnly_ret {A} (a : A) : Keeps (sentOnly P) (ret a).
Proof. apply keeps_ret, sentOnly_refl. Qed.

Lemma sentOnly_throw {A} (e : JsError) : Keeps (sentOnly P) (@throw A e).
Proof. apply keeps_throw, sentOnly_refl. Qed.

Lemma sentOnly_dateNow : Keeps (sentOnly P) dateNow.
Proof. apply keeps_dateNow, sentOnly_refl. Qed.

Lemma sentOnly_bind {A B} (c : M A) (k : A -> M B) :
  Keeps (sentOnly P) c -> (forall a, Keeps (sentOnly P) (k a)) ->
  Keeps (sentOnly P) (bind c k).
Proof. apply keeps_bind, sentOnly_trans. Qed.

Lemma sentOnly_tryCatch {A} (c : M A) (h : JsError -> M A) :
  Keeps (sentOnly P) c -> (forall e, Keeps (sentOnly P) (h e)) ->
  Keeps (sentOnly P) (tryCatch c h).
Proof. apply keeps_tryCatch, sentOnly_trans. Qed.

Lemma sentOnly_axios (r : Request) : P r -> Keeps (sentOnly P) (axios r).
Proof.
  intros Hr w. unfold axios.
  destruct (outcome (remote w (sent w) r)); cbn;
    (unfold sentOnly; cbn; repeat split; try reflexivity; try lia;
     exists [r]; split; [reflexivity | repeat constructor; exact Hr]).
Qed.

Lemma sentOnly_sleep (ms : Z) : 0 <= ms -> Keeps (sentOnly P) (sleep ms).
Proof.
  intros Hms w. unfold sleep, sentOnly; cbn.
  repeat split; try reflexivity; try lia.
  exists []. rewrite app_nil_r. split; [reflexivity | constructor].
Qed.

End SentOnly.

Section Weakening.

Import Obs.

Lemma postsKept_refl (w : World) : postsKept w w.
Proof. unfold postsKept. repeat split; reflexivity. Qed.

Lemma postsKept_trans (a b c : World) :
  postsKept a b -> postsKept b c -> postsKept a c.
Proof.
  unfold postsKept. intros (H1 & H2 & H3 & H4) (G1 & G2 & G3 & G4).
  repeat split; congruence.
Qed.

Lemma sentOnly_postsKept (P : Request -> Prop) (a b : World) :
  sentOnly P a b -> postsKept a b.
Proof.
  unfold sentOnly, postsKept. intros (H1 & H2 & H3 & H4 & H5 & H6 & H7 & _).
  repeat split; assumption.
Qed.

Lemma sentOnly_remoteOnly (P : Request -> Prop) (a b : World) :
  sentOnly P a b -> remoteOnly a b.
Proof.
  unfold remoteOnly, sentOnly.
  intros (H1 & H2 & H3 & H4 & H5 & H6 & H7 & H8 & m & Hm & _).
  repeat split; try assumption.
  exists m. split; [exact Hm | apply Forall_forall; intros; exact I].
Qed.

Lemma remoteOnly_refl (w : World) : remoteOnly w w.
Proof. apply sentOnly_refl. Qed.

Lemma remoteOnly_trans (a b c : World) :
  remoteOnly a b -> remoteOnly b c -> remoteOnly a c.
Proof. apply sentOnly_trans. Qed.

Lemma remoteOnly_now (a b : World) : remoteOnly a b -> now a <= now b.
Proof. intros H. apply H. Qed.

Lemma remoteOnly_remote (a b : World) : remoteOnly a b -> remote b = remote a.
Proof. intros H. apply H. Qed.

End Weakening.

Ltac keeps_step :=
  first
    [ apply sentOnly_ret
    | apply sentOnly_throw
    | apply sentOnly_dateNow
    | apply sentOnly_axios
    | apply sentOnly_bind; [|intros ?]
    | apply sentOnly_tryCatch; [|intros ?]
    | apply keeps_if ].

Ltac keeps := repeat keeps_step.

Section GraphApiKeeps.

Import Obs GraphApi.

Variable P : Request -> Prop.

Lemma sentOnly_exchangeToken (t a s : string) :
  P (ExchangeToken a s t) -> Keeps (sentOnly P) (exchangeToken t a s).
Proof. intros H. unfold exchangeToken, rethrowAs. keeps. exact H. Qed.

Lemma sentOnly_getAccountInfo (i t : string) :
  P (AccountInfo i t) -> Keeps (sentOnly P) (getAccountInfo i t).
Proof. intros H. unfold getAccountInfo, rethrowAs. keeps. exact H. Qed.

Lemma sentOnly_createImageContainer (i u c t : string) :
  P (CreateImage i u (Js.or_str c "") t) ->
  Keeps (sentOnly P) (createImageContainer i u c t).
Proof. intros H. unfold createImageContainer, rethrowAs. keeps. exact H. Qed.

Lemma sentOnly_createItemContainers (i : string) (urls : list string) (t : string)
    (acc : list string) :
  (forall u, P (CreateCarouselItem i u t)) ->
  Keeps (sentOnly P) (createItemContainers i urls t acc).
Proof.
  intros H. revert acc.
  induction urls as [|u rest IH]; intros acc; cbn [createItemContainers].
  - keeps.
  - keeps; [apply H | apply IH].
Qed.

Lemma sentOnly_createCarouselContainers (i : string) (urls : list string)
    (c t : string) :
  (forall u, P (CreateCarouselItem i u t)) ->
  (forall ch, P (CreateCarousel i ch (Js.or_str c "") t)) ->
  Keeps (sentOnly P) (createCarouselContainers i urls c t).
Proof.
  intros Hi Hc. unfold createCarouselContainers, rethrowAs.
  keeps; [apply sentOnly_createItemContainers; exact Hi | apply Hc].
Qed.

Lemma sentOnly_createReelContainer (i v c k t : string) :
  P (CreateReel i v (Js.or_str c "") t) ->
  Keeps (sentOnly P) (createReelContainer i v c k t).
Proof. intros H. unfold createReelContainer, rethrowAs. keeps. exact H. Qed.

Lemma sentOnly_publishContainer (i c t : string) :
  P (MediaPublish i c t) -> Keeps (sentOnly P) (publishContainer i c t).
Proof. intros H. unfold publishContainer, rethrowAs. keeps. exact H. Qed.

Lemma sentOnly_getContainerStatus (c t : string) :
  P (ContainerStatus c t) -> Keeps (sentOnly P) (getContainerStatus c t).
Proof. intros H. unfold getContainerStatus, rethrowAs. keeps. exact H. Qed.

Lemma sentOnly_getPostInfo (p t : string) :
  P (PostInfo p t) -> Keeps (sentOnly P) (getPostInfo p t).
Proof. intros H. unfold getPostInfo, rethrowAs. keeps. exact H. Qed.

End GraphApiKeeps.

(** ** Container polling *)

Section Polling.

Import Obs InstagramAdapter.

Variables containerId accessToken : string.

Lemma getContainerStatus_eq (w : World) :
  GraphApi.getContainerStatus containerId accessToken w
  = match outcome (remote w (sent w) (ContainerStatus containerId accessToken)) with
    | Resolved d => (Normal d, afterStatus containerId accessToken w)
    | Rejected e =>
        (Throw (newError ("Failed to get container status: "
                            ++ GraphApi.remoteMessage e)), afterStatus containerId accessToken w)
    end.
Proof.
  unfold GraphApi.getContainerStatus, GraphApi.rethrowAs, tryCatch, axios,
    Obs.afterStatus, Obs.afterRequest.
  destruct (outcome _); reflexivity.
Qed.

Lemma afterStatus_remote (w : World) : remote (afterStatus containerId accessToken w) = remote w.
Proof. reflexivity. Qed.

Lemma afterStatus_now (w : World) : now w <= now (afterStatus containerId accessToken w).
Proof. cbn. lia. Qed.

Lemma pollLoop_sentOnly (P : Request -> Prop) (startTime timeout : Z) (fuel : nat) :
  P (ContainerStatus containerId accessToken) ->
  forall w r,
    pollLoop fuel containerId accessToken startTime timeout w = Some r ->
    sentOnly P w (snd r).
Proof.
  intros HP.
  induction fuel as [|fuel IH]; intros w r; cbn [pollLoop];
    destruct (now w - startTime <? timeout); try discriminate;
    try (intros [= <-]; apply sentOnly_refl).
  pose proof (sentOnly_getContainerStatus P containerId accessToken HP w) as Hs.
  destruct (GraphApi.getContainerStatus containerId accessToken w) as [[d|e] w1];
    cbn [snd] in Hs.
  - destruct (String.eqb (data_status_code d) "FINISHED"); [intros [= <-]; exact Hs|].
    destruct (String.eqb (data_status_code d) "ERROR"); [intros [= <-]; exact Hs|].
    intros H. apply IH in H.
    eapply sentOnly_trans; [exact Hs|].
    eapply sentOnly_trans; [|exact H].
    apply (sentOnly_sleep P pollInterval); unfold pollInterval; lia.
  - intros [= <-]. exact Hs.
Qed.

(** The loop never needs more turns than its time budget pays for. *)
Lemma pollLoop_total (startTime timeout : Z) (fuel : nat) :
  forall w,
    timeout - (now w - startTime) <= pollInterval * Z.of_nat fuel ->
    exists r, pollLoop fuel containerId accessToken startTime timeout w = Some r.
Proof.
  induction fuel as [|fuel IH]; intros w Hb; cbn [pollLoop];
    destruct (Z.ltb_spec (now w - startTime) timeout) as [Hlt|Hge];
    try (eexists; reflexivity).
  - unfold pollInterval in Hb. lia.
  - rewrite getContainerStatus_eq.
    destruct (outcome _) as [d|e]; [|eexists; reflexivity].
    destruct (String.eqb (data_status_code d) "FINISHED"); [eexists; reflexivity|].
    destruct (String.eqb (data_status_code d) "ERROR"); [eexists; reflexivity|].
    apply IH. pose proof (afterStatus_now w). cbn in *. unfold pollInterval in *. lia.
Qed.

Lemma pollBound_enough (timeout : Z) :
  timeout <= pollInterval * Z.of_nat (pollBound timeout).
Proof.
  unfold pollBound, pollInterval. rewrite Nat2Z.inj_succ.
  destruct (Z.le_gt_cases 0 timeout) as [Hpos|Hneg].
  - rewrite Z2Nat.id by (apply Z.div_pos; lia).
    pose proof (Z.mod_pos_bound timeout 2000 ltac:(lia)).
    pose proof (Z.div_mod timeout 2000 ltac:(lia)). lia.
  - pose proof (Zle_0_nat (Z.to_nat (timeout / 2000))). lia.
Qed.

(** [waitForContainerReady] always takes the first branch of its
    definition: it returns what the loop returns. *)
Lemma waitForContainerReady_loop (timeout : Z) (w : World) :
  pollLoop (pollBound timeout) containerId accessToken (now w) timeout w
  = Some (waitForContainerReady containerId accessToken timeout w).
Proof.
  unfold waitForContainerReady.
  destruct (pollLoop_total (now w) timeout (pollBound timeout) w) as [r Hr].
  - pose proof (pollBound_enough timeout). lia.
  - rewrite Hr. reflexivity.
Qed.

Lemma sentOnly_waitForContainerReady (P : Request -> Prop) (timeout : Z) :
  P (ContainerStatus containerId accessToken) ->
  Keeps (sentOnly P) (waitForContainerReady containerId accessToken timeout).
Proof.
  intros HP w. eapply pollLoop_sentOnly; [exact HP|]. apply waitForContainerReady_loop.
Qed.

Lemma eqb_false_of_ne (a b : string) : a <> b -> String.eqb a b = false.
Proof. intros H. apply String.eqb_neq. exact H. Qed.

(** Without a [FINISHED] answer the loop ends in a fault. *)
Lemma pollLoop_neverFinished (startTime timeout : Z) (fuel : nat) :
  forall w r,
    neverFinished (remote w) containerId accessToken ->
    pollLoop fuel containerId accessToken startTime timeout w = Some r ->
    exists e, fst r = Throw e.
Proof.
  induction fuel as [|fuel IH]; intros w r Hnf; cbn [pollLoop];
    destruct (now w - startTime <? timeout); try discriminate;
    try (intros [= <-]; eexists; reflexivity).
  rewrite getContainerStatus_eq.
  pose proof (Hnf (sent w)) as Hcode. unfold observedCode in Hcode.
  destruct (outcome _) as [d|e]; [|intros [= <-]; eexists; reflexivity].
  rewrite eqb_false_of_ne by congruence.
  destruct (String.eqb (data_status_code d) "ERROR");
    [intros [= <-]; eexists; reflexivity|].
  apply IH. exact Hnf.
Qed.

(** While the container is processing the loop ends in the timeout
    fault, and not before the timeout has elapsed. *)
Lemma pollLoop_stillProcessing (startTime timeout : Z) (fuel : nat) :
  forall w r,
    stillProcessing (remote w) containerId accessToken ->
    pollLoop fuel containerId accessToken startTime timeout w = Some r ->
    fst r = Throw (newError "Container processing timeout")
    /\ timeout <= now (snd r) - startTime.
Proof.
  induction fuel as [|fuel IH]; intros w r Hsp; cbn [pollLoop];
    destruct (Z.ltb_spec (now w - startTime) timeout) as [Hlt|Hge];
    try discriminate;
    try (intros [= <-]; split; [reflexivity | exact Hge]).
  rewrite getContainerStatus_eq.
  destruct (Hsp (sent w)) as (code & Hcode & Hf & He). unfold observedCode in Hcode.
  destruct (outcome _) as [d|e]; [|discriminate Hcode].
  injection Hcode as ->.
  rewrite !eqb_false_of_ne by assumption.
  apply IH. exact Hsp.
Qed.

(** An [ERROR] answer ends the loop at once, with the platform's status
    text in the fault. *)
Lemma pollLoop_error (startTime timeout : Z) (fuel : nat) (w : World) (d : Payload) :
  now w - startTime < timeout ->
  outcome (remote w (sent w) (ContainerStatus containerId accessToken)) = Resolved d ->
  data_status_code d = "ERROR" ->
  pollLoop (S fuel) containerId accessToken startTime timeout w
  = Some (Throw (newError ("Container processing failed: "
                             ++ Js.or_str (data_status d) "Unknown error")),
          afterStatus containerId accessToken w).
Proof.
  intros Hlt Hd Hc. cbn [pollLoop].
  destruct (Z.ltb_spec (now w - startTime) timeout); [|lia].
  rewrite getContainerStatus_eq, Hd, Hc. reflexivity.
Qed.

End Polling.

(** ** The adapter's publish operations *)

Section Publishing.

Import Obs InstagramAdapter.

Lemma sentOnly_finishPublish (P : Request -> Prop) (ig cid tok : string) (timeout : Z) :
  (forall r, notItem r -> P r) ->
  Keeps (sentOnly P) (finishPublish ig cid tok timeout).
Proof.
  intros HP. unfold finishPublish.
  keeps; first [apply HP; exact I | apply sentOnly_waitForContainerReady, HP; exact I].
Qed.

Lemma remoteOnly_createContainer (post : PlatformPost.ScheduledPost) (ig tok : string) :
  Keeps remoteOnly (createContainer post ig tok).
Proof.
  unfold createContainer.
  destruct (PlatformPost.postType post); try apply sentOnly_throw.
  - destruct (PlatformPost.mediaAssets post) as [|m [|m' rest]];
      try apply sentOnly_throw.
    apply sentOnly_createImageContainer. exact I.
  - keeps; first [exact I | apply sentOnly_createItemContainers; intros; exact I].
Qed.

Lemma remoteOnly_publishPost (post : PlatformPost.ScheduledPost) :
  Keeps remoteOnly (publishPost post).
Proof.
  unfold publishPost.
  keeps; first [ exact I | apply remoteOnly_createContainer
               | apply sentOnly_waitForContainerReady; exact I ].
Qed.

Lemma remoteOnly_publishReel (reel : PlatformPost.ScheduledPost) :
  Keeps remoteOnly (publishReel reel).
Proof.
  unfold publishReel. keeps.
  destruct (PlatformPost.mediaAssets reel) as [|m [|m' rest]];
    try apply sentOnly_throw.
  keeps; first [exact I | apply sentOnly_waitForContainerReady; exact I].
Qed.

(** Both operations return a result in every world; a result that is not
    a success is the one their [catch] block builds. *)
Lemma publishPost_returns (post : PlatformPost.ScheduledPost) (w : World) :
  exists r w',
    publishPost post w = (Normal r, w')
    /\ (Platform.success r = true \/ exists e, r = failureResult e).
Proof.
  unfold publishPost, tryCatch.
  match goal with |- context [match ?body w with _ => _ end] =>
    assert (Hok : forall r w', body w = (Normal r, w') -> Platform.success r = true);
    [|destruct (body w) as [[r|e] w'] eqn:E]
  end.
  - intros r w'. unfold bind.
    destruct (falsy _ || falsy _); [discriminate|].
    destruct (createContainer _ _ _ w) as [[cid|e] w1]; [|discriminate].
    unfold finishPublish, bind.
    destruct (waitForContainerReady _ _ _ w1) as [[[]|e] w2]; [|discriminate].
    destruct (GraphApi.publishContainer _ _ _ w2) as [[p|e] w3]; [|discriminate].
    destruct (GraphApi.getPostInfo _ _ w3) as [[i|e] w4]; [|discriminate].
    intros [= <- _]. reflexivity.
  - exists r, w'. split; [reflexivity|]. left. eapply Hok. reflexivity.
  - eexists _, w'. split; [reflexivity|]. right. eexists. reflexivity.
Qed.

Lemma publishReel_returns (reel : PlatformPost.ScheduledPost) (w : World) :
  exists r w',
    publishReel reel w = (Normal r, w')
    /\ (Platform.success r = true \/ exists e, r = failureResult e).
Proof.
  unfold publishReel, tryCatch.
  match goal with |- context [match ?body w with _ => _ end] =>
    assert (Hok : forall r w', body w = (Normal r, w') -> Platform.success r = true);
    [|destruct (body w) as [[r|e] w'] eqn:E]
  end.
  - intros r w'.
    destruct (falsy _ || falsy _); [discriminate|].
    destruct (PlatformPost.mediaAssets reel) as [|m [|m' rest]]; try discriminate.
    unfold bind.
    destruct (GraphApi.createReelContainer _ _ _ _ _ w) as [[cid|e] w1]; [|discriminate].
    unfold finishPublish, bind.
    destruct (waitForContainerReady _ _ _ w1) as [[[]|e] w2]; [|discriminate].
    destruct (GraphApi.publishContainer _ _ _ w2) as [[p|e] w3]; [|discriminate].
    destruct (GraphApi.getPostInfo _ _ w3) as [[i|e] w4]; [|discriminate].
    intros [= <- _]. reflexivity.
  - exists r, w'. split; [reflexivity|]. left. eapply Hok. reflexivity.
  - eexists _, w'. split; [reflexivity|]. right. eexists. reflexivity.
Qed.

(** Without credentials nothing is sent and the fault comes back as a
    result. *)
Lemma publishPost_missing_credentials (post : PlatformPost.ScheduledPost) (w : World) :
  falsy (PlatformPost.accessToken post) || falsy (PlatformPost.igAccountId post) = true ->
  publishPost post w
  = (Normal (failureResult (newError "Missing access token or Instagram account ID")), w).
Proof. intros H. unfold publishPost, tryCatch. rewrite H. reflexivity. Qed.

Lemma publishReel_missing_credentials (reel : PlatformPost.ScheduledPost) (w : World) :
  falsy (PlatformPost.accessToken reel) || falsy (PlatformPost.igAccountId reel) = true ->
  publishReel reel w
  = (Normal (failureResult (newError "Missing access token or Instagram account ID")), w).
Proof. intros H. unfold publishReel, tryCatch. rewrite H. reflexivity. Qed.

(** The shared tail of both operations, when polling ends in a fault. *)
Lemma finishPublish_wait_throws (ig cid tok : string) (timeout : Z) (w w' : World)
    (e : JsError) :
  waitForContainerReady cid tok timeout w = (Throw e, w') ->
  finishPublish ig cid tok timeout w = (Throw e, w').
Proof. intros H. unfold finishPublish, bind. rewrite H. reflexivity. Qed.

Lemma waitForContainerReady_neverFinished (cid tok : string) (timeout : Z) (w : World) :
  neverFinished (remote w) cid tok ->
  exists e w', waitForContainerReady cid tok timeout w = (Throw e, w').
Proof.
  intros Hnf.
  destruct (pollLoop_neverFinished cid tok (now w) timeout (pollBound timeout) w _ Hnf
              (waitForContainerReady_loop cid tok timeout w)) as [e He].
  destruct (waitForContainerReady cid tok timeout w) as [c w'].
  cbn in He. subst c. eexists _, _. reflexivity.
Qed.

Lemma waitForContainerReady_stillProcessing (cid tok : string) (timeout : Z) (w : World) :
  stillProcessing (remote w) cid tok ->
  exists w',
    waitForContainerReady cid tok timeout w
    = (Throw (newError "Container processing timeout"), w')
    /\ timeout <= now w' - now w.
Proof.
  intros Hsp.
  destruct (pollLoop_stillProcessing cid tok (now w) timeout (pollBound timeout) w _ Hsp
              (waitForContainerReady_loop cid tok timeout w)) as [He Ht].
  destruct (waitForContainerReady cid tok timeout w) as [c w'].
  cbn in He, Ht. subst c. exists w'. split; [reflexivity | exact Ht].
Qed.

Lemma waitForContainerReady_error (cid tok : string) (timeout : Z) (w : World)
    (d : Payload) :
  0 < timeout ->
  outcome (remote w (sent w) (ContainerStatus cid tok)) = Resolved d ->
  data_status_code d = "ERROR" ->
  waitForContainerReady cid tok timeout w
  = (Throw (newError ("Container processing failed: "
                        ++ Js.or_str (data_status d) "Unknown error")),
     afterStatus cid tok w).
Proof.
  intros Ht Hd Hc.
  pose proof (waitForContainerReady_loop cid tok timeout w) as Hloop.
  unfold pollBound in Hloop.
  rewrite (pollLoop_error cid tok (now w) timeout _ w d) in Hloop by (assumption || lia).
  injection Hloop as <-. reflexivity.
Qed.

Lemma neverFinished_transport (w w' : World) (cid tok : string) :
  remoteOnly w w' -> neverFinished (remote w) cid tok -> neverFinished (remote w') cid tok.
Proof. intros (-> & _) H. exact H. Qed.

Lemma publishPost_neverFinished (post : PlatformPost.ScheduledPost) (w : World) :
  (forall cid tok, neverFinished (remote w) cid tok) ->
  exists r w', publishPost post w = (Normal r, w') /\ Platform.success r = false.
Proof.
  intros Hnf. unfold publishPost, tryCatch, bind.
  destruct (falsy _ || falsy _); [eexists _, _; split; reflexivity|].
  pose proof (remoteOnly_createContainer post
                (default "" (PlatformPost.igAccountId post))
                (default "" (PlatformPost.accessToken post)) w) as Hro.
  destruct (createContainer _ _ _ w) as [[cid|e] w1]; cbn [snd] in Hro;
    [|eexists _, _; split; reflexivity].
  destruct (waitForContainerReady_neverFinished cid
              (default "" (PlatformPost.accessToken post)) defaultTimeout w1)
    as (e & w2 & Hw).
  { eapply neverFinished_transport; [exact Hro | apply Hnf]. }
  rewrite (finishPublish_wait_throws _ _ _ _ _ _ _ Hw).
  eexists _, _; split; reflexivity.
Qed.

Lemma publishReel_neverFinished (reel : PlatformPost.ScheduledPost) (w : World) :
  (forall cid tok, neverFinished (remote w) cid tok) ->
  exists r w', publishReel reel w = (Normal r, w') /\ Platform.success r = false.
Proof.
  intros Hnf. unfold publishReel, tryCatch.
  destruct (falsy _ || falsy _); [eexists _, _; split; reflexivity|].
  destruct (PlatformPost.mediaAssets reel) as [|m [|m' rest]];
    try (eexists _, _; split; reflexivity).
  unfold bind.
  pose proof (sentOnly_createReelContainer (fun _ => True)
                (default "" (PlatformPost.igAccountId reel)) (Platform.fileUrl m)
                (Js.or_opt_str (PlatformPost.caption reel) "") (Platform.fileUrl m)
                (default "" (PlatformPost.accessToken reel)) I w) as Hro.
  destruct (GraphApi.createReelContainer _ _ _ _ _ w) as [[cid|e] w1]; cbn [snd] in Hro;
    [|eexists _, _; split; reflexivity].
  destruct (waitForContainerReady_neverFinished cid
              (default "" (PlatformPost.accessToken reel)) 30000 w1)
    as (e & w2 & Hw).
  { eapply neverFinished_transport; [exact Hro | apply Hnf]. }
  rewrite (finishPublish_wait_throws _ _ _ _ _ _ _ Hw).
  eexists _, _; split; reflexivity.
Qed.

End Publishing.

Section PublishingTimeouts.

Import Obs InstagramAdapter.

Lemma createImageContainer_eq (ig url caption tok : string) (w : World) :
  GraphApi.createImageContainer ig url caption tok w
  = match outcome (remote w (sent w) (CreateImage ig url (Js.or_str caption "") tok)) with
    | Resolved d =>
        (Normal (data_id d), afterRequest (CreateImage ig url (Js.or_str caption "") tok) w)
    | Rejected e =>
        (Throw (newError ("Failed to create image container: "
                            ++ GraphApi.remoteMessage e)),
         afterRequest (CreateImage ig url (Js.or_str caption "") tok) w)
    end.
Proof.
  unfold GraphApi.createImageContainer, GraphApi.rethrowAs, tryCatch, bind, axios,
    afterRequest.
  destruct (outcome _); reflexivity.
Qed.

Lemma createReelContainer_eq (ig url caption cover tok : string) (w : World) :
  GraphApi.createReelContainer ig url caption cover tok w
  = match outcome (remote w (sent w) (CreateReel ig url (Js.or_str caption "") tok)) with
    | Resolved d =>
        (Normal (data_id d), afterRequest (CreateReel ig url (Js.or_str caption "") tok) w)
    | Rejected e =>
        (Throw (newError ("Failed to create reel container: "
                            ++ GraphApi.remoteMessage e)),
         afterRequest (CreateReel ig url (Js.or_str caption "") tok) w)
    end.
Proof.
  unfold GraphApi.createReelContainer, GraphApi.rethrowAs, tryCatch, bind, axios,
    afterRequest.
  destruct (outcome _); reflexivity.
Qed.

Lemma afterRequest_now (r : Request) (w : World) : now w <= now (afterRequest r w).
Proof. cbn. lia. Qed.

(** An image post whose container never leaves processing: the result is
    the timeout fault, after at least the default timeout. *)
Lemma publishPost_image_timeout (post : PlatformPost.ScheduledPost) (w : World)
    (ig tok : string) (m : Platform.MediaAsset) (d : Payload) :
  PlatformPost.accessToken post = Some tok -> Js.truthy_str tok = true ->
  PlatformPost.igAccountId post = Some ig -> Js.truthy_str ig = true ->
  PlatformPost.postType post = Platform.IMAGE ->
  PlatformPost.mediaAssets post = [m] ->
  outcome (remote w (sent w)
             (CreateImage ig (Platform.fileUrl m)
                (Js.or_str (Js.or_opt_str (PlatformPost.caption post) "") "") tok))
  = Resolved d ->
  stillProcessing (remote w) (data_id d) tok ->
  exists w',
    publishPost post w
    = (Normal (failureResult (newError "Container processing timeout")), w')
    /\ 10000 <= now w' - now w.
Proof.
  intros Htok Htt Hig Hit Hty Hm Hd Hsp.
  unfold publishPost, tryCatch, bind, createContainer.
  rewrite Htok, Hig, Hty, Hm. cbn [falsy from_option Datatypes.id].
  rewrite Htt, Hit. cbn [negb orb].
  rewrite createImageContainer_eq, Hd.
  set (w1 := afterRequest _ w).
  destruct (waitForContainerReady_stillProcessing (data_id d) tok defaultTimeout w1)
    as (w2 & Hw & Ht); [exact Hsp|].
  rewrite (finishPublish_wait_throws _ _ _ _ _ _ _ Hw).
  exists w2. split; [reflexivity|].
  pose proof (afterRequest_now
                (CreateImage ig (Platform.fileUrl m)
                   (Js.or_str (Js.or_opt_str (PlatformPost.caption post) "") "") tok) w).
  fold w1 in H. unfold defaultTimeout in Ht. lia.
Qed.

(** The same for a reel, with its 30 s timeout. *)
Lemma publishReel_timeout (reel : PlatformPost.ScheduledPost) (w : World)
    (ig tok : string) (m : Platform.MediaAsset) (d : Payload) :
  PlatformPost.accessToken reel = Some tok -> Js.truthy_str tok = true ->
  PlatformPost.igAccountId reel = Some ig -> Js.truthy_str ig = true ->
  PlatformPost.mediaAssets reel = [m] ->
  outcome (remote w (sent w)
             (CreateReel ig (Platform.fileUrl m)
                (Js.or_str (Js.or_opt_str (PlatformPost.caption reel) "") "") tok))
  = Resolved d ->
  stillProcessing (remote w) (data_id d) tok ->
  exists w',
    publishReel reel w
    = (Normal (failureResult (newError "Container processing timeout")), w')
    /\ 30000 <= now w' - now w.
Proof.
  intros Htok Htt Hig Hit Hm Hd Hsp.
  unfold publishReel, tryCatch, bind.
  rewrite Htok, Hig, Hm. cbn [falsy from_option Datatypes.id].
  rewrite Htt, Hit. cbn [negb orb].
  rewrite createReelContainer_eq, Hd.
  set (w1 := afterRequest _ w).
  destruct (waitForContainerReady_stillProcessing (data_id d) tok 30000 w1)
    as (w2 & Hw & Ht); [exact Hsp|].
  rewrite (finishPublish_wait_throws _ _ _ _ _ _ _ Hw).
  exists w2. split; [reflexivity|].
  pose proof (afterRequest_now
                (CreateReel ig (Platform.fileUrl m)
                   (Js.or_str (Js.or_opt_str (PlatformPost.caption reel) "") "") tok) w).
  fold w1 in H. lia.
Qed.

End PublishingTimeouts.

(** ** The order of carousel items *)

Section Sorting.

Import Platform InstagramAdapter Obs.

Lemma insertByPosition_perm (m : MediaAsset) (l : list MediaAsset) :
  Permutation (insertByPosition m l) (m :: l).
Proof.
  induction l as [|x rest IH]; cbn [insertByPosition]; [reflexivity|].
  destruct (positionKey m <=? positionKey x); [reflexivity|].
  rewrite IH. apply perm_swap.
Qed.

Lemma sortByPosition_perm (l : list MediaAsset) : Permutation (sortByPosition l) l.
Proof.
  induction l as [|m rest IH]; cbn [sortByPosition]; [reflexivity|].
  rewrite insertByPosition_perm, IH. reflexivity.
Qed.

Lemma insertByPosition_hd (m x : MediaAsset) (l : list MediaAsset) :
  byPosition x m -> HdRel byPosition x l -> HdRel byPosition x (insertByPosition m l).
Proof.
  intros Hxm Hl. destruct l as [|y rest]; cbn [insertByPosition].
  - constructor. exact Hxm.
  - destruct (positionKey m <=? positionKey y); constructor;
      [exact Hxm | inversion Hl; assumption].
Qed.

Lemma insertByPosition_sorted (m : MediaAsset) (l : list MediaAsset) :
  Sorted byPosition l -> Sorted byPosition (insertByPosition m l).
Proof.
  induction l as [|x rest IH]; intros Hs; cbn [insertByPosition].
  - repeat constructor.
  - destruct (Z.leb_spec (positionKey m) (positionKey x)) as [Hle|Hgt].
    + constructor; [exact Hs | constructor; exact Hle].
    + inversion Hs as [|? ? Hrest Hhd]; subst.
      constructor; [apply IH; exact Hrest|].
      apply insertByPosition_hd; [unfold byPosition; lia | exact Hhd].
Qed.

Lemma sortByPosition_sorted (l : list MediaAsset) :
  StronglySorted byPosition (sortByPosition l).
Proof.
  apply Sorted_StronglySorted; [intros a b c; unfold byPosition; lia|].
  induction l as [|m rest IH]; cbn [sortByPosition]; [constructor|].
  apply insertByPosition_sorted, IH.
Qed.

Lemma insertByPosition_filter (k : Z) (m : MediaAsset) (l : list MediaAsset) :
  List.filter (fun a => positionKey a =? k) (insertByPosition m l)
  = List.filter (fun a => positionKey a =? k) (m :: l).
Proof.
  induction l as [|x rest IH]; cbn [insertByPosition]; [reflexivity|].
  destruct (Z.leb_spec (positionKey m) (positionKey x)) as [Hle|Hgt]; [reflexivity|].
  cbn [List.filter] in *. rewrite IH.
  destruct (Z.eqb_spec (positionKey m) k), (Z.eqb_spec (positionKey x) k);
    try reflexivity; lia.
Qed.

(** The sort is stable: assets with the same position keep their order. *)
Lemma sortByPosition_stable (k : Z) (l : list MediaAsset) :
  List.filter (fun a => positionKey a =? k) (sortByPosition l)
  = List.filter (fun a => positionKey a =? k) l.
Proof.
  induction l as [|m rest IH]; cbn [sortByPosition]; [reflexivity|].
  rewrite insertByPosition_filter. cbn [List.filter]. rewrite IH. reflexivity.
Qed.

End Sorting.

Section CarouselRequests.

Import Obs GraphApi.

Variables igAccountId accessToken : string.

Lemma axios_eq (r : Request) (w : World) :
  axios r w
  = match outcome (remote w (sent w) r) with
    | Resolved d => (Normal d, afterRequest r w)
    | Rejected e => (Throw e, afterRequest r w)
    end.
Proof. reflexivity. Qed.

Lemma createItemContainers_step (url : string) (rest acc : list string) (w : World) :
  createItemContainers igAccountId (url :: rest) accessToken acc w
  = match outcome (remote w (sent w) (itemRequest igAccountId accessToken url)) with
    | Resolved d =>
        createItemContainers igAccountId rest accessToken (acc ++ [data_id d])
          (afterRequest (itemRequest igAccountId accessToken url) w)
    | Rejected e =>
        (Throw e, afterRequest (itemRequest igAccountId accessToken url) w)
    end.
Proof.
  cbn [createItemContainers]. unfold bind. rewrite axios_eq. unfold itemRequest.
  destruct (outcome _); reflexivity.
Qed.

(** The item loop when every item is accepted: all items are sent, in
    the order of the list, and the identifiers come back in that order. *)
Lemma createItemContainers_resolved (urls : list string) :
  forall (acc : list string) (w : World),
    allResolve (remote w) (sent w) (map (itemRequest igAccountId accessToken) urls)
    = true ->
    exists w',
      createItemContainers igAccountId urls accessToken acc w
      = (Normal (acc ++ repliedIds (remote w) (sent w)
                          (map (itemRequest igAccountId accessToken) urls))%list, w')
      /\ sent w' = (sent w ++ map (itemRequest igAccountId accessToken) urls)%list
      /\ remote w' = remote w.
Proof.
  induction urls as [|u rest IH]; intros acc w Hall.
  - exists w. cbn. rewrite !app_nil_r. repeat split; reflexivity.
  - rewrite createItemContainers_step. cbn [map repliedIds allResolve] in *.
    destruct (outcome (remote w (sent w) (itemRequest igAccountId accessToken u)))
      as [d|e]; [|discriminate].
    destruct (IH (acc ++ [data_id d])%list
                (afterRequest (itemRequest igAccountId accessToken u) w))
      as (w' & E & Hs & Hr).
    { exact Hall. }
    exists w'. rewrite E. cbn in Hs, Hr |- *.
    rewrite <- app_assoc in Hs. rewrite <- app_assoc.
    repeat split; assumption.
Qed.

(** The item loop in any world: what is sent is a prefix of the items,
    in the order of the list. *)
Lemma createItemContainers_prefix (urls : list string) :
  forall (acc : list string) (w : World),
    exists n,
      sent (snd (createItemContainers igAccountId urls accessToken acc w))
      = (sent w ++ take n (map (itemRequest igAccountId accessToken) urls))%list.
Proof.
  induction urls as [|u rest IH]; intros acc w.
  - exists 0%nat. cbn. rewrite app_nil_r. reflexivity.
  - rewrite createItemContainers_step.
    destruct (outcome (remote w (sent w) (itemRequest igAccountId accessToken u)))
      as [d|e].
    + destruct (IH (acc ++ [data_id d])%list
                  (afterRequest (itemRequest igAccountId accessToken u) w))
        as (n & Hs).
      exists (S n). rewrite Hs. cbn. rewrite <- app_assoc. reflexivity.
    + exists 1%nat. reflexivity.
Qed.

Lemma createCarouselContainers_resolved (urls : list string) (caption : string)
    (w : World) :
  allResolve (remote w) (sent w) (map (itemRequest igAccountId accessToken) urls)
  = true ->
  sent (snd (createCarouselContainers igAccountId urls caption accessToken w))
  = (sent w ++ map (itemRequest igAccountId accessToken) urls
       ++ [CreateCarousel igAccountId
             (Js.join ","
                (repliedIds (remote w) (sent w)
                   (map (itemRequest igAccountId accessToken) urls)))
             (Js.or_str caption "") accessToken])%list.
Proof.
  intros Hall.
  destruct (createItemContainers_resolved urls [] w Hall) as (w' & E & Hs & Hr).
  unfold createCarouselContainers, rethrowAs, tryCatch, bind.
  rewrite E, axios_eq. cbn [app].
  destruct (outcome _); cbn; rewrite Hs, <- app_assoc; reflexivity.
Qed.

Lemma createCarouselContainers_prefix (urls : list string) (caption : string)
    (w : World) :
  exists n rest,
    sent (snd (createCarouselContainers igAccountId urls caption accessToken w))
    = (sent w ++ take n (map (itemRequest igAccountId accessToken) urls) ++ rest)%list
    /\ Forall notItem rest.
Proof.
  destruct (createItemContainers_prefix urls [] w) as (n & Hs).
  unfold createCarouselContainers, rethrowAs, tryCatch, bind.
  destruct (createItemContainers igAccountId urls accessToken [] w) as [[ids|e] w1];
    cbn [snd] in Hs.
  - rewrite axios_eq.
    exists n, [CreateCarousel igAccountId (Js.join "," ids) (Js.or_str caption "")
                 accessToken].
    split; [|repeat constructor].
    destruct (outcome _); cbn; rewrite Hs, <- app_assoc; reflexivity.
  - exists n, []. cbn. rewrite Hs, app_nil_r. split; [reflexivity | constructor].
Qed.

End CarouselRequests.

Section CarouselPublish.

Import Obs InstagramAdapter.

Variable post : PlatformPost.ScheduledPost.
Variables ig tok : string.
Hypothesis Htype : PlatformPost.postType post = Platform.CAROUSEL.
Hypothesis Htok : PlatformPost.accessToken post = Some tok.
Hypothesis Htok_set : Js.truthy_str tok = true.
Hypothesis Hig : PlatformPost.igAccountId post = Some ig.
Hypothesis Hig_set : Js.truthy_str ig = true.

(** After the containers are created, a carousel publish sends no
    further item. *)
Lemma publishPost_carousel_sent (w : World) :
  exists more,
    sent (snd (publishPost post w))
    = (sent (snd (GraphApi.createCarouselContainers ig (carouselUrls post)
                    (captionOf post) tok w)) ++ more)%list
    /\ Forall notItem more.
Proof.
  unfold publishPost, tryCatch, bind, createContainer.
  rewrite Htok, Hig, Htype. cbn [falsy from_option Datatypes.id].
  rewrite Htok_set, Hig_set. cbn [negb orb].
  unfold bind. fold (carouselUrls post). fold (captionOf post).
  destruct (GraphApi.createCarouselContainers ig (carouselUrls post)
              (captionOf post) tok w) as [[ids|e] w1];
    cbn [snd ret].
  - match goal with |- context [finishPublish ?a ?b ?c ?d w1] =>
      pose proof (sentOnly_finishPublish notItem a b c d (fun r H => H) w1) as Hf;
      destruct (finishPublish a b c d w1) as [[r|e] w2]
    end; cbn [snd] in *;
      destruct Hf as (_ & _ & _ & _ & _ & _ & _ & _ & more & Hs & Hm);
      exists more; split; assumption.
  - exists []. rewrite app_nil_r. split; [reflexivity | constructor].
Qed.

Lemma requestsOf_app {A} (c : M A) (w : World) (l : list Request) :
  sent (snd (c w)) = (sent w ++ l)%list -> requestsOf c w = l.
Proof. intros H. unfold requestsOf. rewrite H. apply drop_app_length. Qed.

Lemma items_of_urls :
  map (itemRequest ig tok) (carouselUrls post)
  = map (fun m => CreateCarouselItem ig (Platform.fileUrl m) tok)
      (sortByPosition (PlatformPost.mediaAssets post)).
Proof. unfold carouselUrls. apply map_map. Qed.

Lemma publishPost_carousel_prefix (w : World) :
  exists n rest,
    requestsOf (publishPost post) w
    = (take n (map (fun m => CreateCarouselItem ig (Platform.fileUrl m) tok)
                 (sortByPosition (PlatformPost.mediaAssets post))) ++ rest)%list
    /\ Forall notItem rest.
Proof.
  destruct (publishPost_carousel_sent w) as (more & Hs & Hm).
  destruct (createCarouselContainers_prefix ig tok (carouselUrls post)
              (captionOf post) w) as (n & rest & Hc & Hr).
  exists n, (rest ++ more)%list. split; [|apply Forall_app; split; assumption].
  apply requestsOf_app. rewrite Hs, Hc, items_of_urls, <- !app_assoc. reflexivity.
Qed.

Lemma publishPost_carousel_resolved (w : World) :
  allResolve (remote w) (sent w)
    (map (fun m => CreateCarouselItem ig (Platform.fileUrl m) tok)
       (sortByPosition (PlatformPost.mediaAssets post))) = true ->
  exists rest,
    requestsOf (publishPost post) w
    = (map (fun m => CreateCarouselItem ig (Platform.fileUrl m) tok)
         (sortByPosition (PlatformPost.mediaAssets post))
       ++ CreateCarousel ig
            (Js.join ","
               (repliedIds (remote w) (sent w)
                  (map (fun m => CreateCarouselItem ig (Platform.fileUrl m) tok)
                     (sortByPosition (PlatformPost.mediaAssets post)))))
            (Js.or_str (captionOf post) "") tok
       :: rest)%list
    /\ Forall notItem rest.
Proof.
  intros Hall. rewrite <- items_of_urls in Hall |- *.
  destruct (publishPost_carousel_sent w) as (more & Hs & Hm).
  pose proof (createCarouselContainers_resolved ig tok (carouselUrls post)
                (captionOf post) w Hall) as Hc.
  exists more. split; [|exact Hm].
  apply requestsOf_app. rewrite Hs, Hc, <- !app_assoc. reflexivity.
Qed.

End CarouselPublish.

(** ** The registry and the preparation step *)

Section Registry.

Import Obs PlatformFactory.

Lemma adapters_lookup (key : string) (a : PlatformAdapter) :
  adapters !! key = Some a -> a = instagramAdapter.
Proof.
  unfold adapters, register. intros H.
  apply lookup_insert_Some in H. destruct H as [[_ H]|[_ H]]; [congruence|].
  rewrite lookup_empty in H. discriminate H.
Qed.

Lemma getAdapter_supported (platformName : string) (w : World) :
  isSupported platformName = true ->
  getAdapter platformName w = (Normal instagramAdapter, w).
Proof.
  unfold isSupported, getAdapter. intros H. apply bool_decide_eq_true in H.
  destruct H as [a Ha]. rewrite Ha. rewrite (adapters_lookup _ _ Ha). reflexivity.
Qed.

Lemma getAdapter_unsupported (platformName : string) (w : World) :
  isSupported platformName = false ->
  getAdapter platformName w
  = (Throw (newError ("Platform adapter not found: " ++ platformName)), w).
Proof.
  unfold isSupported, getAdapter. intros H. apply bool_decide_eq_false in H.
  destruct (adapters !! Js.toLowerCase platformName) as [a|] eqn:E; [|reflexivity].
  exfalso. apply H. eexists. reflexivity.
Qed.

Lemma getAdapter_same_world (platformName : string) (w : World) :
  snd (getAdapter platformName w) = w.
Proof. unfold getAdapter. destruct (adapters !! _); reflexivity. Qed.

Lemma remoteOnly_refreshToken (accountId refreshToken : string) :
  Keeps remoteOnly (InstagramAdapter.refreshToken accountId refreshToken).
Proof.
  unfold InstagramAdapter.refreshToken.
  apply sentOnly_tryCatch; [|intros e; apply sentOnly_throw].
  apply sentOnly_bind.
  - intros w. unfold InstagramAdapter.appCredentials.
    destruct (appId w), (appSecret w); try apply sentOnly_refl.
    destruct (Js.truthy_str _ && Js.truthy_str _); apply sentOnly_refl.
  - intros app. keeps; exact I.
Qed.

End Registry.

Section Preparation.

Import Obs PostsService.

Lemma postsKept_updateAccount (accountId accessToken : string) (expiresAt : option Z) :
  Keeps postsKept (updateAccount accountId accessToken expiresAt).
Proof.
  intros w. unfold updateAccount.
  destruct (socialAccount w !! accountId); cbn; unfold postsKept; cbn;
    repeat split; reflexivity.
Qed.

(** The preparation step reads the post and may refresh the account; it
    writes neither posts nor job logs. *)
Lemma postsKept_prepare (postId : string) :
  Keeps postsKept (preparePostForPublishing postId).
Proof.
  intros w. unfold preparePostForPublishing, bind, findUnique.
  destruct (scheduledPost w !! postId) as [post|]; [|apply postsKept_refl].
  unfold findAccount.
  destruct (socialAccount w !! Prisma.socialAccountId post) as [account|];
    [|apply postsKept_refl].
  cbn [dateNow].
  destruct (expired (Prisma.tokenExpiresAt account) (now w)); [|apply postsKept_refl].
  destruct (PlatformFactory.isSupported (Prisma.platform post)) eqn:Hs.
  - rewrite (getAdapter_supported _ _ Hs). cbn [PlatformFactory.refreshToken
      PlatformFactory.instagramAdapter].
    match goal with |- context [InstagramAdapter.refreshToken ?a ?b w] =>
      pose proof (remoteOnly_refreshToken a b w) as Hr;
      destruct (InstagramAdapter.refreshToken a b w) as [[refreshed|e] w1]
    end; cbn [snd] in Hr; apply sentOnly_postsKept in Hr; [|exact Hr].
    match goal with |- context [updateAccount ?a ?b ?c w1] =>
      pose proof (postsKept_updateAccount a b c w1) as Hu;
      destruct (updateAccount a b c w1) as [[[]|e] w2]
    end; cbn [snd] in Hu |- *; eapply postsKept_trans; eassumption.
  - rewrite (getAdapter_unsupported _ _ Hs). apply postsKept_refl.
Qed.

(** What the prepared post takes over from the row. *)
Lemma prepare_fields (postId : string) (w w1 : World) (p : Prisma.ScheduledPost)
    (post : PlatformPost.ScheduledPost) :
  scheduledPost w !! postId = Some p ->
  preparePostForPublishing postId w = (Normal post, w1) ->
  PlatformPost.platform post = Prisma.platform p
  /\ PlatformPost.postType post = Prisma.postType p
  /\ PlatformPost.mediaAssets post = map toPlatformMedia (Prisma.mediaAssets p).
Proof.
  intros Hp H. unfold preparePostForPublishing in H.
  apply bind_normal in H as (found & w0 & Hf & H).
  injection Hf as <- <-. rewrite Hp in H.
  apply bind_normal in H as (account & w2 & _ & H).
  apply bind_normal in H as (t & w3 & _ & H).
  apply bind_normal in H as (tok & w4 & _ & H).
  injection H as <- _. repeat split; reflexivity.
Qed.

(** With a token that has not expired the preparation step succeeds and
    changes nothing. *)
Lemma prepare_fresh (postId : string) (w : World) (p : Prisma.ScheduledPost)
    (a : Prisma.SocialAccount) :
  scheduledPost w !! postId = Some p ->
  socialAccount w !! Prisma.socialAccountId p = Some a ->
  expired (Prisma.tokenExpiresAt a) (now w) = false ->
  exists post, preparePostForPublishing postId w = (Normal post, w).
Proof.
  intros Hp Ha He. unfold preparePostForPublishing, bind, findUnique, findAccount.
  rewrite Hp, Ha. cbn [dateNow]. rewrite He. eexists. reflexivity.
Qed.

(** With a platform that has no adapter the preparation step sends
    nothing: either it succeeds in place or it throws the registry's
    fault in place. *)
Lemma prepare_unsupported (postId : string) (w : World) (p : Prisma.ScheduledPost)
    (a : Prisma.SocialAccount) :
  scheduledPost w !! postId = Some p ->
  socialAccount w !! Prisma.socialAccountId p = Some a ->
  PlatformFactory.isSupported (Prisma.platform p) = false ->
  (exists post, preparePostForPublishing postId w = (Normal post, w))
  \/ preparePostForPublishing postId w
     = (Throw (newError ("Platform adapter not found: " ++ Prisma.platform p)), w).
Proof.
  intros Hp Ha Hs. unfold preparePostForPublishing, bind, findUnique, findAccount.
  rewrite Hp, Ha. cbn [dateNow].
  destruct (expired (Prisma.tokenExpiresAt a) (now w)).
  - right. rewrite (getAdapter_unsupported _ _ Hs). reflexivity.
  - left. eexists. reflexivity.
Qed.

End Preparation.

(** ** The worker *)

Section WorkerSteps.

Import Obs Worker.

Lemma update_eq (postId : string) (d : Prisma.PostData) (p : Prisma.ScheduledPost)
    (w : World) :
  scheduledPost w !! postId = Some p ->
  update postId d w
  = (Normal tt,
     setPosts (<[postId := Prisma.applyData d p]> (scheduledPost w))
       (postUpdates w ++ [(postId, d)]) w).
Proof. intros H. unfold update. rewrite H. reflexivity. Qed.

Lemma processJob_eq (postId : string) (w : World) :
  processJob postId w
  = tryCatch (attempt postId (now w)) (recover postId (now w)) w.
Proof. reflexivity. Qed.

(** The [catch] block on a post that exists: one update, one job log,
    and a rethrow while the stored counter is below 2. *)
Lemma recover_existing (postId : string) (startTime : Z) (e : JsError) (w : World)
    (p : Prisma.ScheduledPost) :
  scheduledPost w !! postId = Some p ->
  recover postId startTime e w
  = (if Prisma.retryCount p <? 2 then Throw e
     else Normal (Failure (Some (message e)) None (now w - startTime)),
     write postId (retryData p (message e)) (errorLog postId p e (now w - startTime)) p w).
Proof.
  intros Hp. unfold recover, bind, PostsService.findUnique. cbn [dateNow].
  rewrite Hp. rewrite (update_eq _ _ p w Hp). cbn [create].
  destruct (Prisma.retryCount p <? 2); reflexivity.
Qed.

(** The [catch] block on a post that does not exist: nothing is written. *)
Lemma recover_missing (postId : string) (startTime : Z) (e : JsError) (w : World) :
  scheduledPost w !! postId = None ->
  recover postId startTime e w
  = (Normal (Failure (Some (message e)) None (now w - startTime)), w).
Proof.
  intros Hp. unfold recover, bind, PostsService.findUnique. cbn [dateNow].
  rewrite Hp. reflexivity.
Qed.

Variables (postId : string) (startTime : Z) (w : World).

Lemma attempt_prepare_throws (e : JsError) (w1 : World) :
  PostsService.preparePostForPublishing postId w = (Throw e, w1) ->
  attempt postId startTime w = (Throw e, w1).
Proof. intros H. unfold attempt. apply bind_eq_throw. exact H. Qed.

Variables (post : PlatformPost.ScheduledPost) (w1 : World) (p : Prisma.ScheduledPost).
Hypothesis Hprep : PostsService.preparePostForPublishing postId w = (Normal post, w1).
Hypothesis Hrow : scheduledPost w !! postId = Some p.

Lemma prepared_row : scheduledPost w1 !! postId = Some p.
Proof.
  pose proof (postsKept_prepare postId w) as H. rewrite Hprep in H.
  cbn [snd] in H. destruct H as (_ & -> & _). exact Hrow.
Qed.

Lemma attempt_skip :
  Prisma.status p <> Prisma.PENDING ->
  attempt postId startTime w
  = (Normal (Skipped ("Status is " ++ Prisma.show_PostStatus (Prisma.status p))), w1).
Proof.
  intros Hs. unfold attempt. rewrite (bind_eq_normal _ _ _ _ _ Hprep).
  unfold bind, PostsService.findUnique. rewrite prepared_row.
  destruct (Prisma.status p); try reflexivity. congruence.
Qed.

Hypothesis Hpending : Prisma.status p = Prisma.PENDING.

Lemma attempt_unsupported :
  PlatformFactory.isSupported (Prisma.platform p) = false ->
  attempt postId startTime w
  = (Throw (newError ("Platform adapter not found: " ++ Prisma.platform p)), w1).
Proof.
  intros Hs. unfold attempt. rewrite (bind_eq_normal _ _ _ _ _ Hprep).
  unfold bind, PostsService.findUnique. rewrite prepared_row, Hpending.
  cbn [Prisma.PostStatus_eqb negb].
  destruct (prepare_fields _ _ _ _ _ Hrow Hprep) as (-> & _).
  rewrite (getAdapter_unsupported _ _ Hs). reflexivity.
Qed.

Hypothesis Hsupported : PlatformFactory.isSupported (Prisma.platform p) = true.

Variables (r : Platform.PublishResult) (w2 : World).
Hypothesis Hpublish : dispatch post w1 = (Normal r, w2).

Lemma published_row : scheduledPost w2 !! postId = Some p.
Proof.
  assert (H : remoteOnly w1 w2).
  { pose proof (remoteOnly_publishReel post w1) as Hr.
    pose proof (remoteOnly_publishPost post w1) as Hq.
    unfold dispatch in Hpublish.
    destruct (Platform.PostType_eqb _ _); rewrite Hpublish in *; assumption. }
  cbn [snd] in H. destruct H as (_ & _ & _ & -> & _). exact prepared_row.
Qed.

(** The [try] block up to the adapter's result. *)
Lemma attempt_dispatch :
  attempt postId startTime w
  = (if Platform.success r then
       run! update postId (publishedData r (now w2)) in
       run! create (publishedLog postId r (now w2 - startTime)) in
       ret (Published (Platform.platformPostId r) (now w2 - startTime))
     else
       run! update postId
              (retryData p (Js.or_opt_str (Platform.error r) "Unknown error")) in
       run! create (failedLog postId p r (now w2 - startTime)) in
       if Prisma.retryCount p + 1 <? 3 then
         throw (newError (Js.or_opt_str (Platform.error r) "Publish failed"))
       else
         ret (Failure (Platform.error r) (Some (Prisma.retryCount p + 1))
                (now w2 - startTime))) w2.
Proof.
  unfold attempt. rewrite (bind_eq_normal _ _ _ _ _ Hprep).
  unfold bind at 1. unfold PostsService.findUnique. rewrite prepared_row, Hpending.
  cbn [Prisma.PostStatus_eqb negb].
  destruct (prepare_fields _ _ _ _ _ Hrow Hprep) as (Hplat & _).
  unfold bind at 1. rewrite Hplat, (getAdapter_supported _ _ Hsupported).
  cbn [PlatformFactory.publishReel PlatformFactory.publishPost
         PlatformFactory.instagramAdapter].
  fold (dispatch post). unfold bind at 1. rewrite Hpublish.
  unfold bind at 1. cbn [dateNow].
  destruct (Platform.success r); reflexivity.
Qed.

Lemma attempt_published :
  Platform.success r = true ->
  attempt postId startTime w
  = (Normal (Published (Platform.platformPostId r) (now w2 - startTime)),
     write postId (publishedData r (now w2)) (publishedLog postId r (now w2 - startTime))
       p w2).
Proof.
  intros Hs. rewrite attempt_dispatch, Hs. unfold bind.
  rewrite (update_eq _ _ p w2 published_row). reflexivity.
Qed.

Lemma attempt_failed :
  Platform.success r = false ->
  attempt postId startTime w
  = (if Prisma.retryCount p + 1 <? 3
     then Throw (newError (Js.or_opt_str (Platform.error r) "Publish failed"))
     else Normal (Failure (Platform.error r) (Some (Prisma.retryCount p + 1))
                    (now w2 - startTime)),
     write postId (retryData p (Js.or_opt_str (Platform.error r) "Unknown error"))
       (failedLog postId p r (now w2 - startTime)) p w2).
Proof.
  intros Hs. rewrite attempt_dispatch, Hs. unfold bind.
  rewrite (update_eq _ _ p w2 published_row). cbn [create].
  destruct (Prisma.retryCount p + 1 <? 3); reflexivity.
Qed.

End WorkerSteps.

(** ** One execution of a publish job *)

Section Executions.

Import Obs Worker.

Lemma write_written (postId : string) (d : Prisma.PostData) (l : Prisma.JobLog)
    (p : Prisma.ScheduledPost) (w w2 : World) :
  jobLog w2 = jobLog w -> postUpdates w2 = postUpdates w ->
  written w (write postId d l p w2) [l] [(postId, d)].
Proof. intros Hj Hu. unfold written, write. cbn. rewrite Hj, Hu. split; reflexivity. Qed.

Lemma write_state (postId : string) (d : Prisma.PostData) (l : Prisma.JobLog)
    (p : Prisma.ScheduledPost) (w : World) :
  publishState (write postId d l p w) postId
  = Some (Prisma.publishFields (Prisma.applyData d p)).
Proof. unfold publishState, write. cbn. rewrite lookup_insert_eq. reflexivity. Qed.

Lemma write_row (postId : string) (d : Prisma.PostData) (l : Prisma.JobLog)
    (p : Prisma.ScheduledPost) (w : World) :
  scheduledPost (write postId d l p w) !! postId = Some (Prisma.applyData d p).
Proof. unfold write. cbn. apply lookup_insert_eq. Qed.

Lemma write_sent (postId : string) (d : Prisma.PostData) (l : Prisma.JobLog)
    (p : Prisma.ScheduledPost) (w : World) :
  sent (write postId d l p w) = sent w /\ now (write postId d l p w) = now w.
Proof. split; reflexivity. Qed.

Variables (postId : string) (w : World) (p : Prisma.ScheduledPost).
Hypothesis Hrow : scheduledPost w !! postId = Some p.

(** A fault of the preparation step: the [catch] block writes, whatever
    the status of the post. *)
Lemma processJob_prepare_throws (e : JsError) (w1 : World) :
  PostsService.preparePostForPublishing postId w = (Throw e, w1) ->
  processJob postId w
  = (if Prisma.retryCount p <? 2 then Throw e
     else Normal (Failure (Some (message e)) None (now w1 - now w)),
     write postId (retryData p (message e)) (errorLog postId p e (now w1 - now w)) p w1).
Proof.
  intros Hprep. rewrite processJob_eq. unfold tryCatch.
  rewrite (attempt_prepare_throws _ _ _ _ _ Hprep).
  apply recover_existing.
  pose proof (postsKept_prepare postId w) as H. rewrite Hprep in H.
  cbn [snd] in H. destruct H as (_ & -> & _). exact Hrow.
Qed.

Variables (post : PlatformPost.ScheduledPost) (w1 : World).
Hypothesis Hprep : PostsService.preparePostForPublishing postId w = (Normal post, w1).

Lemma processJob_skip :
  Prisma.status p <> Prisma.PENDING ->
  processJob postId w
  = (Normal (Skipped ("Status is " ++ Prisma.show_PostStatus (Prisma.status p))), w1).
Proof.
  intros Hs. rewrite processJob_eq. unfold tryCatch.
  rewrite (attempt_skip _ _ _ _ _ _ Hprep Hrow Hs). reflexivity.
Qed.

Hypothesis Hpending : Prisma.status p = Prisma.PENDING.

Lemma processJob_unsupported :
  PlatformFactory.isSupported (Prisma.platform p) = false ->
  processJob postId w
  = (if Prisma.retryCount p <? 2
     then Throw (newError ("Platform adapter not found: " ++ Prisma.platform p))
     else Normal (Failure (Some ("Platform adapter not found: " ++ Prisma.platform p))
                    None (now w1 - now w)),
     write postId (retryData p ("Platform adapter not found: " ++ Prisma.platform p))
       (errorLog postId p
          (newError ("Platform adapter not found: " ++ Prisma.platform p))
          (now w1 - now w)) p w1).
Proof.
  intros Hs. rewrite processJob_eq. unfold tryCatch.
  rewrite (attempt_unsupported _ _ _ _ _ _ Hprep Hrow Hpending Hs).
  apply recover_existing. apply (prepared_row _ _ _ _ _ Hprep Hrow).
Qed.

Hypothesis Hsupported : PlatformFactory.isSupported (Prisma.platform p) = true.
Variables (r : Platform.PublishResult) (w2 : World).
Hypothesis Hpublish : dispatch post w1 = (Normal r, w2).

Lemma processJob_published :
  Platform.success r = true ->
  processJob postId w
  = (Normal (Published (Platform.platformPostId r) (now w2 - now w)),
     write postId (publishedData r (now w2)) (publishedLog postId r (now w2 - now w))
       p w2).
Proof.
  intros Hs. rewrite processJob_eq. unfold tryCatch.
  rewrite (attempt_published _ _ _ _ _ _ Hprep Hrow Hpending Hsupported _ _ Hpublish Hs).
  reflexivity.
Qed.

Lemma processJob_failed_last :
  Platform.success r = false ->
  (Prisma.retryCount p + 1 <? 3) = false ->
  processJob postId w
  = (Normal (Failure (Platform.error r) (Some (Prisma.retryCount p + 1))
               (now w2 - now w)),
     write postId (retryData p (Js.or_opt_str (Platform.error r) "Unknown error"))
       (failedLog postId p r (now w2 - now w)) p w2).
Proof.
  intros Hs Hn. rewrite processJob_eq. unfold tryCatch.
  rewrite (attempt_failed _ _ _ _ _ _ Hprep Hrow Hpending Hsupported _ _ Hpublish Hs).
  rewrite Hn. reflexivity.
Qed.

(** A failure the adapter reports while retries remain: the [throw] of
    the [try] block lands in the job's own [catch] block, which counts
    and logs the same failure once more. *)
Lemma processJob_failed_retry :
  Platform.success r = false ->
  (Prisma.retryCount p + 1 <? 3) = true ->
  let msg := Js.or_opt_str (Platform.error r) "Unknown error" in
  let e := newError (Js.or_opt_str (Platform.error r) "Publish failed") in
  let p' := Prisma.applyData (retryData p msg) p in
  let wa := write postId (retryData p msg) (failedLog postId p r (now w2 - now w)) p w2 in
  processJob postId w
  = (if Prisma.retryCount p' <? 2 then Throw e
     else Normal (Failure (Some (message e)) None (now w2 - now w)),
     write postId (retryData p' (message e)) (errorLog postId p' e (now w2 - now w)) p' wa).
Proof.
  intros Hs Hn msg e p' wa. rewrite processJob_eq. unfold tryCatch.
  rewrite (attempt_failed _ _ _ _ _ _ Hprep Hrow Hpending Hsupported _ _ Hpublish Hs).
  rewrite Hn.
  rewrite (recover_existing postId (now w) e _ p' (write_row _ _ _ _ _)).
  reflexivity.
Qed.

Lemma dispatch_frame : remoteOnly w1 w2.
Proof.
  pose proof (remoteOnly_publishReel post w1) as Hr.
  pose proof (remoteOnly_publishPost post w1) as Hq.
  unfold dispatch in Hpublish.
  destruct (Platform.PostType_eqb _ _); rewrite Hpublish in *; assumption.
Qed.

End Executions.

(** ** Skipping, faults and records of the worker *)

Section WorkerClaims.

Import Obs Worker.



(** C1 (the code at the failing input): a cancelled post whose account
    token has expired, on a platform that rejects the refresh.  The
    preparation step throws before the status gate is reached, and the
    job's catch block rewrites the post: it is pending again, with one
    retry counted and the fault as its error message, and the fault is
    rethrown to the queue. *)
Theorem cancelled_post_rewritten_on_refresh_fault :
  publishState Samples.cancelledExpired "post-1"
  = Some (Prisma.CANCELLED, 0, None, None, None)
  /\ fst (processJob "post-1" Samples.cancelledExpired)
     = Throw (newError
                "Failed to refresh token: Failed to exchange token: Invalid parameter")
  /\ publishState (snd (processJob "post-1" Samples.cancelledExpired)) "post-1"
     = Some (Prisma.PENDING, 1,
             Some "Failed to refresh token: Failed to exchange token: Invalid parameter",
             None, None)
  /\ length (jobLog (snd (processJob "post-1" Samples.cancelledExpired))) = 1%nat.
Proof. vm_compute. repeat split; reflexivity. Qed.

(** C2, as stated, fails: on the first job of a pending post whose
    platform has no adapter the post stays pending, with one retry
    counted, and the fault is rethrown to the queue. *)
Lemma unknown_platform_first_job_stays_pending :
  PlatformFactory.isSupported "youtube" = false
  /\ publishState Samples.unknownPlatform "post-1"
     = Some (Prisma.PENDING, 0, None, None, None)
  /\ publishState (snd (processJob "post-1" Samples.unknownPlatform)) "post-1"
     = Some (Prisma.PENDING, 1, Some "Platform adapter not found: youtube", None, None)
  /\ fst (processJob "post-1" Samples.unknownPlatform)
     = Throw (newError "Platform adapter not found: youtube").
Proof. vm_compute. repeat split; reflexivity. Qed.

(** C2 (amended): a job for a pending post whose platform has no
    registered adapter fails like any other thrown fault.  No request is
    sent; the retry counter goes up by one; the message "Platform adapter
    not found: <platform>" is stored; one job log of status "error" is
    written; the post stays pending and the fault is rethrown to the queue
    while the new counter is below 3, and the post becomes failed, with a
    normal return, once the new counter reaches 3. *)
Theorem unknown_platform_counts_as_retry (postId : string) (w : World)
    (p : Prisma.ScheduledPost) (a : Prisma.SocialAccount) :
  scheduledPost w !! postId = Some p ->
  Prisma.status p = Prisma.PENDING ->
  socialAccount w !! Prisma.socialAccountId p = Some a ->
  PlatformFactory.isSupported (Prisma.platform p) = false ->
  fst (processJob postId w)
  = (if Prisma.retryCount p + 1 <? 3
     then Throw (newError ("Platform adapter not found: " ++ Prisma.platform p))
     else Normal (Failure (Some ("Platform adapter not found: " ++ Prisma.platform p))
                    None 0))
  /\ publishState (snd (processJob postId w)) postId
     = Some (if Prisma.retryCount p + 1 <? 3 then Prisma.PENDING else Prisma.FAILED,
             Prisma.retryCount p + 1,
             Some ("Platform adapter not found: " ++ Prisma.platform p),
             Prisma.platformPostId p, Prisma.publishedAt p)
  /\ sent (snd (processJob postId w)) = sent w
  /\ oneRecord postId w (snd (processJob postId w)) "error".
Proof.
  intros Hrow Hpending Hacc Hs.
  assert (Hlt : (Prisma.retryCount p <? 2) = (Prisma.retryCount p + 1 <? 3)).
  { destruct (Z.ltb_spec (Prisma.retryCount p) 2),
      (Z.ltb_spec (Prisma.retryCount p + 1) 3); try reflexivity; lia. }
  destruct (prepare_unsupported postId w p a Hrow Hacc Hs)
    as [[post Hprep]|Hprep].
  - rewrite (processJob_unsupported _ _ _ Hrow _ _ Hprep Hpending Hs).
    cbn [fst snd]. rewrite write_state, Z.sub_diag, Hlt.
    repeat split; try reflexivity.
    eexists _, _. split; [apply write_written; reflexivity | reflexivity].
  - rewrite (processJob_prepare_throws _ _ _ Hrow _ _ Hprep).
    cbn [fst snd]. rewrite write_state, Z.sub_diag, Hlt.
    repeat split; try reflexivity.
    eexists _, _. split; [apply write_written; reflexivity | reflexivity].
Qed.

Lemma unknown_platform_counts_as_retry_sample :
  publishState (snd (processJob "post-1" Samples.unknownPlatform)) "post-1"
  = Some (Prisma.PENDING, 1, Some "Platform adapter not found: youtube", None, None)
  /\ sent (snd (processJob "post-1" Samples.unknownPlatform)) = [].
Proof.
  destruct (unknown_platform_counts_as_retry "post-1" Samples.unknownPlatform
              (Samples.post "youtube" Platform.IMAGE Prisma.PENDING 0 [Samples.photo])
              (Samples.account None))
    as (_ & Hstate & Hsent & _); try reflexivity.
  split; [exact Hstate | exact Hsent].
Defined.




(** A failure the adapter reports while retries remain is counted twice
    by one job: the retry counter goes up by two and two job logs are
    written. *)
Lemma reported_failure_adds_two (postId : string) (w w1 w2 : World)
    (p : Prisma.ScheduledPost) (post : PlatformPost.ScheduledPost)
    (r : Platform.PublishResult) :
  scheduledPost w !! postId = Some p ->
  PostsService.preparePostForPublishing postId w = (Normal post, w1) ->
  Prisma.status p = Prisma.PENDING ->
  PlatformFactory.isSupported (Prisma.platform p) = true ->
  dispatch post w1 = (Normal r, w2) ->
  Platform.success r = false ->
  (Prisma.retryCount p + 1 <? 3) = true ->
  publishState (snd (processJob postId w)) postId
  = Some (if Prisma.retryCount p + 1 + 1 <? 3 then Prisma.PENDING else Prisma.FAILED,
          Prisma.retryCount p + 1 + 1,
          Some (Js.or_opt_str (Platform.error r) "Publish failed"),
          Prisma.platformPostId p, Prisma.publishedAt p)
  /\ exists l1 l2 d1 d2,
       written w (snd (processJob postId w)) [l1; l2] [(postId, d1); (postId, d2)]
       /\ Prisma.logStatus l1 = "failed" /\ Prisma.logStatus l2 = "error".
Proof.
  intros Hrow Hprep Hpending Hs Hpub Hko Hmore.
  pose proof (processJob_failed_retry _ _ _ Hrow _ _ Hprep Hpending Hs _ _ Hpub Hko Hmore)
    as E.
  cbv zeta in E. rewrite E. cbn [snd]. rewrite write_state. split; [reflexivity|].
  pose proof (postsKept_prepare postId w) as H. rewrite Hprep in H. cbn [snd] in H.
  destruct H as (_ & _ & Hj & Hu).
  destruct (dispatch_frame _ _ _ _ Hpub) as (_ & _ & _ & _ & _ & Hj2 & Hu2 & _).
  eexists _, _, _, _. split.
  - unfold written, write. cbn. rewrite Hj2, Hj, Hu2, Hu, <- !app_assoc.
    split; reflexivity.
  - split; reflexivity.
Qed.

(** C5 (the code at the failing input): a pending post that was never
    tried, on a platform that rejects the upload.  The adapter reports the
    failure; the worker counts it, logs it and throws to ask for a retry;
    its own catch block takes that throw for a new fault and counts and
    logs it again.  After this one job the retry counter is 2 and two job
    logs are written. *)
Theorem reported_failure_counted_twice :
  publishState Samples.rejectedUpload "post-1"
  = Some (Prisma.PENDING, 0, None, None, None)
  /\ publishState (snd (processJob "post-1" Samples.rejectedUpload)) "post-1"
     = Some (Prisma.PENDING, 2,
             Some "Failed to create image container: Invalid parameter", None, None)
  /\ map Prisma.logStatus (jobLog (snd (processJob "post-1" Samples.rejectedUpload)))
     = ["failed"; "error"]
  /\ fst (processJob "post-1" Samples.rejectedUpload)
     = Throw (newError "Failed to create image container: Invalid parameter")
  /\ Scheduler.schedulePost 1700000060000 1700000000000
     = {| Scheduler.delay := Some 60000; Scheduler.attempts := 3;
          Scheduler.backoff := Scheduler.Exponential 5000 |}.
Proof. vm_compute. repeat split; reflexivity. Qed.

End WorkerClaims.

(** ** The adapter's results, polling and carousel order *)

Section AdapterClaims.

Import Obs InstagramAdapter.

(** C4, as stated, fails: without an access token [publishPost] does not
    throw; the fault comes back as a failure result, like any other. *)
Lemma missing_credential_is_returned :
  publishPost Samples.unauthorised Samples.quiet
  = (Normal {| Platform.success := false;
               Platform.platformPostId := None;
               Platform.platformPostUrl := None;
               Platform.error := Some "Missing access token or Instagram account ID";
               Platform.errorCode := Some "UNKNOWN" |},
     Samples.quiet)
  /\ ~ (exists e w', publishPost Samples.unauthorised Samples.quiet = (Throw e, w')).
Proof.
  split; [reflexivity|]. intros (e & w' & H). vm_compute in H. discriminate H.
Qed.

(** C4 (amended): publishPost and publishReel never throw.  In every
    world they return a result; a result that is not a success is
    [{success: false, error, errorCode}] built from the fault, with both
    texts present; and a missing access token or account identifier is such
    a fault too: it is returned, with nothing sent. *)
Theorem publish_never_throws (post : PlatformPost.ScheduledPost) (w : World) :
  (exists r w',
      publishPost post w = (Normal r, w')
      /\ (Platform.success r = true \/ exists e, r = failureResult e))
  /\ (exists r w',
        publishReel post w = (Normal r, w')
        /\ (Platform.success r = true \/ exists e, r = failureResult e))
  /\ (forall e,
        Platform.success (failureResult e) = false
        /\ Platform.error (failureResult e) = Some (message e)
        /\ exists code, Platform.errorCode (failureResult e) = Some code)
  /\ (falsy (PlatformPost.accessToken post) || falsy (PlatformPost.igAccountId post)
      = true ->
      publishPost post w
      = (Normal (failureResult (newError "Missing access token or Instagram account ID")),
         w)
      /\ publishReel post w
         = (Normal (failureResult
                      (newError "Missing access token or Instagram account ID")), w)).
Proof.
  split; [apply publishPost_returns|].
  split; [apply publishReel_returns|].
  split.
  - intros e. repeat split. eexists. reflexivity.
  - intros H. split;
      [apply publishPost_missing_credentials | apply publishReel_missing_credentials];
      exact H.
Qed.

Lemma publish_never_throws_sample :
  publishReel Samples.unauthorised Samples.quiet
  = (Normal (failureResult (newError "Missing access token or Instagram account ID")),
     Samples.quiet).
Proof.
  destruct (publish_never_throws Samples.unauthorised Samples.quiet) as (_ & _ & _ & H).
  apply H. reflexivity.
Defined.

(** C9: carousel order.  For a carousel post with credentials the items
    are taken in ascending order of position (the stable sort of the
    assets by [position || 0]: a sorted permutation in which equal
    positions keep their order).  Whatever the platform answers, the item
    submissions come first and follow that order, and nothing sent after
    them submits an item; when every item is accepted, all of them are
    submitted, in that order, and the next request creates the parent
    container with the returned identifiers joined in the same order. *)
Theorem carousel_position_order (post : PlatformPost.ScheduledPost) (w : World)
    (ig tok : string) :
  PlatformPost.postType post = Platform.CAROUSEL ->
  PlatformPost.accessToken post = Some tok -> Js.truthy_str tok = true ->
  PlatformPost.igAccountId post = Some ig -> Js.truthy_str ig = true ->
  let sorted := sortByPosition (PlatformPost.mediaAssets post) in
  let items := map (fun m => CreateCarouselItem ig (Platform.fileUrl m) tok) sorted in
  Permutation sorted (PlatformPost.mediaAssets post)
  /\ StronglySorted byPosition sorted
  /\ (forall k,
        List.filter (fun a => positionKey a =? k) sorted
        = List.filter (fun a => positionKey a =? k) (PlatformPost.mediaAssets post))
  /\ (exists n rest,
        requestsOf (publishPost post) w = (take n items ++ rest)%list
        /\ Forall notItem rest)
  /\ (allResolve (remote w) (sent w) items = true ->
      exists rest,
        requestsOf (publishPost post) w
        = (items
           ++ CreateCarousel ig (Js.join "," (repliedIds (remote w) (sent w) items))
                (Js.or_str (Js.or_opt_str (PlatformPost.caption post) "") "") tok
           :: rest)%list
        /\ Forall notItem rest).
Proof.
  intros Hty Htok Htt Hig Hit sorted items.
  split; [apply sortByPosition_perm|].
  split; [apply sortByPosition_sorted|].
  split; [intros k; apply sortByPosition_stable|].
  split.
  - apply publishPost_carousel_prefix; assumption.
  - apply publishPost_carousel_resolved; assumption.
Qed.

Lemma carousel_position_order_sample :
  map Platform.position Samples.slides = [Some 2; Some 0; Some 1]
  /\ exists rest,
       requestsOf
         (publishPost (Samples.prepared Platform.CAROUSEL Samples.slides
                         (Some "stored-token") (Some "17841400000000000")))
         Samples.carouselWorld
       = CreateCarouselItem "17841400000000000" "pos0.jpg" "stored-token"
         :: CreateCarouselItem "17841400000000000" "pos1.jpg" "stored-token"
         :: CreateCarouselItem "17841400000000000" "pos2.jpg" "stored-token"
         :: CreateCarousel "17841400000000000"
              "item-pos0.jpg,item-pos1.jpg,item-pos2.jpg" "Hello" "stored-token"
         :: rest.
Proof.
  split; [reflexivity|].
  destruct (carousel_position_order
              (Samples.prepared Platform.CAROUSEL Samples.slides
                 (Some "stored-token") (Some "17841400000000000"))
              Samples.carouselWorld "17841400000000000" "stored-token")
    as (_ & _ & _ & _ & H); try reflexivity.
  destruct H as (rest & E & _); [reflexivity|].
  exists rest. exact E.
Defined.

End AdapterClaims.

(** ** The order of the publish protocol *)

Section PollTrace.

Import Obs Trace InstagramAdapter.

Variables cid tok : string.

(** What one run of the loop sends and when it can end normally. *)
Lemma pollLoop_trace (startTime timeout : Z) (fuel : nat) :
  forall w r,
    pollLoop fuel cid tok startTime timeout w = Some r ->
    exists n : nat,
      sent (snd r) = (sent w ++ replicate n (ContainerStatus cid tok))%list
      /\ remote (snd r) = remote w
      /\ (n = 0%nat
          \/ Z.of_nat n * pollInterval < timeout - (now w - startTime) + pollInterval)
      /\ (fst r = Normal tt ->
          exists k, n = S k
            /\ observedCode
                 (remote w (sent w ++ replicate k (ContainerStatus cid tok))%list
                    (ContainerStatus cid tok))
               = Some "FINISHED").
Proof.
  induction fuel as [|fuel IH]; intros w r; cbn [pollLoop];
    destruct (Z.ltb_spec (now w - startTime) timeout) as [Hlt|Hge];
    try discriminate.
  1,3: intros [= <-]; exists 0%nat; cbn; rewrite app_nil_r;
       repeat split; [left; reflexivity | discriminate].
  rewrite getContainerStatus_eq.
  destruct (outcome (remote w (sent w) (ContainerStatus cid tok))) as [d|e] eqn:Hout.
  - destruct (String.eqb_spec (data_status_code d) "FINISHED") as [Hfin|Hfin].
    + intros [= <-]. exists 1%nat. cbn. repeat split.
      * right. unfold pollInterval. lia.
      * intros _. exists 0%nat. split; [reflexivity|].
        cbn. rewrite app_nil_r. unfold observedCode. rewrite Hout, Hfin. reflexivity.
    + destruct (String.eqb (data_status_code d) "ERROR").
      * intros [= <-]. exists 1%nat. cbn. repeat split;
          [right; unfold pollInterval; lia | discriminate].
      * intros H. apply IH in H. destruct H as (n & Hs & Hr & Hb & Hok).
        exists (S n). cbn in Hs, Hr, Hb, Hok |- *.
        rewrite <- app_assoc in Hs. cbn in Hs.
        split; [exact Hs|]. split; [exact Hr|]. split.
        { right. unfold pollInterval in *. destruct Hb as [->|Hb]; lia. }
        intros Hn. destruct (Hok Hn) as (k & -> & Hobs).
        exists (S k). split; [reflexivity|].
        rewrite <- app_assoc in Hobs. exact Hobs.
  - intros [= <-]. exists 1%nat. cbn. repeat split;
      [right; unfold pollInterval; lia | discriminate].
Qed.

Lemma waitForContainerReady_trace (timeout : Z) (w : World) :
  exists n : nat,
    sent (snd (waitForContainerReady cid tok timeout w))
    = (sent w ++ replicate n (ContainerStatus cid tok))%list
    /\ remote (snd (waitForContainerReady cid tok timeout w)) = remote w
    /\ (0 <= timeout -> Z.of_nat n <= maxPolls timeout)
    /\ (fst (waitForContainerReady cid tok timeout w) = Normal tt ->
        exists k, n = S k
          /\ observedCode
               (remote w (sent w ++ replicate k (ContainerStatus cid tok))%list
                  (ContainerStatus cid tok))
             = Some "FINISHED").
Proof.
  destruct (pollLoop_trace (now w) timeout _ w _ (waitForContainerReady_loop cid tok timeout w))
    as (n & Hs & Hr & Hb & Hok).
  exists n. split; [exact Hs|]. split; [exact Hr|]. split; [|exact Hok].
  intros Ht. unfold maxPolls, pollInterval in *.
  destruct Hb as [->|Hb].
  - apply Z.div_pos; lia.
  - apply Z.div_le_lower_bound; lia.
Qed.

End PollTrace.

Section PlainFaults.

Import Obs Trace.

Lemma plain_ret {A} (a : A) : Plain (ret a).
Proof. intros w e w' H. discriminate H. Qed.

Lemma plain_throw {A} (msg : string) : Plain (@throw A (newError msg)).
Proof. intros w e w' [= <- _]. reflexivity. Qed.

Lemma plain_bind {A B} (c : M A) (k : A -> M B) :
  Plain c -> (forall a, Plain (k a)) -> Plain (bind c k).
Proof.
  intros Hc Hk w e w'. unfold bind.
  destruct (c w) as [[a|e0] w0] eqn:E.
  - apply Hk.
  - intros [= <- _]. eapply Hc. exact E.
Qed.

Lemma plain_rethrowAs {A} (what : string) (c : M A) : Plain (GraphApi.rethrowAs what c).
Proof.
  intros w e w'. unfold GraphApi.rethrowAs, tryCatch.
  destruct (c w) as [[a|e0] w0]; [discriminate|].
  intros [= <- _]. reflexivity.
Qed.

Lemma plain_waitForContainerReady (cid tok : string) (timeout : Z) :
  Plain (InstagramAdapter.waitForContainerReady cid tok timeout).
Proof.
  intros w e w' H.
  pose proof (waitForContainerReady_loop cid tok timeout w) as Hloop. rewrite H in Hloop.
  clear H. revert Hloop. generalize (now w) at 1. generalize (InstagramAdapter.pollBound timeout).
  intros fuel. revert w. induction fuel as [|fuel IH]; intros w startTime;
    cbn [InstagramAdapter.pollLoop];
    destruct (now w - startTime <? timeout); try discriminate;
    try (intros [= <- _]; reflexivity).
  rewrite getContainerStatus_eq.
  destruct (outcome _) as [d|e0]; [|intros [= <- _]; reflexivity].
  destruct (String.eqb (data_status_code d) "FINISHED"); [discriminate|].
  destruct (String.eqb (data_status_code d) "ERROR"); [intros [= <- _]; reflexivity|].
  apply IH.
Qed.

Lemma plain_createContainer (post : PlatformPost.ScheduledPost) (ig tok : string) :
  Plain (InstagramAdapter.createContainer post ig tok).
Proof.
  unfold InstagramAdapter.createContainer.
  destruct (PlatformPost.postType post); try apply plain_throw.
  - destruct (PlatformPost.mediaAssets post) as [|m [|m' rest]]; try apply plain_throw.
    apply plain_rethrowAs.
  - apply plain_bind; [apply plain_rethrowAs | intros ids; apply plain_ret].
Qed.

Lemma isCreate_createContainer (post : PlatformPost.ScheduledPost) (ig tok : string) :
  Keeps (sentOnly isCreate) (InstagramAdapter.createContainer post ig tok).
Proof.
  unfold InstagramAdapter.createContainer.
  destruct (PlatformPost.postType post); try apply sentOnly_throw.
  - destruct (PlatformPost.mediaAssets post) as [|m [|m' rest]];
      try apply sentOnly_throw.
    apply sentOnly_createImageContainer. exact I.
  - keeps; first [exact I | apply sentOnly_createItemContainers; intros; exact I].
Qed.

End PlainFaults.

Section ProtocolTrace.

Import Obs Trace InstagramAdapter.

Lemma publishContainer_eq (ig cid tok : string) (w : World) :
  GraphApi.publishContainer ig cid tok w
  = match outcome (remote w (sent w) (MediaPublish ig cid tok)) with
    | Resolved d => (Normal d, afterRequest (MediaPublish ig cid tok) w)
    | Rejected e =>
        (Throw (newError ("Failed to publish post: " ++ GraphApi.remoteMessage e)),
         afterRequest (MediaPublish ig cid tok) w)
    end.
Proof.
  unfold GraphApi.publishContainer, GraphApi.rethrowAs, tryCatch, axios, afterRequest.
  destruct (outcome _); reflexivity.
Qed.

Lemma getPostInfo_eq (pid tok : string) (w : World) :
  GraphApi.getPostInfo pid tok w
  = match outcome (remote w (sent w) (PostInfo pid tok)) with
    | Resolved d => (Normal d, afterRequest (PostInfo pid tok) w)
    | Rejected e =>
        (Throw (newError ("Failed to get post info: " ++ GraphApi.remoteMessage e)),
         afterRequest (PostInfo pid tok) w)
    end.
Proof.
  unfold GraphApi.getPostInfo, GraphApi.rethrowAs, tryCatch, axios, afterRequest.
  destruct (outcome _); reflexivity.
Qed.

(** Steps 2 to 4: polls of the container, then at most one publish
    request, then at most one request for the permalink. *)
Lemma finishPublish_trace (ig cid tok : string) (timeout : Z) (w : World) :
  0 <= timeout ->
  exists (n : nat) (tail : list Request),
    sent (snd (finishPublish ig cid tok timeout w))
    = (sent w ++ replicate n (ContainerStatus cid tok) ++ tail)%list
    /\ Z.of_nat n <= maxPolls timeout
    /\ (tail <> [] ->
        publishTail ig cid tok tail
        /\ exists k, n = S k
             /\ observedCode
                  (remote w (sent w ++ replicate k (ContainerStatus cid tok))%list
                     (ContainerStatus cid tok))
                = Some "FINISHED")
    /\ match fst (finishPublish ig cid tok timeout w) with
       | Normal r =>
           exists pid url,
             succeeded r pid url /\ tail = [MediaPublish ig cid tok; PostInfo pid tok]
       | Throw e => response e = None
       end.
Proof.
  intros Ht.
  destruct (waitForContainerReady_trace cid tok timeout w) as (n & Hs & Hr & Hb & Hok).
  pose proof (plain_waitForContainerReady cid tok timeout w) as Hplain.
  unfold finishPublish, bind.
  destruct (waitForContainerReady cid tok timeout w) as [[[]|e] w1]; cbn [fst snd] in *.
  2:{ exists n, []. rewrite app_nil_r. split; [exact Hs|]. split; [exact (Hb Ht)|].
      split; [intros H; congruence|]. eapply Hplain. reflexivity. }
  destruct (Hok eq_refl) as (k & Hn & Hobs).
  rewrite publishContainer_eq.
  destruct (outcome (remote w1 (sent w1) (MediaPublish ig cid tok))) as [dp|ep].
  2:{ exists n, [MediaPublish ig cid tok]. cbn. rewrite Hs, <- app_assoc.
      split; [reflexivity|]. split; [exact (Hb Ht)|].
      split; [|reflexivity]. intros _. split; [left; reflexivity|].
      exists k. split; assumption. }
  rewrite getPostInfo_eq. cbn [sent afterRequest setSent setClock remote].
  exists n, [MediaPublish ig cid tok; PostInfo (data_id dp) tok].
  assert (Hsent : forall c : Completion Platform.PublishResult,
             sent (snd (c, afterRequest (PostInfo (data_id dp) tok)
                             (afterRequest (MediaPublish ig cid tok) w1)))
             = (sent w ++ replicate n (ContainerStatus cid tok)
                  ++ [MediaPublish ig cid tok; PostInfo (data_id dp) tok])%list).
  { intros c. cbn. rewrite Hs, <- !app_assoc. reflexivity. }
  destruct (outcome _) as [di|ei]; cbn [fst].
  - split; [apply Hsent|]. split; [exact (Hb Ht)|]. split.
    + intros _. split; [right; eexists; reflexivity|]. exists k. split; assumption.
    + exists (data_id dp), (data_permalink di). split; reflexivity.
  - split; [apply Hsent|]. split; [exact (Hb Ht)|]. split; [|reflexivity].
    intros _. split; [right; eexists; reflexivity|]. exists k. split; assumption.
Qed.

End ProtocolTrace.

Section PublishTrace.

Import Obs Trace InstagramAdapter.

Lemma failureResult_plain (e : JsError) :
  response e = None -> failedWith (failureResult e) (message e).
Proof. intros H. unfold failedWith, failureResult. rewrite H. reflexivity. Qed.

Lemma protocolRun_local (w : World) (msg ig tok : string) (timeout : Z) :
  0 <= timeout ->
  protocolRun w w (failureResult (newError msg)) ig tok timeout.
Proof.
  intros Ht. exists [], "", 0%nat, []. cbn. rewrite app_nil_r.
  split; [reflexivity|]. split; [constructor|].
  split; [unfold maxPolls, pollInterval; apply Z.div_pos; lia|].
  split; [left; reflexivity|]. split; [congruence|].
  right. eexists. reflexivity.
Qed.

Lemma protocol_trace (create : M string) (ig tok : string) (timeout : Z) (w : World) :
  0 <= timeout ->
  Keeps (sentOnly isCreate) create -> Plain create ->
  exists r w',
    tryCatch (bind create (fun cid => finishPublish ig cid tok timeout))
      (fun e => ret (failureResult e)) w = (Normal r, w')
    /\ protocolRun w w' r ig tok timeout.
Proof.
  intros Ht Hk Hp. unfold tryCatch, bind.
  specialize (Hk w). specialize (Hp w).
  destruct (create w) as [[cid|e] w1]; cbn [snd] in Hk;
    destruct Hk as (Hr & _ & _ & _ & _ & _ & _ & _ & creates & Hs & Hc).
  2:{ eexists _, _. split; [reflexivity|].
      exists creates, "", 0%nat, []. cbn. rewrite !app_nil_r.
      split; [exact Hs|]. split; [exact Hc|].
      split; [unfold maxPolls, pollInterval; apply Z.div_pos; lia|].
      split; [left; reflexivity|]. split; [congruence|].
      right. eexists. apply failureResult_plain. eapply Hp. reflexivity. }
  destruct (finishPublish_trace ig cid tok timeout w1 Ht)
    as (n & tail & Hs1 & Hb & Htail & Hres).
  assert (Hshape : forall c : Completion Platform.PublishResult,
             sent (snd (finishPublish ig cid tok timeout w1))
             = (sent w ++ creates ++ replicate n (ContainerStatus cid tok) ++ tail)%list).
  { intros _. rewrite Hs1, Hs, <- !app_assoc. reflexivity. }
  assert (Hfin : tail <> [] ->
             (tail = [] \/ publishTail ig cid tok tail)
             /\ exists k, n = S k
                  /\ observedCode
                       (remote w (sent w ++ creates
                                    ++ replicate k (ContainerStatus cid tok))%list
                          (ContainerStatus cid tok))
                     = Some "FINISHED").
  { intros Hne. destruct (Htail Hne) as (Hpt & k & Hn & Hobs).
    split; [right; exact Hpt|]. exists k. split; [exact Hn|].
    rewrite Hr, Hs, <- app_assoc in Hobs. exact Hobs. }
  destruct (finishPublish ig cid tok timeout w1) as [[r|e] w2]; cbn [fst snd] in *.
  - destruct Hres as (pid & url & Hok & Hfull).
    eexists _, _. split; [reflexivity|].
    exists creates, cid, n, tail.
    split; [apply Hshape; exact (Normal r)|]. split; [exact Hc|]. split; [exact Hb|].
    assert (Hne : tail <> []) by (rewrite Hfull; discriminate).
    split; [apply Hfin; exact Hne|]. split; [intros _; apply Hfin; exact Hne|].
    left. exists pid, url. split; assumption.
  - eexists _, _. split; [reflexivity|].
    exists creates, cid, n, tail.
    split; [apply Hshape; exact (Throw e)|]. split; [exact Hc|]. split; [exact Hb|].
    split.
    { destruct tail as [|x t]; [left; reflexivity|]. apply Hfin. discriminate. }
    split; [intros Hne; apply Hfin; exact Hne|].
    right. eexists. apply failureResult_plain. exact Hres.
Qed.

Lemma publishPost_trace (post : PlatformPost.ScheduledPost) (w : World) :
  exists r w',
    publishPost post w = (Normal r, w')
    /\ protocolRun w w' r (accountOf post) (tokenOf post) 10000.
Proof.
  unfold publishPost.
  destruct (falsy (PlatformPost.accessToken post) || falsy (PlatformPost.igAccountId post)).
  - eexists _, _. split; [reflexivity|]. apply protocolRun_local. lia.
  - apply (protocol_trace _ (accountOf post) (tokenOf post) 10000 w); [lia| |].
    + apply isCreate_createContainer.
    + apply plain_createContainer.
Qed.

Lemma publishReel_trace (reel : PlatformPost.ScheduledPost) (w : World) :
  exists r w',
    publishReel reel w = (Normal r, w')
    /\ protocolRun w w' r (accountOf reel) (tokenOf reel) 30000.
Proof.
  unfold publishReel.
  destruct (falsy (PlatformPost.accessToken reel) || falsy (PlatformPost.igAccountId reel)).
  { eexists _, _. split; [reflexivity|]. apply protocolRun_local. lia. }
  destruct (PlatformPost.mediaAssets reel) as [|m [|m' rest]].
  1,3: eexists _, _; (split; [reflexivity|]); apply protocolRun_local; lia.
  apply (protocol_trace _ (accountOf reel) (tokenOf reel) 30000 w); [lia| |].
  - apply sentOnly_createReelContainer. exact I.
  - apply plain_rethrowAs.
Qed.

End PublishTrace.

(** ** Further properties of the adapter *)

Section AdapterFurther.

Import Obs Trace InstagramAdapter.

Lemma protocolRun_requests {A} (c : M A) (w w' : World) (a : Completion A)
    (r : Platform.PublishResult) (ig tok : string) (timeout : Z) :
  c w = (a, w') ->
  protocolRun w w' r ig tok timeout ->
  exists creates cid n tail,
    requestsOf c w = (creates ++ replicate n (ContainerStatus cid tok) ++ tail)%list
    /\ Forall isCreate creates
    /\ Z.of_nat n <= maxPolls timeout
    /\ (tail = [] \/ publishTail ig cid tok tail)
    /\ (tail <> [] ->
        exists k, n = S k
          /\ observedCode
               (remote w (sent w ++ creates ++ replicate k (ContainerStatus cid tok))%list
                  (ContainerStatus cid tok))
             = Some "FINISHED").
Proof.
  intros E (creates & cid & n & tail & Hs & Hc & Hb & Ht & Hf & _).
  exists creates, cid, n, tail. split; [|repeat split; assumption].
  apply requestsOf_app. rewrite E. exact Hs.
Qed.

(** X1: the requests of one publish call follow the protocol: first the
    container creations, then status polls of one container, then at most
    one publish request for that container, then at most one request for
    the permalink; nothing else is sent. *)
Theorem publish_protocol_order (post : PlatformPost.ScheduledPost) (w : World) :
  (exists creates cid n tail,
      requestsOf (publishPost post) w
      = (creates ++ replicate n (ContainerStatus cid (tokenOf post)) ++ tail)%list
      /\ Forall isCreate creates
      /\ (tail = [] \/ publishTail (accountOf post) cid (tokenOf post) tail))
  /\ (exists creates cid n tail,
        requestsOf (publishReel post) w
        = (creates ++ replicate n (ContainerStatus cid (tokenOf post)) ++ tail)%list
        /\ Forall isCreate creates
        /\ (tail = [] \/ publishTail (accountOf post) cid (tokenOf post) tail)).
Proof.
  split.
  - destruct (publishPost_trace post w) as (r & w' & E & Hrun).
    destruct (protocolRun_requests _ _ _ _ _ _ _ _ E Hrun)
      as (creates & cid & n & tail & H1 & H2 & _ & H3 & _).
    exists creates, cid, n, tail. repeat split; assumption.
  - destruct (publishReel_trace post w) as (r & w' & E & Hrun).
    destruct (protocolRun_requests _ _ _ _ _ _ _ _ E Hrun)
      as (creates & cid & n & tail & H1 & H2 & _ & H3 & _).
    exists creates, cid, n, tail. repeat split; assumption.
Qed.

Lemma in_requests_publish (creates : list Request) (cid tok ig : string) (n : nat)
    (tail : list Request) (i c t : string) :
  Forall isCreate creates ->
  (tail = [] \/ publishTail ig cid tok tail) ->
  In (MediaPublish i c t) (creates ++ replicate n (ContainerStatus cid tok) ++ tail) ->
  c = cid /\ t = tok /\ exists rest, tail = MediaPublish i c t :: rest.
Proof.
  intros Hc Ht Hin. apply in_app_or in Hin. destruct Hin as [Hin|Hin].
  { rewrite Forall_forall in Hc. apply list_elem_of_In, Hc in Hin. destruct Hin. }
  apply in_app_or in Hin. destruct Hin as [Hin|Hin].
  { apply list_elem_of_In, elem_of_replicate in Hin. destruct Hin as [Hin _].
    discriminate Hin. }
  destruct Ht as [->|[->|[pid ->]]]; cbn in Hin.
  - destruct Hin.
  - destruct Hin as [[= <- <- <-]|[]]. repeat split. eexists. reflexivity.
  - destruct Hin as [[= <- <- <-]|[Hin|[]]]; [|discriminate Hin].
    repeat split. eexists. reflexivity.
Qed.

Lemma publish_after_poll {A} (c0 : M A) (w w' : World) (a : Completion A)
    (r : Platform.PublishResult) (ig tok : string) (timeout : Z) (i c t : string) :
  c0 w = (a, w') ->
  protocolRun w w' r ig tok timeout ->
  In (MediaPublish i c t) (requestsOf c0 w) ->
  exists creates k rest,
    requestsOf c0 w
    = (creates ++ replicate (S k) (ContainerStatus c t) ++ MediaPublish i c t :: rest)%list
    /\ Forall isCreate creates
    /\ observedCode
         (remote w (sent w ++ creates ++ replicate k (ContainerStatus c t))%list
            (ContainerStatus c t))
       = Some "FINISHED".
Proof.
  intros E Hrun Hin.
  destruct (protocolRun_requests _ _ _ _ _ _ _ _ E Hrun)
    as (creates & cid & n & tail & H1 & H2 & _ & H3 & H4).
  rewrite H1 in Hin.
  destruct (in_requests_publish _ _ _ _ _ _ _ _ _ H2 H3 Hin) as (-> & -> & rest & ->).
  destruct (H4 ltac:(discriminate)) as (k & -> & Hobs).
  exists creates, k, rest. split; [exact H1|]. split; [exact H2 | exact Hobs].
Qed.

(** X2: a container is published only after a status poll of that very
    container, sent in the same call, was answered FINISHED: the requests
    of the call are container creations, then polls of the container, then
    the publish request, and the last of these polls, asked after exactly
    the requests before it, was answered FINISHED. *)
Theorem publish_only_after_finished (post : PlatformPost.ScheduledPost) (w : World)
    (i c t : string) :
  (In (MediaPublish i c t) (requestsOf (publishPost post) w) ->
   exists creates k rest,
     requestsOf (publishPost post) w
     = (creates ++ replicate (S k) (ContainerStatus c t)
          ++ MediaPublish i c t :: rest)%list
     /\ Forall isCreate creates
     /\ observedCode
          (remote w (sent w ++ creates ++ replicate k (ContainerStatus c t))%list
             (ContainerStatus c t))
        = Some "FINISHED")
  /\ (In (MediaPublish i c t) (requestsOf (publishReel post) w) ->
      exists creates k rest,
        requestsOf (publishReel post) w
        = (creates ++ replicate (S k) (ContainerStatus c t)
             ++ MediaPublish i c t :: rest)%list
        /\ Forall isCreate creates
        /\ observedCode
             (remote w (sent w ++ creates ++ replicate k (ContainerStatus c t))%list
                (ContainerStatus c t))
           = Some "FINISHED").
Proof.
  split; intros Hin.
  - destruct (publishPost_trace post w) as (r & w' & E & Hrun).
    exact (publish_after_poll _ _ _ _ _ _ _ _ _ _ _ E Hrun Hin).
  - destruct (publishReel_trace post w) as (r & w' & E & Hrun).
    exact (publish_after_poll _ _ _ _ _ _ _ _ _ _ _ E Hrun Hin).
Qed.

Lemma publish_only_after_finished_sample :
  exists creates k rest,
    requestsOf
      (publishPost (Samples.prepared Platform.IMAGE [Samples.photo]
                      (Some "stored-token") (Some "17841400000000000")))
      Samples.quiet
    = (creates ++ replicate (S k) (ContainerStatus "container" "stored-token")
         ++ MediaPublish "17841400000000000" "container" "stored-token" :: rest)%list
    /\ Forall isCreate creates
    /\ observedCode
         (remote Samples.quiet
            (sent Samples.quiet ++ creates
               ++ replicate k (ContainerStatus "container" "stored-token"))%list
            (ContainerStatus "container" "stored-token"))
       = Some "FINISHED".
Proof.
  apply (proj1 (publish_only_after_finished
                  (Samples.prepared Platform.IMAGE [Samples.photo]
                     (Some "stored-token") (Some "17841400000000000"))
                  Samples.quiet "17841400000000000" "container" "stored-token")).
  vm_compute. right. right. left. reflexivity.
Defined.

Lemma count_status (creates : list Request) (cid tok ig : string) (n : nat)
    (tail : list Request) :
  Forall isCreate creates ->
  (tail = [] \/ publishTail ig cid tok tail) ->
  length (List.filter isStatusRequest
            (creates ++ replicate n (ContainerStatus cid tok) ++ tail)) = n.
Proof.
  intros Hc Ht. rewrite !List.filter_app, !length_app.
  assert (H1 : List.filter isStatusRequest creates = []).
  { induction Hc as [|x l Hx _ IH]; [reflexivity|]. cbn. rewrite IH.
    destruct x; cbn in Hx |- *; try reflexivity; destruct Hx. }
  assert (H2 : List.filter isStatusRequest (replicate n (ContainerStatus cid tok))
               = replicate n (ContainerStatus cid tok)).
  { induction n as [|k IH]; [reflexivity|]. cbn. rewrite IH. reflexivity. }
  assert (H3 : List.filter isStatusRequest tail = []).
  { destruct Ht as [->|[->|[pid ->]]]; reflexivity. }
  rewrite H1, H2, H3, length_replicate. cbn. lia.
Qed.

(** X3: one publishPost call polls the container status at most 5
    times, one publishReel call at most 15 times. *)
Theorem publish_poll_bound (post : PlatformPost.ScheduledPost) (w : World) :
  (length (List.filter isStatusRequest (requestsOf (publishPost post) w)) <= 5)%nat
  /\ (length (List.filter isStatusRequest (requestsOf (publishReel post) w)) <= 15)%nat.
Proof.
  split.
  - destruct (publishPost_trace post w) as (r & w' & E & Hrun).
    destruct (protocolRun_requests _ _ _ _ _ _ _ _ E Hrun)
      as (creates & cid & n & tail & H1 & H2 & Hb & H3 & _).
    rewrite H1, (count_status _ _ _ _ _ _ H2 H3).
    change (maxPolls 10000) with 5 in Hb. lia.
  - destruct (publishReel_trace post w) as (r & w' & E & Hrun).
    destruct (protocolRun_requests _ _ _ _ _ _ _ _ E Hrun)
      as (creates & cid & n & tail & H1 & H2 & Hb & H3 & _).
    rewrite H1, (count_status _ _ _ _ _ _ H2 H3).
    change (maxPolls 30000) with 15 in Hb. lia.
Qed.

(** X4: the result of a publish call has one of two shapes: a success
    with the platform post id and its permalink and no error, or a failure
    with an error text, no ids, and the error code "UNKNOWN": the code of
    the platform's error is never passed on. *)
Theorem publish_result_shape (post : PlatformPost.ScheduledPost) (w : World) :
  (exists r w',
      publishPost post w = (Normal r, w')
      /\ ((exists pid url, succeeded r pid url) \/ (exists msg, failedWith r msg)))
  /\ (exists r w',
        publishReel post w = (Normal r, w')
        /\ ((exists pid url, succeeded r pid url) \/ (exists msg, failedWith r msg))).
Proof.
  split.
  - destruct (publishPost_trace post w)
      as (r & w' & E & (cs & cid & n & tl & _ & _ & _ & _ & _ & [H|H])).
    + exists r, w'. split; [exact E|]. left.
      destruct H as (pid & url & H & _). exists pid, url. exact H.
    + exists r, w'. split; [exact E|]. right. exact H.
  - destruct (publishReel_trace post w)
      as (r & w' & E & (cs & cid & n & tl & _ & _ & _ & _ & _ & [H|H])).
    + exists r, w'. split; [exact E|]. left.
      destruct H as (pid & url & H & _). exists pid, url. exact H.
    + exists r, w'. split; [exact E|]. right. exact H.
Qed.

(** X5: what the adapter rejects before it sends anything: a post kind
    outside getSupportedPostTypes (and a reel handed to publishPost), an
    image post that does not have exactly one asset, a reel that does not
    have exactly one asset.  The world is unchanged and the result carries
    the reason. *)
Theorem publish_rejects_locally (post : PlatformPost.ScheduledPost) (w : World) :
  falsy (PlatformPost.accessToken post) || falsy (PlatformPost.igAccountId post) = false ->
  (~ In (PlatformPost.postType post) AdapterInfo.getSupportedPostTypes ->
   dispatch post w
   = (Normal (failureResult
                (newError ("Unsupported post type: "
                             ++ Platform.show_PostType (PlatformPost.postType post)))), w))
  /\ (PlatformPost.postType post = Platform.REEL ->
      publishPost post w
      = (Normal (failureResult (newError "Unsupported post type: REEL")), w))
  /\ (PlatformPost.postType post = Platform.IMAGE ->
      length (PlatformPost.mediaAssets post) <> 1%nat ->
      publishPost post w
      = (Normal (failureResult (newError "Image post must have exactly 1 image")), w))
  /\ (length (PlatformPost.mediaAssets post) <> 1%nat ->
      publishReel post w
      = (Normal (failureResult (newError "Reel must have exactly 1 video")), w)).
Proof.
  intros Hcred. split; [|split; [|split]].
  - intros Hnot. unfold dispatch, publishPost, tryCatch, bind, createContainer.
    rewrite Hcred.
    destruct (PlatformPost.postType post); cbn in Hnot |- *; try reflexivity;
      exfalso; apply Hnot; auto.
  - intros Hty. unfold publishPost, tryCatch, bind, createContainer.
    rewrite Hcred, Hty. reflexivity.
  - intros Hty Hlen. unfold publishPost, tryCatch, bind, createContainer.
    rewrite Hcred, Hty.
    destruct (PlatformPost.mediaAssets post) as [|m [|m' rest]]; try reflexivity.
    cbn in Hlen. congruence.
  - intros Hlen. unfold publishReel, tryCatch. rewrite Hcred.
    destruct (PlatformPost.mediaAssets post) as [|m [|m' rest]]; try reflexivity.
    cbn in Hlen. congruence.
Qed.

Lemma publish_rejects_locally_sample :
  publishReel (Samples.prepared Platform.REEL [Samples.clip; Samples.clip]
                 (Some "stored-token") (Some "17841400000000000")) Samples.quiet
  = (Normal (failureResult (newError "Reel must have exactly 1 video")), Samples.quiet)
  /\ dispatch (Samples.prepared Platform.TEXT [Samples.photo]
                 (Some "stored-token") (Some "17841400000000000")) Samples.quiet
     = (Normal (failureResult (newError "Unsupported post type: TEXT")), Samples.quiet).
Proof.
  split.
  - apply (publish_rejects_locally
             (Samples.prepared Platform.REEL [Samples.clip; Samples.clip]
                (Some "stored-token") (Some "17841400000000000")) Samples.quiet);
      [reflexivity | cbn; lia].
  - apply (publish_rejects_locally
             (Samples.prepared Platform.TEXT [Samples.photo]
                (Some "stored-token") (Some "17841400000000000")) Samples.quiet);
      [reflexivity|].
    cbn. intros [H|[H|[H|[]]]]; discriminate H.
Defined.

End AdapterFurther.

(** ** Every way a job can go *)

Section JobPaths.

Import Obs Trace Worker.

Lemma sentOnly_refreshToken (accountId refreshToken : string) :
  Keeps (sentOnly isRefresh) (InstagramAdapter.refreshToken accountId refreshToken).
Proof.
  unfold InstagramAdapter.refreshToken.
  apply sentOnly_tryCatch; [|intros e; apply sentOnly_throw].
  apply sentOnly_bind.
  - intros w. unfold InstagramAdapter.appCredentials.
    destruct (appId w), (appSecret w); try apply sentOnly_refl.
    destruct (Js.truthy_str _ && Js.truthy_str _); apply sentOnly_refl.
  - intros app. keeps; exact I.
Qed.

Lemma refreshOnly_refl (k : option string) (w : World) : refreshOnly k w w.
Proof.
  unfold refreshOnly. repeat split; try reflexivity; try lia.
  exists []. rewrite app_nil_r. split; [reflexivity | constructor].
Qed.

Lemma sentOnly_refreshOnly (k : option string) (w w' : World) :
  sentOnly isRefresh w w' -> refreshOnly k w w'.
Proof.
  intros (H1 & H2 & H3 & H4 & H5 & H6 & H7 & H8 & H9).
  unfold refreshOnly. repeat split; try assumption.
  intros j _. rewrite H5. reflexivity.
Qed.

(** The preparation step sends only requests of the refresh and writes
    at most the account of the post. *)
Lemma prepare_refreshOnly (postId : string) (w : World) :
  refreshOnly (accountKeyOf w postId) w
    (snd (PostsService.preparePostForPublishing postId w)).
Proof.
  unfold PostsService.preparePostForPublishing, bind, PostsService.findUnique,
    accountKeyOf.
  destruct (scheduledPost w !! postId) as [post|]; [|apply refreshOnly_refl].
  unfold PostsService.findAccount.
  destruct (socialAccount w !! Prisma.socialAccountId post) as [account|] eqn:Ha;
    [|apply refreshOnly_refl].
  cbn [dateNow].
  destruct (PostsService.expired (Prisma.tokenExpiresAt account) (now w));
    [|apply refreshOnly_refl].
  destruct (PlatformFactory.isSupported (Prisma.platform post)) eqn:Hs.
  - rewrite (getAdapter_supported _ _ Hs).
    cbn [PlatformFactory.refreshToken PlatformFactory.instagramAdapter].
    match goal with |- context [InstagramAdapter.refreshToken ?a ?b w] =>
      pose proof (sentOnly_refreshToken a b w) as Hr;
      destruct (InstagramAdapter.refreshToken a b w) as [[refreshed|e] w1]
    end; cbn [snd] in Hr; [|apply sentOnly_refreshOnly; exact Hr].
    destruct Hr as (H1 & H2 & H3 & H4 & H5 & H6 & H7 & H8 & H9).
    unfold PostsService.updateAccount. rewrite H5, Ha. cbn.
    unfold refreshOnly. cbn. repeat split; try assumption.
    intros k Hk. apply lookup_insert_ne. congruence.
  - rewrite (getAdapter_unsupported _ _ Hs). apply refreshOnly_refl.
Qed.

Lemma remoteOnly_dispatch (post : PlatformPost.ScheduledPost) :
  Keeps remoteOnly (dispatch post).
Proof.
  intros w. unfold dispatch. destruct (Platform.PostType_eqb _ _).
  - apply remoteOnly_publishReel.
  - apply remoteOnly_publishPost.
Qed.

Lemma dispatch_returns (post : PlatformPost.ScheduledPost) (w : World) :
  exists r w', dispatch post w = (Normal r, w').
Proof.
  unfold dispatch. destruct (Platform.PostType_eqb _ _).
  - destruct (publishReel_returns post w) as (r & w' & E & _). eauto.
  - destruct (publishPost_returns post w) as (r & w' & E & _). eauto.
Qed.

Lemma prepare_missing (postId : string) (w : World) :
  scheduledPost w !! postId = None ->
  PostsService.preparePostForPublishing postId w
  = (Throw (newError "Post not found"), w).
Proof.
  intros H. unfold PostsService.preparePostForPublishing, bind, PostsService.findUnique.
  rewrite H. reflexivity.
Qed.

Lemma processJob_missing (postId : string) (w : World) :
  scheduledPost w !! postId = None ->
  processJob postId w = (Normal (Failure (Some "Post not found") None 0), w).
Proof.
  intros H. rewrite processJob_eq. unfold tryCatch.
  rewrite (attempt_prepare_throws _ _ _ _ _ (prepare_missing _ _ H)).
  rewrite (recover_missing _ _ _ _ H). rewrite Z.sub_diag. reflexivity.
Qed.

(** Every job goes one of the seven ways. *)
Lemma processJob_path (postId : string) (w : World) :
  JobPath postId w (processJob postId w).
Proof.
  destruct (scheduledPost w !! postId) as [p|] eqn:Hrow.
  2:{ rewrite (processJob_missing _ _ Hrow). apply PathMissing. exact Hrow. }
  destruct (PostsService.preparePostForPublishing postId w) as [[post|e] w1] eqn:Hprep.
  2:{ rewrite (processJob_prepare_throws _ _ _ Hrow _ _ Hprep).
      eapply PathFault; eassumption. }
  destruct (Prisma.PostStatus_eqb (Prisma.status p) Prisma.PENDING) eqn:Hst.
  2:{ assert (Hne : Prisma.status p <> Prisma.PENDING).
      { intros E. rewrite E in Hst. discriminate Hst. }
      rewrite (processJob_skip _ _ _ Hrow _ _ Hprep Hne).
      eapply PathSkip; eassumption. }
  assert (Hpending : Prisma.status p = Prisma.PENDING).
  { destruct (Prisma.status p); try discriminate Hst. reflexivity. }
  destruct (PlatformFactory.isSupported (Prisma.platform p)) eqn:Hs.
  2:{ rewrite (processJob_unsupported _ _ _ Hrow _ _ Hprep Hpending Hs).
      eapply PathUnsupported; eassumption. }
  destruct (dispatch_returns post w1) as (r & w2 & Hd).
  destruct (Platform.success r) eqn:Hok.
  { rewrite (processJob_published _ _ _ Hrow _ _ Hprep Hpending Hs _ _ Hd Hok).
    eapply PathPublished; eassumption. }
  destruct (Prisma.retryCount p + 1 <? 3) eqn:Hn.
  - pose proof (processJob_failed_retry _ _ _ Hrow _ _ Hprep Hpending Hs _ _ Hd Hok Hn)
      as E.
    cbv zeta in E. rewrite E.
    exact (PathFailedRetry postId w p post w1 r w2 Hrow Hprep Hpending Hs Hd Hok Hn).
  - rewrite (processJob_failed_last _ _ _ Hrow _ _ Hprep Hpending Hs _ _ Hd Hok Hn).
    eapply PathFailedLast; eassumption.
Qed.

End JobPaths.

(** ** What a job leaves as it was *)

Section JobFrame.

Import Obs Trace Worker.

Lemma jobFrame_refl (postId : string) (w : World) : jobFrame postId w w.
Proof. unfold jobFrame. repeat split; try reflexivity; lia. Qed.

Lemma jobFrame_trans (postId : string) (a b c : World) :
  jobFrame postId a b -> jobFrame postId b c -> jobFrame postId a c.
Proof.
  intros (H1 & H2 & H3 & H4 & H5 & H6 & H7) (G1 & G2 & G3 & G4 & G5 & G6 & G7).
  unfold jobFrame. repeat split; try congruence; try lia.
  - intros other Ho. rewrite (G5 _ Ho). apply H5, Ho.
  - intros k Hk. rewrite G7; [apply H7, Hk|].
    unfold accountKeyOf in *.
    destruct (scheduledPost b !! postId) as [pb|], (scheduledPost a !! postId) as [pa|];
      unfold content in *; cbn in *; congruence.
Qed.

Lemma jobFrame_refreshOnly (postId : string) (w w1 : World) :
  refreshOnly (accountKeyOf w postId) w w1 -> jobFrame postId w w1.
Proof.
  intros (H1 & H2 & H3 & H4 & H5 & H6 & H7 & H8 & H9).
  unfold jobFrame. rewrite H4. repeat split; try assumption. 
Qed.

Lemma jobFrame_remoteOnly (postId : string) (w w1 : World) :
  remoteOnly w w1 -> jobFrame postId w w1.
Proof.
  intros (H1 & H2 & H3 & H4 & H5 & H6 & H7 & H8 & H9).
  unfold jobFrame. rewrite H4, H5. repeat split; try assumption.
Qed.

Lemma jobFrame_write (postId : string) (d : Prisma.PostData) (l : Prisma.JobLog)
    (p : Prisma.ScheduledPost) (w : World) :
  scheduledPost w !! postId = Some p ->
  jobFrame postId w (write postId d l p w).
Proof.
  intros Hp. unfold jobFrame, write. cbn. repeat split; try reflexivity; try lia.
  - intros other Ho. apply lookup_insert_ne. congruence.
  - rewrite lookup_insert_eq, Hp. reflexivity.
Qed.

(** The shape of the world after a job: a refresh, then the adapter,
    then no write, one write or two writes of the post and the job log. *)
Lemma processJob_shape (postId : string) (w : World) :
  exists w1 w2,
    refreshOnly (accountKeyOf w postId) w w1
    /\ remoteOnly w1 w2
    /\ (snd (processJob postId w) = w2
        \/ (exists p d l,
               scheduledPost w !! postId = Some p
               /\ Prisma.scheduledPostId l = postId
               /\ snd (processJob postId w) = write postId d l p w2)
        \/ (exists p d l d' l',
               scheduledPost w !! postId = Some p
               /\ Prisma.scheduledPostId l = postId
               /\ Prisma.scheduledPostId l' = postId
               /\ snd (processJob postId w)
                  = write postId d' l' (Prisma.applyData d p) (write postId d l p w2))).
Proof.
  pose proof (prepare_refreshOnly postId w) as Hprep.
  destruct (processJob_path postId w)
    as [Hrow | p e w1 Hrow Hp | p post w1 Hrow Hp Hst | p post w1 Hrow Hp Hst Hs
        | p post w1 r w2 Hrow Hp Hst Hs Hd Hok | p post w1 r w2 Hrow Hp Hst Hs Hd Hok Hn
        | p post w1 r w2 Hrow Hp Hst Hs Hd Hok Hn];
    try (rewrite Hp in Hprep; cbn [snd] in Hprep);
    try (pose proof (remoteOnly_dispatch post w1) as Hdis; rewrite Hd in Hdis;
         cbn [snd] in Hdis).
  - exists w, w. split; [apply refreshOnly_refl|]. split; [apply sentOnly_refl|].
    left. reflexivity.
  - exists w1, w1. split; [exact Hprep|]. split; [apply sentOnly_refl|].
    right. left. eexists p, _, _. split; [exact Hrow|]. split; [|reflexivity].
    reflexivity.
  - exists w1, w1. split; [exact Hprep|]. split; [apply sentOnly_refl|].
    left. reflexivity.
  - exists w1, w1. split; [exact Hprep|]. split; [apply sentOnly_refl|].
    right. left. eexists p, _, _. split; [exact Hrow|]. split; [|reflexivity].
    reflexivity.
  - exists w1, w2. split; [exact Hprep|]. split; [exact Hdis|].
    right. left. eexists p, _, _. split; [exact Hrow|]. split; [|reflexivity].
    reflexivity.
  - exists w1, w2. split; [exact Hprep|]. split; [exact Hdis|].
    right. left. eexists p, _, _. split; [exact Hrow|]. split; [|reflexivity].
    reflexivity.
  - exists w1, w2. split; [exact Hprep|]. split; [exact Hdis|].
    right. right. eexists p, _, _, _, _. split; [exact Hrow|].
    split; [|split; [|reflexivity]]; reflexivity.
Qed.

Lemma shape_row (postId : string) (w w1 w2 : World) (p : Prisma.ScheduledPost) :
  refreshOnly (accountKeyOf w postId) w w1 -> remoteOnly w1 w2 ->
  scheduledPost w !! postId = Some p -> scheduledPost w2 !! postId = Some p.
Proof.
  intros (_ & _ & _ & H4 & _) (_ & _ & _ & G4 & _) Hp. rewrite G4, H4. exact Hp.
Qed.

(** X6: a job writes no post other than its own, neither creates nor
    deletes its post, keeps the columns of the post that describe what is
    to be published, writes no account other than the one of its post,
    and leaves the environment as it was. *)
Theorem job_touches_only_its_post (postId : string) (w : World) :
  let w' := snd (processJob postId w) in
  (forall other, other <> postId ->
      scheduledPost w' !! other = scheduledPost w !! other)
  /\ content <$> (scheduledPost w' !! postId) = content <$> (scheduledPost w !! postId)
  /\ (forall k, Some k <> accountKeyOf w postId ->
        socialAccount w' !! k = socialAccount w !! k)
  /\ appId w' = appId w /\ appSecret w' = appSecret w.
Proof.
  cbv zeta.
  assert (H : jobFrame postId w (snd (processJob postId w))).
  { destruct (processJob_shape postId w)
      as (w1 & w2 & Hprep & Hdis & [E | [(p & d & l & Hrow & _ & E)
                                        | (p & d & l & d' & l' & Hrow & _ & _ & E)]]);
      rewrite E;
      pose proof (jobFrame_trans _ _ _ _ (jobFrame_refreshOnly _ _ _ Hprep)
                    (jobFrame_remoteOnly postId _ _ Hdis)) as H12.
    - exact H12.
    - eapply jobFrame_trans; [exact H12|].
      apply jobFrame_write. eapply shape_row; eassumption.
    - eapply jobFrame_trans; [exact H12|].
      eapply jobFrame_trans; [apply jobFrame_write; eapply shape_row; eassumption|].
      apply jobFrame_write. apply write_row. }
  destruct H as (H1 & H2 & H3 & H4 & H5 & H6 & H7). repeat split; assumption.
Qed.

(** X7: the job logs and the post updates of a job are appended to the
    ones that were there; a job writes as many job logs as updates, at
    most two of each, all of them for its own post. *)
Theorem job_records (postId : string) (w : World) :
  exists logs updates,
    written w (snd (processJob postId w)) logs updates
    /\ length logs = length updates
    /\ (length logs <= 2)%nat
    /\ Forall (fun l => Prisma.scheduledPostId l = postId) logs
    /\ Forall (fun u => fst u = postId) updates.
Proof.
  destruct (processJob_shape postId w)
    as (w1 & w2 & Hprep & Hdis & [E | [(p & d & l & Hrow & Hl & E)
                                      | (p & d & l & d' & l' & Hrow & Hl & Hl' & E)]]);
    rewrite E;
    destruct Hprep as (_ & _ & _ & _ & H5 & H6 & _);
    destruct Hdis as (_ & _ & _ & _ & _ & G6 & G7 & _).
  - exists [], []. unfold written. rewrite !app_nil_r.
    repeat split; try congruence; try (cbn; lia); constructor.
  - exists [l], [(postId, d)]. unfold written, write. cbn.
    rewrite G6, G7, H5, H6. repeat split; try lia; repeat constructor; assumption.
  - exists [l; l'], [(postId, d); (postId, d')]. unfold written, write. cbn.
    rewrite G6, G7, H5, H6, <- !app_assoc. cbn.
    repeat split; try lia; repeat constructor; assumption.
Qed.

End JobFrame.

(** ** What a job returns and what it leaves in the post *)

Section JobOutcome.

Import Obs Trace Worker.

Lemma retry_gate (c : Z) : (c + 1 <? 3) = (c <? 2).
Proof. destruct (Z.ltb_spec (c + 1) 3), (Z.ltb_spec c 2); try reflexivity; lia. Qed.

Lemma statusOf_write (postId : string) (d : Prisma.PostData) (l : Prisma.JobLog)
    (p : Prisma.ScheduledPost) (w : World) :
  statusOf (write postId d l p w) postId = Some (Prisma.status (Prisma.applyData d p)).
Proof. unfold statusOf. rewrite write_row. reflexivity. Qed.

Lemma retryCountOf_write (postId : string) (d : Prisma.PostData) (l : Prisma.JobLog)
    (p : Prisma.ScheduledPost) (w : World) :
  retryCountOf (write postId d l p w) postId
  = Some (Prisma.retryCount (Prisma.applyData d p)).
Proof. unfold retryCountOf. rewrite write_row. reflexivity. Qed.

Lemma prepared_posts (postId : string) (w w1 : World)
    (c : Completion PlatformPost.ScheduledPost) :
  PostsService.preparePostForPublishing postId w = (c, w1) ->
  scheduledPost w1 = scheduledPost w.
Proof.
  intros H. pose proof (postsKept_prepare postId w) as K. rewrite H in K.
  destruct K as (_ & K & _). exact K.
Qed.

(** X8: what a job returns agrees with the status it leaves: it throws
    to the queue exactly when it leaves the post pending; it returns a
    published result only with the post published, a failure only with the
    post failed or missing, and a skip only with the status as it was, not
    pending. *)
Theorem job_return_matches_status (postId : string) (w : World) :
  let w' := snd (processJob postId w) in
  match fst (processJob postId w) with
  | Throw _ => statusOf w' postId = Some Prisma.PENDING
  | Normal (Published _ _) => statusOf w' postId = Some Prisma.PUBLISHED
  | Normal (Failure _ _ _) =>
      statusOf w' postId = Some Prisma.FAILED
      \/ (statusOf w' postId = None /\ statusOf w postId = None)
  | Normal (Skipped _) =>
      statusOf w' postId = statusOf w postId
      /\ statusOf w postId <> Some Prisma.PENDING
  end
  /\ (thrown (fst (processJob postId w)) = true
      <-> statusOf w' postId = Some Prisma.PENDING).
Proof.
  cbv zeta.
  destruct (processJob_path postId w)
    as [Hrow | p e w1 Hrow Hp | p post w1 Hrow Hp Hst | p post w1 Hrow Hp Hst Hs
        | p post w1 r w2 Hrow Hp Hst Hs Hd Hok | p post w1 r w2 Hrow Hp Hst Hs Hd Hok Hn
        | p post w1 r w2 Hrow Hp Hst Hs Hd Hok Hn]; cbn [fst snd].
  - unfold statusOf. rewrite Hrow. cbn. split; [right; split; reflexivity|].
    split; discriminate.
  - rewrite statusOf_write. cbn. rewrite retry_gate.
    destruct (Prisma.retryCount p <? 2); cbn; split; try reflexivity;
      try (left; reflexivity); split; try discriminate; reflexivity.
  - unfold statusOf. rewrite (prepared_posts _ _ _ _ Hp), Hrow. cbn.
    split; [split; [reflexivity | congruence]|]. split; [discriminate | congruence].
  - rewrite statusOf_write. cbn. rewrite retry_gate.
    destruct (Prisma.retryCount p <? 2); cbn; split; try reflexivity;
      try (left; reflexivity); split; try discriminate; reflexivity.
  - rewrite statusOf_write. cbn. split; [reflexivity|]. split; discriminate.
  - rewrite statusOf_write. cbn. rewrite Hn. cbn.
    split; [left; reflexivity|]. split; discriminate.
  - cbv zeta. cbn [fst snd]. rewrite statusOf_write. cbn. rewrite retry_gate.
    destruct (Prisma.retryCount p + 1 <? 2); cbn; split; try reflexivity;
      try (left; reflexivity); split; try discriminate; reflexivity.
Qed.

(** X9: a job changes the retry counter of its post by 0, 1 or 2, and
    leaves it as it was exactly when it skipped or published. *)
Theorem job_retry_counter (postId : string) (w : World) (p : Prisma.ScheduledPost) :
  scheduledPost w !! postId = Some p ->
  exists c',
    retryCountOf (snd (processJob postId w)) postId = Some c'
    /\ (c' = Prisma.retryCount p \/ c' = Prisma.retryCount p + 1
        \/ c' = Prisma.retryCount p + 2)
    /\ (c' = Prisma.retryCount p <-> uncounted (fst (processJob postId w)) = true)
    /\ (c' = Prisma.retryCount p + 2 ->
        Prisma.status p = Prisma.PENDING /\ Prisma.retryCount p < 2).
Proof.
  intros Hp0.
  destruct (processJob_path postId w)
    as [Hrow | q e w1 Hrow Hp | q post w1 Hrow Hp Hst | q post w1 Hrow Hp Hst Hs
        | q post w1 r w2 Hrow Hp Hst Hs Hd Hok | q post w1 r w2 Hrow Hp Hst Hs Hd Hok Hn
        | q post w1 r w2 Hrow Hp Hst Hs Hd Hok Hn];
    rewrite Hp0 in Hrow; try discriminate Hrow; injection Hrow as <-; cbn [fst snd].
  - rewrite retryCountOf_write. cbn. eexists. split; [reflexivity|].
    split; [right; left; reflexivity|]. split; [|lia].
    destruct (Prisma.retryCount p <? 2); cbn; split; try lia; discriminate.
  - unfold retryCountOf. rewrite (prepared_posts _ _ _ _ Hp), Hp0. cbn.
    eexists. split; [reflexivity|]. split; [left; reflexivity|].
    split; [split; reflexivity | lia].
  - rewrite retryCountOf_write. cbn. eexists. split; [reflexivity|].
    split; [right; left; reflexivity|]. split; [|lia].
    destruct (Prisma.retryCount p <? 2); cbn; split; try lia; discriminate.
  - rewrite retryCountOf_write. cbn. eexists. split; [reflexivity|].
    split; [left; reflexivity|]. split; [split; reflexivity | lia].
  - rewrite retryCountOf_write. cbn. eexists. split; [reflexivity|].
    split; [right; left; reflexivity|]. split; [|lia]. split; [lia | discriminate].
  - cbv zeta. cbn [fst snd]. rewrite retryCountOf_write. cbn.
    eexists. split; [reflexivity|].
    apply Z.ltb_lt in Hn.
    split; [right; right; lia|]. split.
    + destruct (Prisma.retryCount p + 1 <? 2); cbn; split; try lia; discriminate.
    + intros _. split; [exact Hst | lia].
Qed.

Lemma job_retry_counter_sample :
  exists c',
    retryCountOf (snd (processJob "post-1" Samples.rejectedUpload)) "post-1" = Some c'
    /\ (c' = 0 \/ c' = 0 + 1 \/ c' = 0 + 2)
    /\ (c' = 0 <-> uncounted (fst (processJob "post-1" Samples.rejectedUpload)) = true)
    /\ (c' = 0 + 2 -> Prisma.PENDING = Prisma.PENDING /\ 0 < 2).
Proof.
  apply (job_retry_counter "post-1" Samples.rejectedUpload
           (Samples.post "instagram" Platform.IMAGE Prisma.PENDING 0 [Samples.photo])).
  reflexivity.
Defined.

End JobOutcome.

(** ** The requests of a job *)

Section JobRequests.

Import Obs Trace Worker.

Lemma dispatch_trace (post : PlatformPost.ScheduledPost) (w : World) :
  exists r w' timeout,
    dispatch post w = (Normal r, w')
    /\ protocolRun w w' r (accountOf post) (tokenOf post) timeout.
Proof.
  unfold dispatch. destruct (Platform.PostType_eqb _ _).
  - destruct (publishReel_trace post w) as (r & w' & E & H). eauto.
  - destruct (publishPost_trace post w) as (r & w' & E & H). eauto.
Qed.

(** The requests of a job are those of the refresh followed by those of
    the adapter, and the adapter is only reached for a pending post on a
    platform that has an adapter. *)
Lemma job_requests (postId : string) (w : World) :
  exists refresh publishing,
    requestsOf (processJob postId) w = (refresh ++ publishing)%list
    /\ Forall isRefresh refresh
    /\ (publishing = []
        \/ exists p post w1,
             scheduledPost w !! postId = Some p
             /\ Prisma.status p = Prisma.PENDING
             /\ PlatformFactory.isSupported (Prisma.platform p) = true
             /\ PostsService.preparePostForPublishing postId w = (Normal post, w1)
             /\ publishing = requestsOf (dispatch post) w1).
Proof.
  pose proof (prepare_refreshOnly postId w) as Hprep.
  assert (Hdone : forall w1 w',
             refreshOnly (accountKeyOf w postId) w w1 ->
             sent w' = sent w1 -> snd (processJob postId w) = w' ->
             exists refresh publishing,
               requestsOf (processJob postId) w = (refresh ++ publishing)%list
               /\ Forall isRefresh refresh
               /\ (publishing = []
                   \/ exists p post w1,
                        scheduledPost w !! postId = Some p
                        /\ Prisma.status p = Prisma.PENDING
                        /\ PlatformFactory.isSupported (Prisma.platform p) = true
                        /\ PostsService.preparePostForPublishing postId w
                           = (Normal post, w1)
                        /\ publishing = requestsOf (dispatch post) w1)).
  { intros w1 w' (_ & _ & _ & _ & _ & _ & _ & (more & Hm & Pm) & _) Hs E.
    exists more, []. split; [|split; [exact Pm | left; reflexivity]].
    apply requestsOf_app. rewrite E, Hs, Hm, app_nil_r. reflexivity. }
  assert (Hboth : forall p post w1 r w2 w',
             scheduledPost w !! postId = Some p ->
             Prisma.status p = Prisma.PENDING ->
             PlatformFactory.isSupported (Prisma.platform p) = true ->
             PostsService.preparePostForPublishing postId w = (Normal post, w1) ->
             dispatch post w1 = (Normal r, w2) ->
             sent w' = sent w2 -> snd (processJob postId w) = w' ->
             exists refresh publishing,
               requestsOf (processJob postId) w = (refresh ++ publishing)%list
               /\ Forall isRefresh refresh
               /\ (publishing = []
                   \/ exists p post w1,
                        scheduledPost w !! postId = Some p
                        /\ Prisma.status p = Prisma.PENDING
                        /\ PlatformFactory.isSupported (Prisma.platform p) = true
                        /\ PostsService.preparePostForPublishing postId w
                           = (Normal post, w1)
                        /\ publishing = requestsOf (dispatch post) w1)).
  { intros p post w1 r w2 w' Hrow Hst Hs Hp Hd Hsent E.
    rewrite Hp in Hprep. cbn [snd] in Hprep.
    destruct Hprep as (_ & _ & _ & _ & _ & _ & _ & (more & Hm & Pm) & _).
    pose proof (remoteOnly_dispatch post w1) as Hdis. rewrite Hd in Hdis.
    destruct Hdis as (_ & _ & _ & _ & _ & _ & _ & _ & (more2 & Hm2 & _)).
    cbn [snd] in Hm2.
    exists more, more2. split; [|split; [exact Pm|]].
    - apply requestsOf_app. rewrite E, Hsent, Hm2, Hm, app_assoc. reflexivity.
    - right. exists p, post, w1. repeat split; try assumption.
      symmetry. apply requestsOf_app. rewrite Hd. exact Hm2. }
  destruct (processJob_path postId w)
    as [Hrow | p e w1 Hrow Hp | p post w1 Hrow Hp Hst | p post w1 Hrow Hp Hst Hs
        | p post w1 r w2 Hrow Hp Hst Hs Hd Hok | p post w1 r w2 Hrow Hp Hst Hs Hd Hok Hn
        | p post w1 r w2 Hrow Hp Hst Hs Hd Hok Hn];
    try (rewrite Hp in Hprep; cbn [snd] in Hprep).
  - apply (Hdone w w); [apply refreshOnly_refl | reflexivity | reflexivity].
  - eapply (Hdone w1 _ Hprep); cycle 1; reflexivity.
  - eapply (Hdone w1 _ Hprep); cycle 1; reflexivity.
  - eapply (Hdone w1 _ Hprep); cycle 1; reflexivity.
  - eapply (Hboth p post w1 r w2 _ Hrow Hst Hs Hp Hd); cycle 1; reflexivity.
  - eapply (Hboth p post w1 r w2 _ Hrow Hst Hs Hp Hd); cycle 1; reflexivity.
  - eapply (Hboth p post w1 r w2 _ Hrow Hst Hs Hp Hd); cycle 1; reflexivity.
Qed.

End JobRequests.

(** ** Further properties of one job and of consecutive jobs *)

Section JobFurther.

Import Obs Trace Worker.

(** X10: a job returns a published result only for a post that was
    pending, after the platform has answered the publish request and the
    request for the permalink within this job; the post is then stored as
    published with the platform's id, the time of the write, no error
    message and the retry counter it had. *)
Theorem job_published (postId : string) (w : World) (pid : option string) (t : Z) :
  fst (processJob postId w) = Normal (Published pid t) ->
  let w' := snd (processJob postId w) in
  exists p p' ident,
    scheduledPost w !! postId = Some p
    /\ Prisma.status p = Prisma.PENDING
    /\ scheduledPost w' !! postId = Some p'
    /\ pid = Some ident
    /\ Prisma.publishFields p'
       = (Prisma.PUBLISHED, Prisma.retryCount p, None, Some ident, Some (now w'))
    /\ t = now w' - now w
    /\ exists ig cid tok,
         In (MediaPublish ig cid tok) (requestsOf (processJob postId) w)
         /\ In (PostInfo ident tok) (requestsOf (processJob postId) w).
Proof.
  cbv zeta. unfold requestsOf.
  pose proof (prepare_refreshOnly postId w) as K.
  destruct (processJob_path postId w)
    as [Hrow | p e w1 Hrow Hp | p post w1 Hrow Hp Hst | p post w1 Hrow Hp Hst Hs
        | p post w1 r w2 Hrow Hp Hst Hs Hd Hok | p post w1 r w2 Hrow Hp Hst Hs Hd Hok Hn
        | p post w1 r w2 Hrow Hp Hst Hs Hd Hok Hn]; cbn [fst snd]; intros E;
    try discriminate E;
    try (destruct (Prisma.retryCount p <? 2); discriminate E);
    try (cbv zeta in E; cbn [fst] in E;
         destruct (Prisma.retryCount _ <? 2); discriminate E).
  injection E as <- <-.
  destruct (dispatch_trace post w1) as (r' & w2' & timeout & Hd' & Hrun).
  rewrite Hd in Hd'. injection Hd' as <- <-.
  destruct Hrun as (creates & cid & n & tail & Hsent & _ & _ & _ & _ & Hres).
  destruct Hres as [(ident & url & Hr & ->)|(msg & Hr)];
    [|rewrite Hr in Hok; discriminate Hok].
  rewrite Hp in K.
  destruct K as (_ & _ & _ & _ & _ & _ & _ & (more & Hm & _) & _). cbn [snd] in Hm.
  exists p, (Prisma.applyData (publishedData r (now w2)) p), ident.
  split; [exact Hrow|]. split; [exact Hst|]. split; [apply write_row|].
  rewrite Hr. cbn. repeat split.
  exists (accountOf post), cid, (tokenOf post).
  rewrite Hsent, Hm, <- app_assoc, drop_app_length.
  split; apply in_or_app; right; apply in_or_app; right;
    apply in_or_app; right; cbn; auto.
Qed.

Lemma job_published_sample :
  exists ident,
    In (PostInfo ident "stored-token")
      (requestsOf (processJob "post-1") Samples.quiet).
Proof.
  destruct (job_published "post-1" Samples.quiet (Some "media-1") 400)
    as (p & p' & ident & _ & _ & _ & _ & _ & _ & ig & cid & tok & _ & Hin);
    [vm_compute; reflexivity|].
  exists "media-1". vm_compute. right. right. right. left. reflexivity.
Defined.

(** X11: a job for a post that does not exist sends nothing and writes
    nothing; it returns a failure result to the queue and does not throw,
    so the queue does not retry it. *)
Theorem job_for_missing_post (postId : string) (w : World) :
  scheduledPost w !! postId = None ->
  processJob postId w = (Normal (Failure (Some "Post not found") None 0), w).
Proof.
  intros H. rewrite processJob_eq. unfold tryCatch.
  rewrite (attempt_prepare_throws _ _ _ _ _ (prepare_missing _ _ H)).
  rewrite (recover_missing _ _ _ _ H). rewrite Z.sub_diag. reflexivity.
Qed.

Lemma job_for_missing_post_sample :
  processJob "post-2" Samples.quiet
  = (Normal (Failure (Some "Post not found") None 0), Samples.quiet).
Proof. apply (job_for_missing_post "post-2" Samples.quiet). reflexivity. Defined.

(** X12: a job sends a request other than those of the token refresh
    only for a post that is pending and whose platform has an adapter:
    nothing is created or published for a post that is missing, published,
    failed or cancelled. *)
Theorem job_publishes_only_pending (postId : string) (w : World) (r : Request) :
  In r (requestsOf (processJob postId) w) ->
  ~ isRefresh r ->
  exists p,
    scheduledPost w !! postId = Some p
    /\ Prisma.status p = Prisma.PENDING
    /\ PlatformFactory.isSupported (Prisma.platform p) = true.
Proof.
  destruct (job_requests postId w) as (refresh & publishing & -> & Href & Hpub).
  intros Hin Hr. apply in_app_or in Hin. destruct Hin as [Hin|Hin].
  { exfalso. apply Hr. rewrite Forall_forall in Href.
    apply Href, list_elem_of_In, Hin. }
  destruct Hpub as [->|(p & post & w1 & Hrow & Hst & Hs & _)]; [destruct Hin|].
  exists p. repeat split; assumption.
Qed.

Lemma job_publishes_only_pending_sample :
  exists p,
    scheduledPost Samples.quiet !! "post-1" = Some p
    /\ Prisma.status p = Prisma.PENDING
    /\ PlatformFactory.isSupported (Prisma.platform p) = true.
Proof.
  apply (job_publishes_only_pending "post-1" Samples.quiet
           (MediaPublish "17841400000000000" "container" "stored-token")).
  - vm_compute. right. right. left. reflexivity.
  - intros H. exact H.
Defined.

(** What a job that throws has done to the counter. *)
Lemma thrown_job (postId : string) (w : World) (p : Prisma.ScheduledPost) :
  scheduledPost w !! postId = Some p ->
  thrown (fst (processJob postId w)) = true ->
  Prisma.retryCount p < 2
  /\ exists p',
       scheduledPost (snd (processJob postId w)) !! postId = Some p'
       /\ Prisma.retryCount p + 1 <= Prisma.retryCount p'.
Proof.
  intros Hp0.
  destruct (processJob_path postId w)
    as [Hrow | q e w1 Hrow Hp | q post w1 Hrow Hp Hst | q post w1 Hrow Hp Hst Hs
        | q post w1 r w2 Hrow Hp Hst Hs Hd Hok | q post w1 r w2 Hrow Hp Hst Hs Hd Hok Hn
        | q post w1 r w2 Hrow Hp Hst Hs Hd Hok Hn];
    rewrite Hp0 in Hrow; try discriminate Hrow; injection Hrow as <-; cbn [fst snd];
    intros E; try discriminate E.
  - destruct (Z.ltb_spec (Prisma.retryCount p) 2); [|discriminate E].
    split; [assumption|]. eexists. split; [apply write_row|]. cbn. lia.
  - destruct (Z.ltb_spec (Prisma.retryCount p) 2); [|discriminate E].
    split; [assumption|]. eexists. split; [apply write_row|]. cbn. lia.
  - cbv zeta in E |- *. cbn [fst snd] in E |- *. apply Z.ltb_lt in Hn.
    split; [lia|]. eexists. split; [apply write_row|]. cbn. lia.
Qed.

(** X13: of three consecutive jobs for the same post, whose retry
    counter starts at zero or above, at most two throw: when the first and
    the second job throw, the third returns to the queue. *)
Theorem third_job_returns (postId : string) (w : World) (p : Prisma.ScheduledPost) :
  scheduledPost w !! postId = Some p ->
  0 <= Prisma.retryCount p ->
  thrown (fst (processJob postId w)) = true ->
  thrown (fst (processJob postId (afterJobs 1 postId w))) = true ->
  thrown (fst (processJob postId (afterJobs 2 postId w))) = false.
Proof.
  intros Hrow H0 T1 T2. cbn [afterJobs] in *.
  destruct (thrown_job _ _ _ Hrow T1) as (_ & p1 & Hrow1 & H1).
  destruct (thrown_job _ _ _ Hrow1 T2) as (_ & p2 & Hrow2 & H2).
  destruct (thrown (fst (processJob postId
              (snd (processJob postId (snd (processJob postId w))))))) eqn:T3;
    [|reflexivity].
  destruct (thrown_job _ _ _ Hrow2 T3) as (H3 & _). lia.
Qed.

Lemma third_job_returns_sample :
  thrown (fst (processJob "post-1" (afterJobs 2 "post-1" Samples.unknownPlatform)))
  = false.
Proof.
  apply (third_job_returns "post-1" Samples.unknownPlatform
           (Samples.post "youtube" Platform.IMAGE Prisma.PENDING 0 [Samples.photo])).
  - reflexivity.
  - cbn. lia.
  - vm_compute. reflexivity.
  - vm_compute. reflexivity.
Defined.

(** X14: whenever a job counts a failure, it leaves the post pending
    with a counter below 3 or failed with a counter of 3 or more; the
    message of the failure is stored with it. *)
Theorem job_counted_failure (postId : string) (w : World) (p' : Prisma.ScheduledPost) :
  scheduledPost (snd (processJob postId w)) !! postId = Some p' ->
  uncounted (fst (processJob postId w)) = false ->
  ((Prisma.status p' = Prisma.PENDING /\ Prisma.retryCount p' < 3)
   \/ (Prisma.status p' = Prisma.FAILED /\ 3 <= Prisma.retryCount p'))
  /\ exists msg, Prisma.errorMessage p' = Some msg.
Proof.
  destruct (processJob_path postId w)
    as [Hrow | q e w1 Hrow Hp | q post w1 Hrow Hp Hst | q post w1 Hrow Hp Hst Hs
        | q post w1 r w2 Hrow Hp Hst Hs Hd Hok | q post w1 r w2 Hrow Hp Hst Hs Hd Hok Hn
        | q post w1 r w2 Hrow Hp Hst Hs Hd Hok Hn];
    cbv zeta; cbn [fst snd]; intros Hrow' E; try discriminate E;
    try (rewrite Hrow in Hrow'; discriminate Hrow');
    rewrite write_row in Hrow'; injection Hrow' as <-; cbn;
    (split; [|eexists; reflexivity]).
  - destruct (Z.ltb_spec (Prisma.retryCount q + 1) 3); [left | right]; split;
      try reflexivity; lia.
  - destruct (Z.ltb_spec (Prisma.retryCount q + 1) 3); [left | right]; split;
      try reflexivity; lia.
  - rewrite Hn. apply Z.ltb_ge in Hn. right. split; [reflexivity | lia].
  - destruct (Z.ltb_spec (Prisma.retryCount q + 1 + 1) 3); [left | right]; split;
      try reflexivity; lia.
Qed.

Lemma job_counted_failure_sample :
  ((Prisma.status MoreSamples.countedTwice = Prisma.PENDING
    /\ Prisma.retryCount MoreSamples.countedTwice < 3)
   \/ (Prisma.status MoreSamples.countedTwice = Prisma.FAILED
       /\ 3 <= Prisma.retryCount MoreSamples.countedTwice))
  /\ exists msg, Prisma.errorMessage MoreSamples.countedTwice = Some msg.
Proof.
  apply (job_counted_failure "post-1" Samples.rejectedUpload MoreSamples.countedTwice);
    vm_compute; reflexivity.
Defined.

End JobFurther.

(** ** The token refresh *)

Section Refresh.

Import Obs Trace.

Variables (accountId token : string) (w : World).

Lemma appCredentials_eq :
  InstagramAdapter.appCredentials w
  = match configured w with
    | Some app => (Normal app, w)
    | None => (Throw (newError "Instagram app credentials not configured"), w)
    end.
Proof.
  unfold InstagramAdapter.appCredentials, configured.
  destruct (appId w), (appSecret w); try reflexivity.
  destruct (Js.truthy_str _ && Js.truthy_str _); reflexivity.
Qed.

Lemma exchangeToken_eq (app : string * string) :
  GraphApi.exchangeToken token (fst app) (snd app) w
  = match outcome (remote w (sent w) (exchangeRequest app token)) with
    | Resolved d => (Normal d, afterRequest (exchangeRequest app token) w)
    | Rejected e =>
        (Throw (newError ("Failed to exchange token: " ++ GraphApi.remoteMessage e)),
         afterRequest (exchangeRequest app token) w)
    end.
Proof.
  unfold GraphApi.exchangeToken, GraphApi.rethrowAs, tryCatch, axios, afterRequest,
    exchangeRequest.
  destruct (outcome _); reflexivity.
Qed.

Lemma getAccountInfo_eq (tok : string) (w1 : World) :
  GraphApi.getAccountInfo accountId tok w1
  = match outcome (remote w1 (sent w1) (AccountInfo accountId tok)) with
    | Resolved d => (Normal d, afterRequest (AccountInfo accountId tok) w1)
    | Rejected e =>
        (Throw (newError ("Failed to get account info: " ++ GraphApi.remoteMessage e)),
         afterRequest (AccountInfo accountId tok) w1)
    end.
Proof.
  unfold GraphApi.getAccountInfo, GraphApi.rethrowAs, tryCatch, axios, afterRequest.
  destruct (outcome _); reflexivity.
Qed.

(** The refresh, by what the environment holds and the platform answers. *)
Lemma refreshToken_eq :
  InstagramAdapter.refreshToken accountId token w
  = match configured w with
    | None =>
        (Throw (newError ("Failed to refresh token: "
                            ++ "Instagram app credentials not configured")), w)
    | Some app =>
        let w1 := afterRequest (exchangeRequest app token) w in
        match outcome (remote w (sent w) (exchangeRequest app token)) with
        | Rejected e =>
            (Throw (newError ("Failed to refresh token: "
                                ++ ("Failed to exchange token: "
                                      ++ GraphApi.remoteMessage e))), w1)
        | Resolved d1 =>
            let w2 := afterRequest (accountRequest accountId d1) w1 in
            match outcome (remote w1 (sent w1) (accountRequest accountId d1)) with
            | Rejected e =>
                (Throw (newError ("Failed to refresh token: "
                                    ++ ("Failed to get account info: "
                                          ++ GraphApi.remoteMessage e))), w2)
            | Resolved d2 =>
                (Normal {| Platform.platformUserId := accountId;
                           Platform.platformUsername := data_username d2;
                           Platform.accessToken := data_access_token d1;
                           Platform.refreshToken := None;
                           Platform.tokenExpiresAt := Some (now w2 + lifetime d1) |},
                 w2)
            end
        end
    end.
Proof.
  unfold InstagramAdapter.refreshToken, tryCatch, bind.
  rewrite appCredentials_eq.
  destruct (configured w) as [app|]; [|reflexivity].
  rewrite exchangeToken_eq.
  destruct (outcome (remote w (sent w) (exchangeRequest app token))) as [d1|e];
    [|reflexivity].
  cbv zeta. rewrite getAccountInfo_eq. unfold accountRequest.
  destruct (outcome _) as [d2|e]; reflexivity.
Qed.

End Refresh.

Section RefreshFaults.

Import Obs Trace.

Lemma refreshToken_plain (accountId token : string) :
  Plain (InstagramAdapter.refreshToken accountId token).
Proof.
  intros w e w' H. rewrite refreshToken_eq in H.
  destruct (configured w) as [app|]; [|injection H as <- _; reflexivity].
  cbv zeta in H.
  destruct (outcome (remote w (sent w) (exchangeRequest app token))) as [d1|e1];
    [|injection H as <- _; reflexivity].
  destruct (outcome _) as [d2|e2]; [discriminate H|].
  injection H as <- _. reflexivity.
Qed.

End RefreshFaults.

Section RefreshClaims.

Import Obs Trace.

(** X15: the token refresh.  Every fault it throws is a plain error
    whose message starts with "Failed to refresh token: "; without
    application credentials it throws before anything is sent; and it
    returns only after the token exchange and the account request were
    both answered, with the exchanged token, the account id it was given
    and an expiry of [expires_in] seconds (5184000 when absent or zero)
    after the time of the second answer. *)
Theorem refreshToken_outcomes (accountId token : string) (w : World) :
  let res := InstagramAdapter.refreshToken accountId token w in
  (forall e, fst res = Throw e ->
      response e = None
      /\ exists reason, message e = "Failed to refresh token: " ++ reason)
  /\ (configured w = None -> thrown (fst res) = true /\ snd res = w)
  /\ (forall acct, fst res = Normal acct ->
        exists app d1 d2,
          configured w = Some app
          /\ requestsOf (InstagramAdapter.refreshToken accountId token) w
             = [exchangeRequest app token; accountRequest accountId d1]
          /\ outcome (remote w (sent w) (exchangeRequest app token)) = Resolved d1
          /\ outcome (remote w (sent w ++ [exchangeRequest app token])%list
                        (accountRequest accountId d1)) = Resolved d2
          /\ acct = {| Platform.platformUserId := accountId;
                       Platform.platformUsername := data_username d2;
                       Platform.accessToken := data_access_token d1;
                       Platform.refreshToken := None;
                       Platform.tokenExpiresAt :=
                         Some (now (snd res) + lifetime d1) |}).
Proof.
  cbv zeta. unfold requestsOf. rewrite refreshToken_eq.
  destruct (configured w) as [app|].
  2:{ cbn [fst snd]. split; [|split].
      - intros e [= <-]. split; [reflexivity | eexists; reflexivity].
      - intros _. split; reflexivity.
      - intros acct E. discriminate E. }
  cbv zeta.
  destruct (outcome (remote w (sent w) (exchangeRequest app token))) as [d1|e1] eqn:E1.
  2:{ cbn [fst snd]. split; [|split].
      - intros e [= <-]. split; [reflexivity | eexists; reflexivity].
      - intros E. discriminate E.
      - intros acct E. discriminate E. }
  destruct (outcome (remote (afterRequest (exchangeRequest app token) w) _ _))
    as [d2|e2] eqn:E2.
  2:{ cbn [fst snd]. split; [|split].
      - intros e [= <-]. split; [reflexivity | eexists; reflexivity].
      - intros E. discriminate E.
      - intros acct E. discriminate E. }
  cbn [fst snd]. split; [|split].
  - intros e E. discriminate E.
  - intros E. discriminate E.
  - intros acct [= <-]. exists app, d1, d2. split; [reflexivity|].
    split; [|split; [exact E1|split; [exact E2 | reflexivity]]].
    cbn. rewrite <- app_assoc. apply drop_app_length.
Qed.

Lemma refreshToken_outcomes_sample :
  exists app d1,
    requestsOf (InstagramAdapter.refreshToken "17841400000000000" "stored-token")
      MoreSamples.expiredToken
    = [exchangeRequest app "stored-token"; accountRequest "17841400000000000" d1].
Proof.
  destruct (refreshToken_outcomes "17841400000000000" "stored-token"
              MoreSamples.expiredToken) as (_ & _ & H).
  edestruct H as (app & d1 & d2 & _ & Hreq & _); [vm_compute; reflexivity|].
  exists app, d1. exact Hreq.
Defined.

End RefreshClaims.

(** ** The preparation step *)

Section PreparationClaims.

Import Obs Trace PostsService.

Lemma prepare_eq (postId : string) (w : World) (p : Prisma.ScheduledPost)
    (a : Prisma.SocialAccount) :
  scheduledPost w !! postId = Some p ->
  socialAccount w !! Prisma.socialAccountId p = Some a ->
  expired (Prisma.tokenExpiresAt a) (now w) = true ->
  PlatformFactory.isSupported (Prisma.platform p) = true ->
  forall (c : Completion Platform.ConnectedAccount) (w1 : World),
    InstagramAdapter.refreshToken (Prisma.platformUserId a) (refreshWith a) w = (c, w1) ->
    match c with
    | Throw e => preparePostForPublishing postId w = (Throw e, w1)
    | Normal acct =>
        exists post,
          preparePostForPublishing postId w
          = (Normal post,
             setAccounts
               (<[Prisma.socialAccountId p :=
                    {| Prisma.platformUserId := Prisma.platformUserId a;
                       Prisma.accessToken := Platform.accessToken acct;
                       Prisma.refreshToken := Prisma.refreshToken a;
                       Prisma.tokenExpiresAt :=
                         match Platform.tokenExpiresAt acct with
                         | Some t => Some t
                         | None => Prisma.tokenExpiresAt a
                         end |}]> (socialAccount w1)) w1)
          /\ PlatformPost.accessToken post = Some (Platform.accessToken acct)
          /\ PlatformPost.igAccountId post = Some (Prisma.platformUserId a)
    end.
Proof.
  intros Hp Ha He Hs c w1 Hr.
  unfold preparePostForPublishing, bind, findUnique, findAccount.
  rewrite Hp, Ha. cbn [dateNow]. rewrite He.
  rewrite (getAdapter_supported _ _ Hs).
  cbn [PlatformFactory.refreshToken PlatformFactory.instagramAdapter].
  fold (refreshWith a). rewrite Hr.
  destruct c as [acct|e]; [|reflexivity].
  pose proof (sentOnly_refreshToken (Prisma.platformUserId a) (refreshWith a) w) as K.
  rewrite Hr in K. destruct K as (_ & _ & _ & _ & K & _). cbn [snd] in K.
  unfold updateAccount. rewrite K, Ha. eexists. split; [|split]; reflexivity.
Qed.

(** X16: the preparation step on an expired token, when the platform
    answers the refresh: the refresh is asked with the stored refresh
    token, or with the access token when there is none; the account row
    gets the new access token and the new expiry, and keeps its refresh
    token and its platform user id; the prepared post carries the new
    access token; no post and no job log is written. *)
Theorem prepare_refreshes_expired_token (postId : string) (w : World)
    (p : Prisma.ScheduledPost) (a : Prisma.SocialAccount) (app : string * string)
    (d1 d2 : Payload) :
  scheduledPost w !! postId = Some p ->
  socialAccount w !! Prisma.socialAccountId p = Some a ->
  expired (Prisma.tokenExpiresAt a) (now w) = true ->
  PlatformFactory.isSupported (Prisma.platform p) = true ->
  configured w = Some app ->
  outcome (remote w (sent w) (exchangeRequest app (refreshWith a))) = Resolved d1 ->
  outcome (remote w (sent w ++ [exchangeRequest app (refreshWith a)])%list
             (accountRequest (Prisma.platformUserId a) d1)) = Resolved d2 ->
  exists post w1,
    preparePostForPublishing postId w = (Normal post, w1)
    /\ PlatformPost.accessToken post = Some (data_access_token d1)
    /\ PlatformPost.igAccountId post = Some (Prisma.platformUserId a)
    /\ socialAccount w1 !! Prisma.socialAccountId p
       = Some (refreshedAccount a (data_access_token d1) (now w1 + lifetime d1))
    /\ requestsOf (preparePostForPublishing postId) w
       = [exchangeRequest app (refreshWith a);
          accountRequest (Prisma.platformUserId a) d1]
    /\ postsKept w w1.
Proof.
  intros Hp Ha He Hs Hc H1 H2.
  pose proof (refreshToken_eq (Prisma.platformUserId a) (refreshWith a) w) as Hr.
  rewrite Hc in Hr. cbv zeta in Hr. rewrite H1 in Hr.
  change (sent (afterRequest (exchangeRequest app (refreshWith a)) w))
    with (sent w ++ [exchangeRequest app (refreshWith a)])%list in Hr.
  change (remote (afterRequest (exchangeRequest app (refreshWith a)) w))
    with (remote w) in Hr.
  rewrite H2 in Hr.
  destruct (prepare_eq postId w p a Hp Ha He Hs _ _ Hr) as (post & Hprep & Htok & Hig).
  cbn in Htok.
  eexists post, _. split; [exact Hprep|]. split; [exact Htok|]. split; [exact Hig|].
  split; [|split].
  - cbn. rewrite lookup_insert_eq. reflexivity.
  - unfold requestsOf. rewrite Hprep. cbn. rewrite <- app_assoc. apply drop_app_length.
  - pose proof (postsKept_prepare postId w) as K. rewrite Hprep in K. exact K.
Qed.

Lemma prepare_refreshes_expired_token_sample :
  exists post w1,
    preparePostForPublishing "post-1" MoreSamples.expiredToken = (Normal post, w1)
    /\ PlatformPost.accessToken post = Some "fresh-token"
    /\ socialAccount w1 !! "account-1"
       = Some (refreshedAccount (Samples.account (Some 5)) "fresh-token"
                 (now w1 + 3600 * 1000)).
Proof.
  destruct (prepare_refreshes_expired_token "post-1" MoreSamples.expiredToken
              (Samples.post "instagram" Platform.IMAGE Prisma.PENDING 0 [Samples.photo])
              (Samples.account (Some 5)) ("app-id", "app-secret")
              (Samples.payload "object" "FINISHED") (Samples.payload "object" "FINISHED"))
    as (post & w1 & H1 & H2 & _ & H3 & _); try reflexivity.
  exists post, w1. split; [exact H1|]. split; [exact H2 | exact H3].
Defined.

(** X17: a preparation step that throws has written nothing: posts, job
    logs and accounts are as they were, so a failed refresh leaves the
    stored token in place. *)
Theorem prepare_fault_writes_nothing (postId : string) (w w1 : World) (e : JsError) :
  preparePostForPublishing postId w = (Throw e, w1) ->
  socialAccount w1 = socialAccount w
  /\ scheduledPost w1 = scheduledPost w
  /\ jobLog w1 = jobLog w
  /\ postUpdates w1 = postUpdates w
  /\ response e = None.
Proof.
  intros H.
  destruct (scheduledPost w !! postId) as [p|] eqn:Hp.
  2:{ rewrite (prepare_missing _ _ Hp) in H. injection H as <- <-.
      repeat split; reflexivity. }
  destruct (socialAccount w !! Prisma.socialAccountId p) as [a|] eqn:Ha.
  2:{ revert H. unfold preparePostForPublishing, bind, findUnique, findAccount.
      rewrite Hp, Ha. intros [= <- <-]. repeat split; reflexivity. }
  destruct (expired (Prisma.tokenExpiresAt a) (now w)) eqn:He.
  2:{ destruct (prepare_fresh postId w p a Hp Ha He) as (post & K).
      rewrite K in H. discriminate H. }
  destruct (PlatformFactory.isSupported (Prisma.platform p)) eqn:Hs.
  2:{ destruct (prepare_unsupported postId w p a Hp Ha Hs) as [(post & K)|K];
        rewrite K in H; [discriminate H|].
      injection H as <- <-. repeat split; reflexivity. }
  destruct (InstagramAdapter.refreshToken (Prisma.platformUserId a) (refreshWith a) w)
    as [c w2] eqn:Hr.
  pose proof (prepare_eq postId w p a Hp Ha He Hs c w2 Hr) as K.
  destruct c as [acct|e2].
  { destruct K as (post & K & _). rewrite K in H. discriminate H. }
  rewrite K in H. injection H as <- <-.
  pose proof (sentOnly_refreshToken (Prisma.platformUserId a) (refreshWith a) w) as F.
  rewrite Hr in F. destruct F as (_ & _ & _ & F4 & F5 & F6 & F7 & _). cbn [snd] in *.
  repeat split; try assumption.
  apply (refreshToken_plain _ _ _ _ _ Hr).
Qed.

Lemma prepare_fault_writes_nothing_sample :
  exists w1,
    socialAccount w1 = socialAccount Samples.pendingExpired
    /\ sent w1 = [ExchangeToken "app-id" "app-secret" "stored-token"].
Proof.
  eexists. split.
  - apply (prepare_fault_writes_nothing "post-1" Samples.pendingExpired _
             (newError
                "Failed to refresh token: Failed to exchange token: Invalid parameter")).
    vm_compute. reflexivity.
  - reflexivity.
Defined.

Lemma requestsOf_same {A} (c : M A) (w : World) :
  sent (snd (c w)) = sent w -> requestsOf c w = [].
Proof. intros H. unfold requestsOf. rewrite H. apply drop_all. Qed.

(** X18: the preparation step sends a request only when the account has
    an expiry date that is not after the current time, the platform of the
    post has an adapter and the application credentials are set; an
    account without expiry date is never refreshed. *)
Theorem prepare_requests_only_when_expired (postId : string) (w : World) (r : Request) :
  In r (requestsOf (preparePostForPublishing postId) w) ->
  exists p a t,
    scheduledPost w !! postId = Some p
    /\ socialAccount w !! Prisma.socialAccountId p = Some a
    /\ Prisma.tokenExpiresAt a = Some t /\ t <= now w
    /\ PlatformFactory.isSupported (Prisma.platform p) = true
    /\ is_Some (configured w).
Proof.
  intros Hin.
  assert (Hnone : sent (snd (preparePostForPublishing postId w)) = sent w -> False).
  { intros E. rewrite (requestsOf_same _ _ E) in Hin. destruct Hin. }
  destruct (scheduledPost w !! postId) as [p|] eqn:Hp.
  2:{ exfalso. apply Hnone. rewrite (prepare_missing _ _ Hp). reflexivity. }
  destruct (socialAccount w !! Prisma.socialAccountId p) as [a|] eqn:Ha.
  2:{ exfalso. apply Hnone.
      unfold preparePostForPublishing, bind, findUnique, findAccount.
      rewrite Hp, Ha. reflexivity. }
  destruct (expired (Prisma.tokenExpiresAt a) (now w)) eqn:He.
  2:{ exfalso. apply Hnone. destruct (prepare_fresh postId w p a Hp Ha He) as (post & K).
      rewrite K. reflexivity. }
  destruct (PlatformFactory.isSupported (Prisma.platform p)) eqn:Hs.
  2:{ exfalso. apply Hnone.
      destruct (prepare_unsupported postId w p a Hp Ha Hs) as [(post & K)|K];
        rewrite K; reflexivity. }
  destruct (configured w) as [app|] eqn:Hc.
  2:{ exfalso. apply Hnone.
      pose proof (refreshToken_eq (Prisma.platformUserId a) (refreshWith a) w) as Hr.
      rewrite Hc in Hr.
      pose proof (prepare_eq postId w p a Hp Ha He Hs _ _ Hr) as K. cbv beta iota in K.
      rewrite K. reflexivity. }
  unfold expired in He. destruct (Prisma.tokenExpiresAt a) as [t|] eqn:Ht;
    [|discriminate He].
  apply Z.leb_le in He.
  exists p, a, t. repeat split; try assumption; try reflexivity. eexists. reflexivity.
Qed.

Lemma prepare_requests_only_when_expired_sample :
  exists p a t,
    scheduledPost MoreSamples.expiredToken !! "post-1" = Some p
    /\ socialAccount MoreSamples.expiredToken !! Prisma.socialAccountId p = Some a
    /\ Prisma.tokenExpiresAt a = Some t /\ t <= now MoreSamples.expiredToken
    /\ PlatformFactory.isSupported (Prisma.platform p) = true
    /\ is_Some (configured MoreSamples.expiredToken).
Proof.
  apply (prepare_requests_only_when_expired "post-1" MoreSamples.expiredToken
           (ExchangeToken "app-id" "app-secret" "stored-token")).
  vm_compute. left. reflexivity.
Defined.

End PreparationClaims.

(** ** The registry of adapters *)

Section RegistryClaims.

Import Obs PlatformFactory.

(** X19: the registry is keyed by lower-cased names: a platform is
    supported exactly when its name is "instagram" up to case; the
    adapter found under a name reports that name in lower case; a missing
    adapter is reported with the name as it was given; and the list of
    supported platforms holds exactly the supported name. *)
Theorem registry_lookup (platformName : string) (w : World) :
  (isSupported platformName = true <-> Js.toLowerCase platformName = "instagram")
  /\ (forall a w', getAdapter platformName w = (Normal a, w') ->
        w' = w /\ isSupported platformName = true
        /\ getPlatformName a = Js.toLowerCase platformName)
  /\ (forall e w', getAdapter platformName w = (Throw e, w') ->
        w' = w /\ isSupported platformName = false
        /\ e = newError ("Platform adapter not found: " ++ platformName))
  /\ (In (Js.toLowerCase platformName) AdapterInfo.getSupportedPlatforms
      <-> isSupported platformName = true).
Proof.
  assert (Hiff : isSupported platformName = true
                 <-> Js.toLowerCase platformName = "instagram").
  { unfold isSupported, adapters, register. rewrite bool_decide_eq_true.
    change (Js.toLowerCase "instagram") with "instagram". split.
    - intros [a Ha]. apply lookup_insert_Some in Ha.
      destruct Ha as [[Ha _]|[_ Ha]]; [congruence|].
      rewrite lookup_empty in Ha. discriminate Ha.
    - intros ->. rewrite lookup_insert_eq. eexists. reflexivity. }
  split; [exact Hiff|]. split; [|split].
  - intros a w' H. destruct (isSupported platformName) eqn:Hs.
    + rewrite (getAdapter_supported _ _ Hs) in H. injection H as <- <-.
      repeat split. symmetry. apply Hiff. reflexivity.
    + rewrite (getAdapter_unsupported _ _ Hs) in H. discriminate H.
  - intros e w' H. destruct (isSupported platformName) eqn:Hs.
    + rewrite (getAdapter_supported _ _ Hs) in H. discriminate H.
    + rewrite (getAdapter_unsupported _ _ Hs) in H. injection H as <- <-.
      repeat split.
  - change AdapterInfo.getSupportedPlatforms with ["instagram"].
    rewrite Hiff. cbn. split; [intros [H|[]]; congruence | intros ->; left; reflexivity].
Qed.

End RegistryClaims.

(** ** The order of carousel items *)

Section SortClaims.

Import Obs InstagramAdapter Platform.

(** X20: the sort by position leaves a list that is already in order
    as it is, so sorting twice is the same as sorting once. *)
Theorem sortByPosition_fixes_sorted (l : list MediaAsset) :
  (Sorted byPosition l -> sortByPosition l = l)
  /\ sortByPosition (sortByPosition l) = sortByPosition l.
Proof.
  assert (Hfix : forall k, Sorted byPosition k -> sortByPosition k = k).
  { induction k as [|m rest IH]; intros Hs; [reflexivity|].
    inversion Hs as [|? ? Hrest Hhd]; subst.
    cbn [sortByPosition]. rewrite (IH Hrest).
    destruct Hhd as [|x rest' Hmx]; cbn [insertByPosition]; [reflexivity|].
    unfold byPosition in Hmx. apply Z.leb_le in Hmx. rewrite Hmx. reflexivity. }
  split; [apply Hfix|]. apply Hfix.
  apply StronglySorted_Sorted, sortByPosition_sorted.
Qed.

Lemma sortByPosition_fixes_sorted_sample :
  sortByPosition [Samples.tiny; Samples.photo] = [Samples.tiny; Samples.photo].
Proof.
  apply (proj1 (sortByPosition_fixes_sorted [Samples.tiny; Samples.photo])).
  repeat constructor. unfold byPosition. cbn. lia.
Defined.

End SortClaims.

(** ** Validation and publishing together *)

Section ValidationClaims.

Import Obs Trace Platform Validate MediaRules InstagramAdapter.

Lemma forEachItem_names (media : list MediaAsset) :
  forall (i : nat) (m : MediaAsset) (start : nat) (msg : string),
    media !! i = Some m ->
    In msg (carouselItemErrors m (start + i)) ->
    In msg (forEachItem media start).
Proof.
  induction media as [|x rest IH]; intros i m start msg Hm Hin; [discriminate Hm|].
  cbn [forEachItem]. apply in_or_app. destruct i as [|j].
  - injection Hm as ->. left. rewrite Nat.add_0_r in Hin. exact Hin.
  - right. apply (IH j m (S start) msg Hm).
    replace (S start + j)%nat with (start + S j)%nat by lia. exact Hin.
Qed.

(** X21: the errors of a carousel name the item by its position in the
    list, counted from 1: an item with a declared type that is not an
    image, or with a declared size above 8 MiB, is reported under its own
    number. *)
Theorem carousel_errors_name_items (media : list MediaAsset) (i : nat) (m : MediaAsset) :
  media !! i = Some m ->
  (typeAccepted "image/" m = false ->
   In ("Item " ++ Js.show_nat (i + 1) ++ " in carousel must be an image")
     (errorList (validateMedia media CAROUSEL)))
  /\ (sizeAccepted MB8 m = false ->
      In ("Item " ++ Js.show_nat (i + 1) ++ " in carousel exceeds 8MB limit")
        (errorList (validateMedia media CAROUSEL))).
Proof.
  intros Hm. rewrite errorList_collect. cbn [collectErrors]. unfold carouselErrors.
  split; intros Hbad; apply in_or_app; right;
    apply (forEachItem_names media i m 0%nat _ Hm); cbn [Nat.add];
    unfold carouselItemErrors; apply in_or_app.
  - left. unfold typeAccepted in Hbad.
    destruct (Js.truthy_str (fileType m)), (Js.startsWith (fileType m) "image/");
      try discriminate Hbad.
    cbn. left. reflexivity.
  - right. unfold sizeAccepted in Hbad. unfold has_num.
    destruct (fileSize m) as [s|]; [|discriminate Hbad].
    apply Z.leb_gt in Hbad.
    assert (Ht : Js.truthy_num s = true).
    { unfold Js.truthy_num. destruct (Z.eqb_spec s 0) as [->|]; [|reflexivity].
      unfold MB8 in Hbad. lia. }
    assert (Hg : (s >? MB8) = true) by (apply Z.gtb_lt; exact Hbad).
    rewrite Ht, Hg. cbn. left. reflexivity.
Qed.

Lemma carousel_errors_name_items_sample :
  In "Item 2 in carousel must be an image"
    (errorList (validateMedia [Samples.photo; Samples.clip] CAROUSEL)).
Proof.
  apply (proj1 (carousel_errors_name_items [Samples.photo; Samples.clip] 1 Samples.clip
                  eq_refl)).
  reflexivity.
Defined.

(** X22: validateMedia has no rule for the kinds VIDEO and TEXT and
    accepts any media for them, while the adapter never publishes a post
    of these kinds: it returns a failure and sends nothing. *)
Theorem unruled_kinds_pass_validation (post : PlatformPost.ScheduledPost) (w : World) :
  PlatformPost.postType post = VIDEO \/ PlatformPost.postType post = TEXT ->
  validateMedia (PlatformPost.mediaAssets post) (PlatformPost.postType post)
  = {| valid := true; errors := None; warnings := None |}
  /\ exists msg,
       dispatch post w = (Normal (failureResult (newError msg)), w).
Proof.
  intros Hk. split.
  - destruct Hk as [-> | ->]; reflexivity.
  - unfold dispatch, publishPost, tryCatch, bind, createContainer.
    destruct (falsy (PlatformPost.accessToken post)
              || falsy (PlatformPost.igAccountId post));
      destruct Hk as [-> | ->]; cbn; eexists; reflexivity.
Qed.

Lemma unruled_kinds_pass_validation_sample :
  validateMedia [Samples.clip] TEXT = {| valid := true; errors := None; warnings := None |}
  /\ exists msg,
       dispatch (Samples.prepared TEXT [Samples.clip] (Some "stored-token")
                   (Some "17841400000000000")) Samples.quiet
       = (Normal (failureResult (newError msg)), Samples.quiet).
Proof.
  apply (unruled_kinds_pass_validation
           (Samples.prepared TEXT [Samples.clip] (Some "stored-token")
              (Some "17841400000000000")) Samples.quiet).
  right. reflexivity.
Defined.

Lemma startsWith_axios (r : Request) (w : World) : startsWith r (axios r) w.
Proof.
  unfold startsWith, axios. exists [].
  destruct (outcome (remote w (sent w) r)); reflexivity.
Qed.

Lemma startsWith_bind {A B} (r : Request) (c : M A) (k : A -> M B) (w : World) :
  startsWith r c w -> (forall a, Keeps remoteOnly (k a)) ->
  startsWith r (bind c k) w.
Proof.
  intros (rest & Hs) Hk. unfold startsWith, bind.
  destruct (c w) as [[a|e] w1]; cbn [snd] in *; [|exists rest; exact Hs].
  destruct (Hk a w1) as (_ & _ & _ & _ & _ & _ & _ & _ & more & Hm & _).
  destruct (k a w1) as [cb w2]. cbn [snd] in *.
  exists (rest ++ more)%list. rewrite Hm, Hs, <- app_assoc. reflexivity.
Qed.

Lemma startsWith_tryCatch {A} (r : Request) (c : M A) (h : JsError -> M A) (w : World) :
  startsWith r c w -> (forall e, Keeps remoteOnly (h e)) ->
  startsWith r (tryCatch c h) w.
Proof.
  intros (rest & Hs) Hh. unfold startsWith, tryCatch.
  destruct (c w) as [[a|e] w1]; cbn [snd] in *; [exists rest; exact Hs|].
  destruct (Hh e w1) as (_ & _ & _ & _ & _ & _ & _ & _ & more & Hm & _).
  destruct (h e w1) as [cb w2]. cbn [snd] in *.
  exists (rest ++ more)%list. rewrite Hm, Hs, <- app_assoc. reflexivity.
Qed.

Lemma insertByPosition_cons (m : MediaAsset) (l : list MediaAsset) :
  exists x rest, insertByPosition m l = x :: rest.
Proof.
  destruct l as [|y l']; cbn [insertByPosition]; [eauto|].
  destruct (positionKey m <=? positionKey y); eauto.
Qed.

Lemma startsWith_createContainer (post : PlatformPost.ScheduledPost) (ig tok : string)
    (w : World) :
  accepted (PlatformPost.mediaAssets post) (PlatformPost.postType post) = true ->
  PlatformPost.postType post = IMAGE \/ PlatformPost.postType post = CAROUSEL ->
  exists r, isCreate r /\ startsWith r (createContainer post ig tok) w.
Proof.
  intros Hacc [Hk|Hk]; unfold createContainer; rewrite Hk in *; cbn [accepted] in Hacc.
  - destruct (PlatformPost.mediaAssets post) as [|m [|m' rest]]; try discriminate Hacc.
    eexists. split; [|unfold GraphApi.createImageContainer, GraphApi.rethrowAs;
                      apply startsWith_tryCatch;
                      [apply startsWith_bind;
                       [apply startsWith_axios | intros a; apply sentOnly_ret]
                      | intros e; apply sentOnly_throw]].
    exact I.
  - destruct (PlatformPost.mediaAssets post) as [|m rest]; [discriminate Hacc|].
    cbn [sortByPosition].
    destruct (insertByPosition_cons m (sortByPosition rest)) as (x & l' & ->).
    cbn [map]. eexists. split; [|apply startsWith_bind; [|intros a; apply sentOnly_ret]].
    2:{ unfold GraphApi.createCarouselContainers, GraphApi.rethrowAs.
        apply startsWith_tryCatch; [|intros e; apply sentOnly_throw].
        apply startsWith_bind.
        - cbn [GraphApi.createItemContainers]. apply startsWith_bind.
          + apply startsWith_axios.
          + intros a. apply sentOnly_createItemContainers. intros u. exact I.
        - intros ids. keeps; exact I. }
    exact I.
Qed.

(** X23: a post whose media passed validateMedia for one of the
    supported kinds, and that carries its credentials, is never turned down
    by the adapter itself: publishing it sends at least one request, and
    the first request creates a container. *)
Theorem validated_post_reaches_platform (post : PlatformPost.ScheduledPost) (w : World) :
  valid (validateMedia (PlatformPost.mediaAssets post) (PlatformPost.postType post))
  = true ->
  In (PlatformPost.postType post) AdapterInfo.getSupportedPostTypes ->
  falsy (PlatformPost.accessToken post) || falsy (PlatformPost.igAccountId post) = false ->
  exists r rest,
    requestsOf (dispatch post) w = r :: rest /\ isCreate r.
Proof.
  intros Hv Hk Hcred. rewrite valid_accepted in Hv.
  assert (Hfin : forall cid timeout,
             Keeps remoteOnly
               (finishPublish (default "" (PlatformPost.igAccountId post)) cid
                  (default "" (PlatformPost.accessToken post)) timeout)).
  { intros cid timeout. apply sentOnly_finishPublish. intros; exact I. }
  assert (Hstart : exists r, isCreate r /\ startsWith r (dispatch post) w).
  { unfold dispatch. destruct Hk as [Hk|[Hk|[Hk|[]]]]; rewrite <- Hk;
      cbn [PostType_eqb].
    - destruct (startsWith_createContainer post
                  (default "" (PlatformPost.igAccountId post))
                  (default "" (PlatformPost.accessToken post)) w Hv)
        as (r & Hr & Hs); [left; symmetry; exact Hk|].
      exists r. split; [exact Hr|]. unfold publishPost. rewrite Hcred.
      apply startsWith_tryCatch; [|intros e; apply sentOnly_ret].
      apply startsWith_bind; [exact Hs | intros cid; apply Hfin].
    - destruct (startsWith_createContainer post
                  (default "" (PlatformPost.igAccountId post))
                  (default "" (PlatformPost.accessToken post)) w Hv)
        as (r & Hr & Hs); [right; symmetry; exact Hk|].
      exists r. split; [exact Hr|]. unfold publishPost. rewrite Hcred.
      apply startsWith_tryCatch; [|intros e; apply sentOnly_ret].
      apply startsWith_bind; [exact Hs | intros cid; apply Hfin].
    - rewrite <- Hk in Hv. cbn [accepted] in Hv. unfold publishReel. rewrite Hcred.
      destruct (PlatformPost.mediaAssets post) as [|m [|m' rest]]; try discriminate Hv.
      eexists. split; [|apply startsWith_tryCatch; [|intros e; apply sentOnly_ret];
                        apply startsWith_bind; [|intros cid; apply Hfin];
                        unfold GraphApi.createReelContainer, GraphApi.rethrowAs;
                        apply startsWith_tryCatch; [|intros e; apply sentOnly_throw];
                        apply startsWith_bind;
                        [apply startsWith_axios | intros a; apply sentOnly_ret]].
      exact I. }
  destruct Hstart as (r & Hr & rest & Hs).
  exists r, rest. split; [|exact Hr]. apply requestsOf_app. exact Hs.
Qed.

Lemma validated_post_reaches_platform_sample :
  exists r rest,
    requestsOf (dispatch (Samples.prepared CAROUSEL Samples.slides (Some "stored-token")
                            (Some "17841400000000000"))) Samples.carouselWorld
    = r :: rest
    /\ isCreate r.
Proof.
  apply (validated_post_reaches_platform
           (Samples.prepared CAROUSEL Samples.slides (Some "stored-token")
              (Some "17841400000000000")) Samples.carouselWorld).
  - reflexivity.
  - right. left. reflexivity.
  - reflexivity.
Defined.

End ValidationClaims.

(** ** The status of a published post *)

Section PostStatusClaims.

Import Obs Trace AdapterInfo.

(** X24: getPostStatus never throws and sends exactly one request, for
    the platform post it was given: it reports "published" with the id and
    the permalink of the answer when the platform answers, and "failed"
    with the error text when the platform rejects the request; it never
    reports "pending". *)
Theorem getPostStatus_outcomes (postId platformPostId accessToken : string) (w : World) :
  exists st w',
    getPostStatus postId platformPostId accessToken w = (Normal st, w')
    /\ requestsOf (getPostStatus postId platformPostId accessToken) w
       = [PostInfo platformPostId accessToken]
    /\ match outcome (remote w (sent w) (PostInfo platformPostId accessToken)) with
       | Resolved d =>
           st = {| status := "published";
                   AdapterInfo.platformPostId := Some (data_id d);
                   AdapterInfo.platformPostUrl := Some (data_permalink d);
                   error := None |}
       | Rejected e =>
           st = {| status := "failed";
                   AdapterInfo.platformPostId := None;
                   AdapterInfo.platformPostUrl := None;
                   error := Some ("Failed to get post info: "
                                    ++ GraphApi.remoteMessage e) |}
       end.
Proof.
  unfold requestsOf, getPostStatus, tryCatch, bind. rewrite getPostInfo_eq.
  destruct (outcome (remote w (sent w) (PostInfo platformPostId accessToken)))
    as [d|e]; eexists _, _; (split; [reflexivity|]);
    (split; [cbn; apply drop_app_length | reflexivity]).
Qed.

End PostStatusClaims.

(** ** The poll loop, turn by turn *)

Section TurnFacts.

Import Obs Trace Turns InstagramAdapter.

Variables cid tok : string.

Lemma turn_succ (k : nat) (w : World) :
  turn cid tok (S k) w
  = snd (sleep pollInterval (afterStatus cid tok (turn cid tok k w))).
Proof. reflexivity. Qed.

Lemma turn_shift (k : nat) (w : World) :
  turn cid tok (S k) w = turn cid tok k (turn cid tok 1 w).
Proof.
  induction k as [|k IH]; [reflexivity|].
  rewrite turn_succ, IH. reflexivity.
Qed.

Lemma turn_remote (k : nat) (w : World) : remote (turn cid tok k w) = remote w.
Proof. induction k as [|k IH]; [reflexivity|]. rewrite turn_succ. cbn. exact IH. Qed.

Lemma turn_sent (k : nat) (w : World) :
  sent (turn cid tok k w) = (sent w ++ replicate k (ContainerStatus cid tok))%list.
Proof.
  induction k as [|k IH]; [cbn; rewrite app_nil_r; reflexivity|].
  rewrite turn_succ. cbn. rewrite IH, <- app_assoc. f_equal.
  change (ContainerStatus cid tok :: replicate k (ContainerStatus cid tok))
    with (replicate (S k) (ContainerStatus cid tok)).
  rewrite replicate_S_end. reflexivity.
Qed.

Lemma turn_now (k : nat) (w : World) :
  now (turn cid tok (S k) w)
  = now (turn cid tok k w) + Z.of_N (latency (replyAt cid tok k w)) + pollInterval.
Proof. reflexivity. Qed.

Lemma turn_now_le (j k : nat) (w : World) :
  (j <= k)%nat ->
  now (turn cid tok j w) + pollInterval * Z.of_nat (k - j) <= now (turn cid tok k w).
Proof.
  induction 1 as [|k Hle IH].
  - rewrite Nat.sub_diag. lia.
  - rewrite turn_now. replace (S k - j)%nat with (S (k - j)) by lia.
    unfold pollInterval in *. lia.
Qed.

Lemma elapsed_ge (k : nat) (w : World) :
  pollInterval * Z.of_nat k <= elapsed cid tok k w.
Proof.
  unfold elapsed. pose proof (turn_now_le 0 k w ltac:(lia)) as H.
  rewrite Nat.sub_0_r in H. cbn [turn] in H. lia.
Qed.

Lemma elapsed_mono (j k : nat) (w : World) :
  (j <= k)%nat -> elapsed cid tok j w <= elapsed cid tok k w.
Proof.
  intros H. unfold elapsed. pose proof (turn_now_le j k w H). unfold pollInterval in *. lia.
Qed.

Lemma codeAt_shift (k : nat) (w : World) :
  codeAt cid tok k (turn cid tok 1 w) = codeAt cid tok (S k) w.
Proof. unfold codeAt, replyAt. rewrite <- turn_shift. reflexivity. Qed.

Lemma replyAt_shift (k : nat) (w : World) :
  replyAt cid tok k (turn cid tok 1 w) = replyAt cid tok (S k) w.
Proof. unfold replyAt. rewrite <- turn_shift. reflexivity. Qed.

Lemma processingAt_shift (k : nat) (w : World) :
  processingAt cid tok k (turn cid tok 1 w) <-> processingAt cid tok (S k) w.
Proof. unfold processingAt. rewrite codeAt_shift. reflexivity. Qed.

Lemma pollLoop_ends (start timeout : Z) (fuel : nat) :
  forall u r,
    pollLoop fuel cid tok start timeout u = Some r ->
    exists n,
      (forall j, (j < n)%nat ->
         processingAt cid tok j u /\ now (turn cid tok j u) - start < timeout)
      /\ ((timeout <= now (turn cid tok n u) - start
           /\ r = (Throw timeoutFault, turn cid tok n u))
          \/ (now (turn cid tok n u) - start < timeout
              /\ endsWith cid tok (replyAt cid tok n u) (turn cid tok n u) r)).
Proof.
  induction fuel as [|fuel IH]; intros u r; cbn [pollLoop];
    destruct (Z.ltb_spec (now u - start) timeout) as [Hlt|Hge]; try discriminate;
    try (intros [= <-]; exists 0%nat; split; [intros j Hj; lia|]; left;
         split; [exact Hge | reflexivity]).
  rewrite getContainerStatus_eq.
  destruct (outcome (remote u (sent u) (ContainerStatus cid tok))) as [d|e] eqn:Ho.
  2:{ intros [= <-]. exists 0%nat. split; [intros j Hj; lia|]. right.
      split; [exact Hlt|]. unfold endsWith, replyAt. cbn [turn]. rewrite Ho.
      reflexivity. }
  destruct (String.eqb_spec (data_status_code d) "FINISHED") as [Hf|Hf].
  { intros [= <-]. exists 0%nat. split; [intros j Hj; lia|]. right.
    split; [exact Hlt|]. unfold endsWith, replyAt. cbn [turn]. rewrite Ho.
    left. split; [exact Hf | reflexivity]. }
  destruct (String.eqb_spec (data_status_code d) "ERROR") as [He|He].
  { intros [= <-]. exists 0%nat. split; [intros j Hj; lia|]. right.
    split; [exact Hlt|]. unfold endsWith, replyAt. cbn [turn]. rewrite Ho.
    right. split; [exact He | reflexivity]. }
  intros Hrec. change (snd (sleep pollInterval (afterStatus cid tok u)))
    with (turn cid tok 1 u) in Hrec.
  destruct (IH _ _ Hrec) as (n & Hbefore & Hend).
  exists (S n). split.
  - intros [|j] Hj.
    + split; [|exact Hlt]. exists (data_status_code d).
      unfold codeAt, replyAt, observedCode. cbn [turn]. rewrite Ho.
      repeat split; assumption.
    + destruct (Hbefore j ltac:(lia)) as (Hp & Ht).
      rewrite turn_shift. split; [apply processingAt_shift; exact Hp | exact Ht].
  - rewrite turn_shift, <- replyAt_shift. exact Hend.
Qed.

(** The ways a wait ends. *)
Lemma waitForContainerReady_ends (timeout : Z) (w : World) :
  exists n,
    (forall j, (j < n)%nat -> polled cid tok timeout j w /\ processingAt cid tok j w)
    /\ ((givesUpAt cid tok timeout n w
         /\ waitForContainerReady cid tok timeout w
            = (Throw timeoutFault, turn cid tok n w))
        \/ (polled cid tok timeout n w
            /\ endsWith cid tok (replyAt cid tok n w) (turn cid tok n w)
                 (waitForContainerReady cid tok timeout w))).
Proof.
  destruct (pollLoop_ends (now w) timeout _ _ _
              (waitForContainerReady_loop cid tok timeout w))
    as (n & Hbefore & Hend).
  assert (Hpolled : forall j, (j <= n)%nat ->
             now (turn cid tok j w) - now w < timeout -> polled cid tok timeout j w).
  { intros j Hj Ht. split; [|exact Ht].
    intros i Hi. apply Hbefore. lia. }
  exists n. split.
  - intros j Hj. destruct (Hbefore j Hj) as (Hp & Ht).
    split; [apply Hpolled; [lia | exact Ht] | exact Hp].
  - destruct Hend as [(Ht & Hr)|(Ht & Hr)].
    + left. split; [|exact Hr]. split; [exact Ht|].
      intros k Hk. apply Hbefore, Hk.
    + right. split; [apply Hpolled; [lia | exact Ht] | exact Hr].
Qed.

(** The timeout: when every poll the wait makes lets the loop go on. *)
Lemma wait_timeout (timeout : Z) (w : World) :
  allProcessing cid tok timeout w ->
  exists n,
    waitForContainerReady cid tok timeout w = (Throw timeoutFault, turn cid tok n w)
    /\ givesUpAt cid tok timeout n w.
Proof.
  intros Hall.
  destruct (waitForContainerReady_ends timeout w) as (n & Hbefore & [(Hg & Hr)|(Hp & Hr)]).
  - exists n. split; assumption.
  - exfalso. destruct (Hall n Hp) as (code & Hc & Hnf & Hne).
    unfold endsWith in Hr. unfold codeAt, observedCode in Hc.
    destruct (outcome (replyAt cid tok n w)) as [d|e]; [|discriminate Hc].
    injection Hc as <-. destruct Hr as [(Hd & _)|(Hd & _)]; congruence.
Qed.

(** A wait returns only after a poll it made was answered FINISHED. *)
Lemma wait_returns (timeout : Z) (w w' : World) :
  waitForContainerReady cid tok timeout w = (Normal tt, w') ->
  exists k,
    polled cid tok timeout k w
    /\ codeAt cid tok k w = Some "FINISHED"
    /\ w' = afterStatus cid tok (turn cid tok k w).
Proof.
  intros E.
  destruct (waitForContainerReady_ends timeout w) as (n & Hbefore & [(Hg & Hr)|(Hp & Hr)]).
  - rewrite Hr in E. discriminate E.
  - exists n. split; [exact Hp|]. unfold endsWith in Hr. rewrite E in Hr.
    unfold codeAt, observedCode.
    destruct (outcome (replyAt cid tok n w)) as [d|e]; [|discriminate Hr].
    destruct Hr as [(Hd & [= ->])|(_ & Hr)]; [|discriminate Hr].
    rewrite Hd. split; reflexivity.
Qed.

Lemma wait_noneFinished (timeout : Z) (w : World) :
  noneFinished cid tok timeout w ->
  exists e w', waitForContainerReady cid tok timeout w = (Throw e, w').
Proof.
  intros Hnone.
  destruct (waitForContainerReady cid tok timeout w) as [[[]|e] w'] eqn:E;
    [|eexists _, _; reflexivity].
  exfalso. destruct (wait_returns timeout w w' E) as (k & Hp & Hc & _).
  exact (Hnone k Hp Hc).
Qed.

(** An ERROR answer ends the wait at once, at whatever turn. *)
Lemma wait_error (timeout : Z) (w : World) (n : nat) (d : Payload) :
  polled cid tok timeout n w ->
  outcome (replyAt cid tok n w) = Resolved d ->
  data_status_code d = "ERROR" ->
  waitForContainerReady cid tok timeout w
  = (Throw (failedFault d), afterStatus cid tok (turn cid tok n w)).
Proof.
  intros (Hproc & Ht) Ho Hd.
  assert (Hnot : ~ processingAt cid tok n w).
  { intros (code & Hc & _ & Hne). unfold codeAt, observedCode in Hc.
    rewrite Ho in Hc. injection Hc as <-. exact (Hne Hd). }
  destruct (waitForContainerReady_ends timeout w) as (m & Hbefore & Hend).
  assert (Hmn : m = n).
  { destruct (Nat.lt_trichotomy m n) as [Hlt|[Heq|Hgt]]; [|exact Heq|].
    - exfalso. destruct Hend as [((Hg & _) & _)|((_ & Htm) & Hr)].
      + pose proof (elapsed_mono m n w ltac:(lia)). lia.
      + destruct (Hproc m Hlt) as (code & Hc & Hnf & Hne).
        unfold endsWith in Hr. unfold codeAt, observedCode in Hc.
        destruct (outcome (replyAt cid tok m w)) as [d'|e]; [|discriminate Hc].
        injection Hc as <-. destruct Hr as [(Hd' & _)|(Hd' & _)]; congruence.
    - exfalso. apply Hnot. apply (Hbefore n Hgt). }
  subst m. destruct Hend as [((Hg & _) & _)|(_ & Hr)]; [lia|].
  unfold endsWith in Hr. rewrite Ho in Hr.
  destruct Hr as [(Hd' & _)|(_ & Hr)]; [rewrite Hd in Hd'; discriminate Hd' | exact Hr].
Qed.

(** The number of polls of a wait that gives up. *)
Lemma givesUpAt_count (timeout : Z) (w : World) (n : nat) :
  givesUpAt cid tok timeout n w ->
  0 < timeout ->
  (1 <= n)%nat /\ pollInterval * (Z.of_nat n - 1) < timeout.
Proof.
  intros (Hg & Hb) Hpos. destruct n as [|n].
  - unfold elapsed in Hg. cbn [turn] in Hg. lia.
  - split; [lia|]. pose proof (Hb n ltac:(lia)) as H. pose proof (elapsed_ge n w).
    unfold pollInterval in *. lia.
Qed.

End TurnFacts.

(** ** The wait inside the two publish operations *)

Section PublishWaits.

Import Obs Trace Turns InstagramAdapter.

Lemma publishPost_created (post : PlatformPost.ScheduledPost) (w w1 : World)
    (cid : string) :
  falsy (PlatformPost.accessToken post) || falsy (PlatformPost.igAccountId post) = false ->
  createContainer post (accountOf post) (tokenOf post) w = (Normal cid, w1) ->
  publishPost post w
  = match finishPublish (accountOf post) cid (tokenOf post) defaultTimeout w1 with
    | (Normal r, w') => (Normal r, w')
    | (Throw e, w') => (Normal (failureResult e), w')
    end.
Proof.
  intros Hcred Hc. unfold publishPost, tryCatch, bind. rewrite Hcred.
  unfold accountOf, tokenOf in Hc. rewrite Hc.
  destruct (finishPublish _ _ _ _ w1) as [[r|e] w']; reflexivity.
Qed.

Lemma publishReel_created (reel : PlatformPost.ScheduledPost) (w w1 : World)
    (m : Platform.MediaAsset) (cid : string) :
  falsy (PlatformPost.accessToken reel) || falsy (PlatformPost.igAccountId reel) = false ->
  PlatformPost.mediaAssets reel = [m] ->
  GraphApi.createReelContainer (accountOf reel) (Platform.fileUrl m)
    (Js.or_opt_str (PlatformPost.caption reel) "") (Platform.fileUrl m) (tokenOf reel) w
  = (Normal cid, w1) ->
  publishReel reel w
  = match finishPublish (accountOf reel) cid (tokenOf reel) 30000 w1 with
    | (Normal r, w') => (Normal r, w')
    | (Throw e, w') => (Normal (failureResult e), w')
    end.
Proof.
  intros Hcred Hm Hc. unfold publishReel, tryCatch. rewrite Hcred, Hm. unfold bind.
  unfold accountOf, tokenOf in Hc. rewrite Hc.
  destruct (finishPublish _ _ _ _ w1) as [[r|e] w']; reflexivity.
Qed.

Lemma finishPublish_succeeds (ig cid tok : string) (timeout : Z) (w1 w' : World)
    (r : Platform.PublishResult) :
  finishPublish ig cid tok timeout w1 = (Normal r, w') ->
  exists w2, waitForContainerReady cid tok timeout w1 = (Normal tt, w2).
Proof.
  unfold finishPublish, bind.
  destruct (waitForContainerReady cid tok timeout w1) as [[[]|e] w2]; [|discriminate].
  intros _. exists w2. reflexivity.
Qed.

(** A success of publishPost: the container was created and a poll of
    the wait for it was answered FINISHED. *)
Lemma publishPost_success (post : PlatformPost.ScheduledPost) (w w' : World)
    (r : Platform.PublishResult) :
  publishPost post w = (Normal r, w') ->
  Platform.success r = true ->
  exists cid w1 k,
    createContainer post (accountOf post) (tokenOf post) w = (Normal cid, w1)
    /\ polled cid (tokenOf post) defaultTimeout k w1
    /\ codeAt cid (tokenOf post) k w1 = Some "FINISHED".
Proof.
  intros E Hok.
  destruct (falsy (PlatformPost.accessToken post)
            || falsy (PlatformPost.igAccountId post)) eqn:Hcred.
  { rewrite (publishPost_missing_credentials _ _ Hcred) in E.
    injection E as <- _. discriminate Hok. }
  destruct (createContainer post (accountOf post) (tokenOf post) w)
    as [[cid|e] w1] eqn:Hc.
  2:{ revert E. unfold publishPost, tryCatch, bind. rewrite Hcred.
      unfold accountOf, tokenOf in Hc. rewrite Hc.
      intros [= <- _]. discriminate Hok. }
  rewrite (publishPost_created _ _ _ _ Hcred Hc) in E.
  destruct (finishPublish (accountOf post) cid (tokenOf post) defaultTimeout w1)
    as [[r'|e] w2] eqn:Hf; [|injection E as <- _; discriminate Hok].
  destruct (finishPublish_succeeds _ _ _ _ _ _ _ Hf) as (w3 & Hw).
  destruct (wait_returns _ _ _ _ _ Hw) as (k & Hp & Hcode & _).
  exists cid, w1, k. split; [reflexivity|]. split; [exact Hp | exact Hcode].
Qed.

Lemma publishReel_success (reel : PlatformPost.ScheduledPost) (w w' : World)
    (r : Platform.PublishResult) :
  publishReel reel w = (Normal r, w') ->
  Platform.success r = true ->
  exists m cid w1 k,
    PlatformPost.mediaAssets reel = [m]
    /\ GraphApi.createReelContainer (accountOf reel) (Platform.fileUrl m)
         (Js.or_opt_str (PlatformPost.caption reel) "") (Platform.fileUrl m)
         (tokenOf reel) w
       = (Normal cid, w1)
    /\ polled cid (tokenOf reel) 30000 k w1
    /\ codeAt cid (tokenOf reel) k w1 = Some "FINISHED".
Proof.
  intros E Hok.
  destruct (falsy (PlatformPost.accessToken reel)
            || falsy (PlatformPost.igAccountId reel)) eqn:Hcred.
  { rewrite (publishReel_missing_credentials _ _ Hcred) in E.
    injection E as <- _. discriminate Hok. }
  destruct (PlatformPost.mediaAssets reel) as [|m [|m' rest]] eqn:Hm.
  1,3: (revert E; unfold publishReel, tryCatch; rewrite Hcred, Hm;
        intros [= <- _]; discriminate Hok).
  destruct (GraphApi.createReelContainer (accountOf reel) (Platform.fileUrl m)
              (Js.or_opt_str (PlatformPost.caption reel) "") (Platform.fileUrl m)
              (tokenOf reel) w) as [[cid|e] w1] eqn:Hc.
  2:{ revert E. unfold publishReel, tryCatch. rewrite Hcred, Hm. unfold bind.
      unfold accountOf, tokenOf in Hc. rewrite Hc.
      intros [= <- _]. discriminate Hok. }
  rewrite (publishReel_created _ _ _ _ _ Hcred Hm Hc) in E.
  destruct (finishPublish (accountOf reel) cid (tokenOf reel) 30000 w1)
    as [[r'|e] w2] eqn:Hf; [|injection E as <- _; discriminate Hok].
  destruct (finishPublish_succeeds _ _ _ _ _ _ _ Hf) as (w3 & Hw).
  destruct (wait_returns _ _ _ _ _ Hw) as (k & Hp & Hcode & _).
  exists m, cid, w1, k. split; [reflexivity|]. split; [exact Hc|].
  split; [exact Hp | exact Hcode].
Qed.

(** What the wait's faults make of a publish operation whose container
    was created in [w1]: [run] is the operation from [w1] on. *)
Lemma wait_in_publish (ig cid tok : string) (timeout : Z) (w1 : World)
    (run : Completion Platform.PublishResult * World) :
  0 < timeout ->
  run = match finishPublish ig cid tok timeout w1 with
        | (Normal r, w') => (Normal r, w')
        | (Throw e, w') => (Normal (failureResult e), w')
        end ->
  (allProcessing cid tok timeout w1 ->
   exists n,
     run = (Normal (failureResult timeoutFault), turn cid tok n w1)
     /\ givesUpAt cid tok timeout n w1
     /\ (1 <= n)%nat /\ pollInterval * (Z.of_nat n - 1) < timeout)
  /\ (forall n d,
        polled cid tok timeout n w1 ->
        outcome (replyAt cid tok n w1) = Resolved d ->
        data_status_code d = "ERROR" ->
        run = (Normal (failureResult (failedFault d)),
               afterStatus cid tok (turn cid tok n w1)))
  /\ (noneFinished cid tok timeout w1 ->
      exists r w', run = (Normal r, w') /\ Platform.success r = false).
Proof.
  intros Hpos ->. split; [|split].
  - intros Hall. destruct (wait_timeout _ _ _ _ Hall) as (n & Hw & Hg).
    exists n. rewrite (finishPublish_wait_throws _ _ _ _ _ _ _ Hw).
    split; [reflexivity|]. split; [exact Hg|].
    apply (givesUpAt_count _ _ _ _ _ Hg Hpos).
  - intros n d Hp Ho Hd.
    rewrite (finishPublish_wait_throws _ _ _ _ _ _ _ (wait_error _ _ _ _ _ _ Hp Ho Hd)).
    reflexivity.
  - intros Hnone. destruct (wait_noneFinished _ _ _ _ Hnone) as (e & w' & Hw).
    rewrite (finishPublish_wait_throws _ _ _ _ _ _ _ Hw).
    eexists _, _. split; reflexivity.
Qed.

End PublishWaits.

(** ** Container polling *)

Section PollingClaims.

Import Obs Trace Turns InstagramAdapter.

(** C8: container polling.  The wait polls the container, sleeping 2 s
    after every poll that lets it go on, and tests the timeout before every
    poll.  If every poll the wait makes is answered with a state other
    than FINISHED and ERROR, the wait ends in the fault "Container
    processing timeout", at the first test at which the timeout has
    elapsed and not before.  If no poll the wait makes is answered
    FINISHED, whatever the platform would answer later, the wait ends in a
    fault; a wait returns only after one of its polls was answered
    FINISHED.  A poll answered ERROR ends the wait at once, without sleep,
    in a fault that carries the platform's status text.  publishPost waits
    with a timeout of 10 s, for an image and for a carousel, and
    publishReel with 30 s: they return the fault of the wait as a failure
    result, after at most 5 and 15 polls when it is the timeout, and they
    return a success only after a poll of their wait was answered
    FINISHED. *)
Theorem container_polling :
  (forall cid tok timeout w,
      (allProcessing cid tok timeout w ->
       exists n,
         waitForContainerReady cid tok timeout w
         = (Throw timeoutFault, turn cid tok n w)
         /\ givesUpAt cid tok timeout n w)
      /\ (forall n d,
            polled cid tok timeout n w ->
            outcome (replyAt cid tok n w) = Resolved d ->
            data_status_code d = "ERROR" ->
            waitForContainerReady cid tok timeout w
            = (Throw (failedFault d), afterStatus cid tok (turn cid tok n w)))
      /\ (noneFinished cid tok timeout w ->
          exists e w', waitForContainerReady cid tok timeout w = (Throw e, w'))
      /\ (forall w',
            waitForContainerReady cid tok timeout w = (Normal tt, w') ->
            exists k,
              polled cid tok timeout k w
              /\ codeAt cid tok k w = Some "FINISHED"
              /\ w' = afterStatus cid tok (turn cid tok k w)))
  /\ (forall cid tok k w,
        now (turn cid tok (S k) w)
        = now (turn cid tok k w) + Z.of_N (latency (replyAt cid tok k w)) + 2000
        /\ sent (turn cid tok k w)
           = (sent w ++ replicate k (ContainerStatus cid tok))%list
        /\ remote (turn cid tok k w) = remote w)
  /\ (forall post w cid w1,
        falsy (PlatformPost.accessToken post) || falsy (PlatformPost.igAccountId post)
        = false ->
        createContainer post (accountOf post) (tokenOf post) w = (Normal cid, w1) ->
        (allProcessing cid (tokenOf post) 10000 w1 ->
         exists n,
           publishPost post w
           = (Normal (failureResult timeoutFault), turn cid (tokenOf post) n w1)
           /\ givesUpAt cid (tokenOf post) 10000 n w1
           /\ (1 <= n <= 5)%nat)
        /\ (forall n d,
              polled cid (tokenOf post) 10000 n w1 ->
              outcome (replyAt cid (tokenOf post) n w1) = Resolved d ->
              data_status_code d = "ERROR" ->
              publishPost post w
              = (Normal (failureResult (failedFault d)),
                 afterStatus cid (tokenOf post) (turn cid (tokenOf post) n w1)))
        /\ (noneFinished cid (tokenOf post) 10000 w1 ->
            exists r w', publishPost post w = (Normal r, w')
                         /\ Platform.success r = false))
  /\ (forall reel w m cid w1,
        falsy (PlatformPost.accessToken reel) || falsy (PlatformPost.igAccountId reel)
        = false ->
        PlatformPost.mediaAssets reel = [m] ->
        GraphApi.createReelContainer (accountOf reel) (Platform.fileUrl m)
          (Js.or_opt_str (PlatformPost.caption reel) "") (Platform.fileUrl m)
          (tokenOf reel) w
        = (Normal cid, w1) ->
        (allProcessing cid (tokenOf reel) 30000 w1 ->
         exists n,
           publishReel reel w
           = (Normal (failureResult timeoutFault), turn cid (tokenOf reel) n w1)
           /\ givesUpAt cid (tokenOf reel) 30000 n w1
           /\ (1 <= n <= 15)%nat)
        /\ (forall n d,
              polled cid (tokenOf reel) 30000 n w1 ->
              outcome (replyAt cid (tokenOf reel) n w1) = Resolved d ->
              data_status_code d = "ERROR" ->
              publishReel reel w
              = (Normal (failureResult (failedFault d)),
                 afterStatus cid (tokenOf reel) (turn cid (tokenOf reel) n w1)))
        /\ (noneFinished cid (tokenOf reel) 30000 w1 ->
            exists r w', publishReel reel w = (Normal r, w')
                         /\ Platform.success r = false))
  /\ (forall post w r w',
        publishPost post w = (Normal r, w') ->
        Platform.success r = true ->
        exists cid w1 k,
          createContainer post (accountOf post) (tokenOf post) w = (Normal cid, w1)
          /\ polled cid (tokenOf post) 10000 k w1
          /\ codeAt cid (tokenOf post) k w1 = Some "FINISHED")
  /\ (forall reel w r w',
        publishReel reel w = (Normal r, w') ->
        Platform.success r = true ->
        exists m cid w1 k,
          PlatformPost.mediaAssets reel = [m]
          /\ GraphApi.createReelContainer (accountOf reel) (Platform.fileUrl m)
               (Js.or_opt_str (PlatformPost.caption reel) "") (Platform.fileUrl m)
               (tokenOf reel) w
             = (Normal cid, w1)
          /\ polled cid (tokenOf reel) 30000 k w1
          /\ codeAt cid (tokenOf reel) k w1 = Some "FINISHED")
  /\ (forall d,
        Platform.error (failureResult (failedFault d))
        = Some ("Container processing failed: "
                  ++ Js.or_str (data_status d) "Unknown error")
        /\ Platform.success (failureResult (failedFault d)) = false)
  /\ Platform.error (failureResult timeoutFault) = Some "Container processing timeout"
  /\ pollInterval = 2000 /\ defaultTimeout = 10000.
Proof.
  split.
  { intros cid tok timeout w. split; [apply wait_timeout|].
    split; [intros n d; apply wait_error|].
    split; [apply wait_noneFinished | intros w'; apply wait_returns]. }
  split.
  { intros cid tok k w. split; [apply turn_now|].
    split; [apply turn_sent | apply turn_remote]. }
  split.
  { intros post w cid w1 Hcred Hc.
    destruct (wait_in_publish (accountOf post) cid (tokenOf post) 10000 w1
                (publishPost post w) ltac:(lia)
                (publishPost_created _ _ _ _ Hcred Hc)) as (Ht & He & Hn).
    split; [|split; [exact He | exact Hn]].
    intros Hall. destruct (Ht Hall) as (n & E & Hg & H1 & H2).
    exists n. split; [exact E|]. split; [exact Hg|]. unfold pollInterval in H2. lia. }
  split.
  { intros reel w m cid w1 Hcred Hm Hc.
    destruct (wait_in_publish (accountOf reel) cid (tokenOf reel) 30000 w1
                (publishReel reel w) ltac:(lia)
                (publishReel_created _ _ _ _ _ Hcred Hm Hc)) as (Ht & He & Hn).
    split; [|split; [exact He | exact Hn]].
    intros Hall. destruct (Ht Hall) as (n & E & Hg & H1 & H2).
    exists n. split; [exact E|]. split; [exact Hg|]. unfold pollInterval in H2. lia. }
  split; [intros post w r w'; apply publishPost_success|].
  split; [intros reel w r w'; apply publishReel_success|].
  split; [intros d; split; reflexivity|].
  repeat split.
Qed.

Lemma filter_status_replicate (cid tok : string) (k : nat) :
  List.filter isStatusRequest (replicate k (ContainerStatus cid tok))
  = replicate k (ContainerStatus cid tok).
Proof. induction k as [|k IH]; [reflexivity|]. cbn. rewrite IH. reflexivity. Qed.

(** On a platform that never leaves processing every poll lets the
    loop go on. *)
Lemma processing_platform (cid tok : string) (timeout : Z) (w : World) :
  remote w = Samples.remoteProcessing -> allProcessing cid tok timeout w.
Proof.
  intros Hr k _. exists "IN_PROGRESS". unfold codeAt, replyAt.
  rewrite turn_remote, Hr. repeat split; discriminate.
Qed.

(** On the platform that is ready from the sixth poll on, the five polls
    of a wait of 10 s all let the loop go on. *)
Lemma late_platform (cid tok : string) (w : World) :
  remote w = MoreSamples.remoteLate ->
  List.filter isStatusRequest (sent w) = [] ->
  allProcessing cid tok 10000 w.
Proof.
  intros Hr Hs k (_ & Ht). pose proof (elapsed_ge cid tok k w) as Hk.
  unfold pollInterval in Hk.
  exists "IN_PROGRESS". unfold codeAt, replyAt.
  rewrite turn_remote, turn_sent, Hr. unfold MoreSamples.remoteLate, observedCode.
  cbn [outcome Samples.payload data_status_code].
  rewrite List.filter_app, Hs, filter_status_replicate. cbn [app].
  rewrite length_replicate.
  destruct (Nat.leb_spec 5 k) as [H5|H5]; [lia|].
  repeat split; discriminate.
Qed.

Lemma container_polling_samples :
  (exists n,
      publishPost (Samples.prepared Platform.IMAGE [Samples.photo]
                     (Some "stored-token") (Some "17841400000000000"))
        MoreSamples.lateImage
      = (Normal (failureResult timeoutFault),
         turn "container" "stored-token" n
           (afterRequest
              (CreateImage "17841400000000000" "https://cdn/a.jpg" "Hello" "stored-token")
              MoreSamples.lateImage))
      /\ (1 <= n <= 5)%nat)
  /\ (exists n,
        publishPost (Samples.prepared Platform.CAROUSEL Samples.slides
                       (Some "stored-token") (Some "17841400000000000"))
          MoreSamples.stuckCarousel
        = (Normal (failureResult timeoutFault),
           turn "carousel" "stored-token" n
             (snd (createContainer
                     (Samples.prepared Platform.CAROUSEL Samples.slides
                        (Some "stored-token") (Some "17841400000000000"))
                     "17841400000000000" "stored-token" MoreSamples.stuckCarousel)))
        /\ (1 <= n <= 5)%nat)
  /\ (exists n,
        publishReel (Samples.prepared Platform.REEL [Samples.clip]
                       (Some "stored-token") (Some "17841400000000000"))
          Samples.stuckReel
        = (Normal (failureResult timeoutFault),
           turn "container" "stored-token" n
             (afterRequest
                (CreateReel "17841400000000000" "https://cdn/c.mp4" "Hello"
                   "stored-token")
                Samples.stuckReel))
        /\ (1 <= n <= 15)%nat)
  /\ publishPost (Samples.prepared Platform.IMAGE [Samples.photo]
                    (Some "stored-token") (Some "17841400000000000"))
       Samples.erroredWorld
     = (Normal (failureResult (failedFault (Samples.errored "object"))),
        afterStatus "container" "stored-token"
          (afterRequest
             (CreateImage "17841400000000000" "https://cdn/a.jpg" "Hello" "stored-token")
             Samples.erroredWorld)).
Proof.
  destruct container_polling as (_ & _ & Hpost & Hreel & _).
  split; [|split; [|split]].
  - destruct (Hpost (Samples.prepared Platform.IMAGE [Samples.photo]
                       (Some "stored-token") (Some "17841400000000000"))
                MoreSamples.lateImage "container"
                (afterRequest
                   (CreateImage "17841400000000000" "https://cdn/a.jpg" "Hello"
                      "stored-token")
                   MoreSamples.lateImage) eq_refl eq_refl) as (Ht & _).
    destruct Ht as (n & E & _ & Hn); [apply late_platform; reflexivity|].
    exists n. split; [exact E | exact Hn].
  - destruct (Hpost (Samples.prepared Platform.CAROUSEL Samples.slides
                       (Some "stored-token") (Some "17841400000000000"))
                MoreSamples.stuckCarousel "carousel"
                (snd (createContainer
                        (Samples.prepared Platform.CAROUSEL Samples.slides
                           (Some "stored-token") (Some "17841400000000000"))
                        "17841400000000000" "stored-token" MoreSamples.stuckCarousel))
                eq_refl eq_refl) as (Ht & _).
    destruct Ht as (n & E & _ & Hn); [apply processing_platform; reflexivity|].
    exists n. split; [exact E | exact Hn].
  - destruct (Hreel (Samples.prepared Platform.REEL [Samples.clip]
                       (Some "stored-token") (Some "17841400000000000"))
                Samples.stuckReel Samples.clip "container"
                (afterRequest
                   (CreateReel "17841400000000000" "https://cdn/c.mp4" "Hello"
                      "stored-token")
                   Samples.stuckReel) eq_refl eq_refl eq_refl) as (Ht & _).
    destruct Ht as (n & E & _ & Hn); [apply processing_platform; reflexivity|].
    exists n. split; [exact E | exact Hn].
  - destruct (Hpost (Samples.prepared Platform.IMAGE [Samples.photo]
                       (Some "stored-token") (Some "17841400000000000"))
                Samples.erroredWorld "container"
                (afterRequest
                   (CreateImage "17841400000000000" "https://cdn/a.jpg" "Hello"
                      "stored-token")
                   Samples.erroredWorld) eq_refl eq_refl) as (_ & He & _).
    apply (He 0%nat (Samples.errored "object")).
    + split; [intros j Hj; lia | vm_compute; reflexivity].
    + reflexivity.
    + reflexivity.
Defined.

(** The platform that is ready from the sixth poll on: publishPost gives
    up after its five polls, 10.5 s after the container was created,
    although the sixth poll would have been answered FINISHED. *)
Lemma late_container_times_out :
  let post := Samples.prepared Platform.IMAGE [Samples.photo]
                (Some "stored-token") (Some "17841400000000000") in
  let w1 := afterRequest
              (CreateImage "17841400000000000" "https://cdn/a.jpg" "Hello" "stored-token")
              MoreSamples.lateImage in
  publishPost post MoreSamples.lateImage
  = (Normal (failureResult timeoutFault), turn "container" "stored-token" 5 w1)
  /\ elapsed "container" "stored-token" 5 w1 = 10500
  /\ codeAt "container" "stored-token" 5 w1 = Some "FINISHED".
Proof. cbv zeta. split; [vm_compute; reflexivity|]. split; reflexivity. Qed.

End PollingClaims.
